(** * mobx-state-tree: tree nodes, array reconciliation and tree operations

    A shallow embedding of [core/node.ts], [core/mst-operations.ts],
    [types/complex-types/array.ts] and [types/utility-types/frozen.ts].

    Nodes are JavaScript objects that point at each other and are mutated in
    place, so the embedding keeps an explicit store of nodes indexed by
    [nodeId]; every method of the sources becomes a function that takes the
    store and returns a [Result] holding the updated store.  Loops over the
    parent chain and the depth first [walk] recurse on a [fuel] bound. *)

From Stdlib Require Import ZArith String Ascii List Lia Bool DecimalString DecimalNat.
From stdpp Require Import base option list gmap strings.

Set Warnings "-register-all".

Local Open Scope string_scope.
Local Open Scope Z_scope.

(** ** Values *)

Abbreviation nodeId := nat.

(** Plain JavaScript data as it reaches the tree.  [VNode n] is a live value
    carrying the hidden [$treenode] property that points at node [n];
    [VFrozen v] is a composite that went through [deepFreeze]. *)
Inductive JsVal : Type :=
| VUndefined
| VNull
| VBool (b : bool)
| VNum (z : Z)
| VStr (s : string)
| VArr (items : list JsVal)
| VObj (fields : list (string * JsVal))
| VFrozen (v : JsVal)
| VNode (n : nodeId).

(** The [storedValue] of a node: a value kept as it is ([treenode] tells
    whether createNode could attach [$treenode] to it), the observable array
    of an [ArrayType] node (its child nodes, before unboxing; [observed]
    tells whether [didChange] has been registered with [observe]), or the
    keyed record of a model. *)
Inductive Stored : Type :=
| SPlain (v : JsVal) (treenode : bool)
| SArray (items : list nodeId) (observed : bool)
| SObject (fields : list (string * JsVal)).

(** Type descriptors.  [ArrayType] and [Frozen] are the classes of the
    sources; [CoreType] (a primitive such as [types.string]) and [ObjectType]
    (a model, optionally declaring an identifier field) stand for descriptors
    whose classes are not among the sources, see [Modelled from the spec]
    below. *)
Inductive IType : Type :=
| ArrayType (subType : IType)
| Frozen
| CoreType (name : string)
| ObjectType (name : string) (identifierAttr : option string).

Inductive PatchOp := OpAdd | OpReplace | OpRemove.

Record IJsonPatch := mkPatch {
  op : PatchOp;
  path : string;
  value : option JsVal
}.

(** The trace of a run: calls of patch and snapshot subscribers, of
    disposers and of lifecycle hooks. *)
Inductive Event : Type :=
| EPatch (handler : nat) (patch : IJsonPatch)
| ESnapshot (handler : nat) (snapshot : JsVal)
| EHook (node : nodeId) (name : string)
| EDisposed (node : nodeId) (disposer : nat).

Record Node := mkNode {
  type : IType;
  storedValue : Stored;
  _parent : option nodeId;
  subpath : string;
  isProtectionEnabled : bool;
  identifierAttribute : option string;
  _environment : JsVal;
  _isRunningAction : bool;
  _isAlive : bool;
  _isDetaching : bool;
  patchSubscribers : list nat;
  snapshotSubscribers : list nat;
  disposers : list nat;
  (* [addReadOnlyProp(this, "snapshot", ...)] of finalizeDeath *)
  lastSnapshot : option JsVal
}.

Record Store := mkStore {
  nodes : gmap nat Node;
  nextNodeId : nat;
  events : list Event
}.

(** ** Results of fallible calls

    [Fail] is a thrown exception ([fail(...)] of utils, or a TypeError of the
    runtime); it carries the store as the throw leaves it, since nothing is
    rolled back.  [OutOfFuel] only arises in the embedding: a recursion
    bound ran out, or the call left what the embedding covers; nothing is
    stated of such a call. *)

Inductive Result (A : Type) : Type :=
| Ok (a : A)
| Fail (message : string) (h : Store)
| OutOfFuel.

Arguments Ok {A} a.
Arguments Fail {A} message h.
Arguments OutOfFuel {A}.

#[export] Instance Result_ret : MRet Result := fun _ a => Ok a.
#[export] Instance Result_bind : MBind Result := fun _ _ f r =>
  match r with
  | Ok a => f a
  | Fail m h => Fail m h
  | OutOfFuel => OutOfFuel
  end.

Definition isOk {A} (r : Result A) : bool :=
  match r with Ok _ => true | _ => false end.

Definition isFail {A} (r : Result A) : bool :=
  match r with Fail _ _ => true | _ => false end.

Definition emit (e : Event) (h : Store) : Store :=
  mkStore (nodes h) (nextNodeId h) (events h ++ [e]).

Definition getNode (h : Store) (n : nodeId) : Result Node :=
  match nodes h !! n with
  | Some nd => Ok nd
  | None => Fail "TypeError: not an object" h
  end.

Definition setNode (n : nodeId) (nd : Node) (h : Store) : Store :=
  mkStore (<[n := nd]> (nodes h)) (nextNodeId h) (events h).

(** Field updates, one per assigned field of the sources. *)
Definition set_parent (p : option nodeId) (nd : Node) : Node :=
  mkNode (type nd) (storedValue nd) p (subpath nd) (isProtectionEnabled nd)
    (identifierAttribute nd) (_environment nd) (_isRunningAction nd)
    (_isAlive nd) (_isDetaching nd) (patchSubscribers nd)
    (snapshotSubscribers nd) (disposers nd) (lastSnapshot nd).

Definition set_subpath (s : string) (nd : Node) : Node :=
  mkNode (type nd) (storedValue nd) (_parent nd) s (isProtectionEnabled nd)
    (identifierAttribute nd) (_environment nd) (_isRunningAction nd)
    (_isAlive nd) (_isDetaching nd) (patchSubscribers nd)
    (snapshotSubscribers nd) (disposers nd) (lastSnapshot nd).

Definition set_storedValue (v : Stored) (nd : Node) : Node :=
  mkNode (type nd) v (_parent nd) (subpath nd) (isProtectionEnabled nd)
    (identifierAttribute nd) (_environment nd) (_isRunningAction nd)
    (_isAlive nd) (_isDetaching nd) (patchSubscribers nd)
    (snapshotSubscribers nd) (disposers nd) (lastSnapshot nd).

Definition set_isProtectionEnabled (b : bool) (nd : Node) : Node :=
  mkNode (type nd) (storedValue nd) (_parent nd) (subpath nd) b
    (identifierAttribute nd) (_environment nd) (_isRunningAction nd)
    (_isAlive nd) (_isDetaching nd) (patchSubscribers nd)
    (snapshotSubscribers nd) (disposers nd) (lastSnapshot nd).

Definition set_environment (e : JsVal) (nd : Node) : Node :=
  mkNode (type nd) (storedValue nd) (_parent nd) (subpath nd)
    (isProtectionEnabled nd) (identifierAttribute nd) e (_isRunningAction nd)
    (_isAlive nd) (_isDetaching nd) (patchSubscribers nd)
    (snapshotSubscribers nd) (disposers nd) (lastSnapshot nd).

Definition set_isRunningAction (b : bool) (nd : Node) : Node :=
  mkNode (type nd) (storedValue nd) (_parent nd) (subpath nd)
    (isProtectionEnabled nd) (identifierAttribute nd) (_environment nd) b
    (_isAlive nd) (_isDetaching nd) (patchSubscribers nd)
    (snapshotSubscribers nd) (disposers nd) (lastSnapshot nd).

Definition set_isAlive (b : bool) (nd : Node) : Node :=
  mkNode (type nd) (storedValue nd) (_parent nd) (subpath nd)
    (isProtectionEnabled nd) (identifierAttribute nd) (_environment nd)
    (_isRunningAction nd) b (_isDetaching nd) (patchSubscribers nd)
    (snapshotSubscribers nd) (disposers nd) (lastSnapshot nd).

Definition set_isDetaching (b : bool) (nd : Node) : Node :=
  mkNode (type nd) (storedValue nd) (_parent nd) (subpath nd)
    (isProtectionEnabled nd) (identifierAttribute nd) (_environment nd)
    (_isRunningAction nd) (_isAlive nd) b (patchSubscribers nd)
    (snapshotSubscribers nd) (disposers nd) (lastSnapshot nd).

Definition set_subscribers (p s d : list nat) (nd : Node) : Node :=
  mkNode (type nd) (storedValue nd) (_parent nd) (subpath nd)
    (isProtectionEnabled nd) (identifierAttribute nd) (_environment nd)
    (_isRunningAction nd) (_isAlive nd) (_isDetaching nd) p s d
    (lastSnapshot nd).

Definition set_lastSnapshot (s : option JsVal) (nd : Node) : Node :=
  mkNode (type nd) (storedValue nd) (_parent nd) (subpath nd)
    (isProtectionEnabled nd) (identifierAttribute nd) (_environment nd)
    (_isRunningAction nd) (_isAlive nd) (_isDetaching nd) (patchSubscribers nd)
    (snapshotSubscribers nd) (disposers nd) s.

(** [update n f h]: assign to fields of node [n]. *)
Definition update (n : nodeId) (f : Node -> Node) (h : Store) : Result Store :=
  nd ← getNode h n; Ok (setNode n (f nd) h).

(** ** The parent chain *)

Definition msg_dead : string :=
  "cannot be used anymore as it has died".
Definition msg_protected : string :=
  "the object is protected and can only be modified by using an action".
Definition msg_no_node : string := "element has no Node".
Definition msg_depth : string := "Invalid depth, should be >= 1".
Definition msg_no_parent : string := "Failed to find the parent".

Definition isStateTreeNode (v : JsVal) : bool :=
  match v with VNode _ => true | _ => false end.

Definition getStateTreeNode (h : Store) (v : JsVal) : Result nodeId :=
  match v with VNode n => Ok n | _ => Fail msg_no_node h end.

(** [get parent()] *)
Definition get_parent (h : Store) (n : nodeId) : Result (option nodeId) :=
  nd ← getNode h n; Ok (_parent nd).

(** [get isRoot()] *)
Definition isRoot (h : Store) (n : nodeId) : Result bool :=
  p ← get_parent h n; Ok (bool_decide (p = None)).

(** [get root()]: [while ((p = r.parent)) r = p]. *)
Fixpoint root (fuel : nat) (h : Store) (r : nodeId) : Result nodeId :=
  match fuel with
  | O => OutOfFuel
  | S fuel' =>
      p ← get_parent h r;
      match p with
      | Some p => root fuel' h p
      | None => Ok r
      end
  end.

(** [isRunningAction()] *)
Fixpoint isRunningAction (fuel : nat) (h : Store) (n : nodeId) : Result bool :=
  match fuel with
  | O => OutOfFuel
  | S fuel' =>
      nd ← getNode h n;
      if _isRunningAction nd then Ok true
      else match _parent nd with
           | None => Ok false
           | Some p => isRunningAction fuel' h p
           end
  end.

(** [get isProtected()] *)
Definition isProtected (fuel : nat) (h : Store) (n : nodeId) : Result bool :=
  r ← root fuel h n; nd ← getNode h r; Ok (isProtectionEnabled nd).

(** [assertAlive()] *)
Definition assertAlive (h : Store) (n : nodeId) : Result unit :=
  nd ← getNode h n;
  if _isAlive nd then Ok tt else Fail msg_dead h.

(** [assertWritable()] *)
Definition assertWritable (fuel : nat) (h : Store) (n : nodeId) : Result unit :=
  assertAlive h n;;
  running ← isRunningAction fuel h n;
  if (running : bool) then Ok tt
  else
    protected ← isProtected fuel h n;
    if (protected : bool) then Fail msg_protected h else Ok tt.

(** ** Tree operations: [hasParent], [getParent] *)

(** The [while (parent)] loop of [hasParent]; [depth] is the counter before
    the pre-decrement. *)
Fixpoint hasParent_loop (fuel : nat) (h : Store) (parent : option nodeId)
    (depth : Z) : Result bool :=
  match parent with
  | None => Ok false
  | Some p =>
      match fuel with
      | O => OutOfFuel
      | S fuel' =>
          let depth := depth - 1 in
          if depth =? 0 then Ok true
          else
            p' ← get_parent h p;
            hasParent_loop fuel' h p' depth
      end
  end.

Definition hasParent (fuel : nat) (h : Store) (target : JsVal) (depth : Z)
    : Result bool :=
  if depth <? 0 then Fail msg_depth h
  else
    n ← getStateTreeNode h target;
    p ← get_parent h n;
    hasParent_loop fuel h p depth.

(** The loop of [getParent]; it returns [parent.storedValue], here the node
    that owns it. *)
Fixpoint getParent_loop (fuel : nat) (h : Store) (parent : option nodeId)
    (d : Z) : Result nodeId :=
  match parent with
  | None => Fail msg_no_parent h
  | Some p =>
      match fuel with
      | O => OutOfFuel
      | S fuel' =>
          let d := d - 1 in
          if d =? 0 then Ok p
          else
            p' ← get_parent h p;
            getParent_loop fuel' h p' d
      end
  end.

Definition getParent (fuel : nat) (h : Store) (target : JsVal) (depth : Z)
    : Result nodeId :=
  if depth <? 0 then Fail msg_depth h
  else
    n ← getStateTreeNode h target;
    p ← get_parent h n;
    getParent_loop fuel h p depth.

(** [ancestors h n l]: following [_parent] from [n] visits exactly the nodes
    of [l], nearest first, and ends at a root. *)
Inductive ancestors (h : Store) : nodeId -> list nodeId -> Prop :=
| ancestors_root n nd :
    nodes h !! n = Some nd -> _parent nd = None -> ancestors h n []
| ancestors_step n nd p l :
    nodes h !! n = Some nd -> _parent nd = Some p -> ancestors h p l ->
    ancestors h n (p :: l).

(** ** Strings: numbers as keys, JSON paths *)

(** ['' + n] for an integer [n]. *)
Definition natToString (n : nat) : string :=
  NilEmpty.string_of_uint (Nat.to_uint n).

Definition numToString (z : Z) : string :=
  if z <? 0 then "-" ++ natToString (Z.abs_nat z)
  else natToString (Z.to_nat z).

Definition digitOf (c : ascii) : option nat :=
  let n := nat_of_ascii c in
  if ((48 <=? n) && (n <=? 57))%nat then Some (n - 48)%nat else None.

(** The longest prefix of decimal digits; [None] when there is none. *)
Fixpoint parseDigits (s : string) (acc : option nat) : option nat :=
  match s with
  | EmptyString => acc
  | String c s' =>
      match digitOf c with
      | Some d => parseDigits s' (Some (10 * default 0%nat acc + d)%nat)
      | None => acc
      end
  end.

Definition isWhitespace (c : ascii) : bool :=
  let n := nat_of_ascii c in
  ((n =? 32) || ((9 <=? n) && (n <=? 13)))%nat.

Fixpoint trimStart (s : string) : string :=
  match s with
  | String c s' => if isWhitespace c then trimStart s' else s
  | EmptyString => s
  end.

(** [parseInt(key, 10)]; [None] is NaN. *)
Definition parseInt (s : string) : option Z :=
  match trimStart s with
  | String "-" s' => (fun n => - Z.of_nat n) <$> parseDigits s' None
  | String "+" s' => Z.of_nat <$> parseDigits s' None
  | s' => Z.of_nat <$> parseDigits s' None
  end.

(** [s.substr(k)] *)
Fixpoint substr (k : nat) (s : string) : string :=
  match k, s with
  | O, _ => s
  | S k', String _ s' => substr k' s'
  | S _, EmptyString => EmptyString
  end.

(** Modelled from the spec: [escapeJsonPath] of [core/json-patch.ts], which is
    not among the sources: a segment is escaped with [~1] for "/" and [~0]
    for "~". *)
Fixpoint escapeJsonPath (s : string) : string :=
  match s with
  | EmptyString => EmptyString
  | String c s' =>
      if Ascii.eqb c "~" then "~0" ++ escapeJsonPath s'
      else if Ascii.eqb c "/" then "~1" ++ escapeJsonPath s'
      else String c (escapeJsonPath s')
  end.

(** [get path()] *)
Fixpoint path_of (fuel : nat) (h : Store) (n : nodeId) : Result string :=
  match fuel with
  | O => OutOfFuel
  | S fuel' =>
      nd ← getNode h n;
      match _parent nd with
      | None => Ok ""
      | Some p =>
          pp ← path_of fuel' h p;
          Ok (pp ++ "/" ++ escapeJsonPath (subpath nd))
      end
  end.

(** ** Plain JavaScript objects used as dictionaries

    Property order matters for [for ... in]: integer-like keys come first, in
    ascending order, then the other keys in insertion order. *)

Definition JsObject (V : Type) : Type := list (string * V).

(** Modelled from the language: the names an object literal inherits from
    [Object.prototype].  Read on a dictionary that has no key of that name of
    its own, each gives a function or an object of the language, a value
    that is truthy and is neither a string, a number nor a node.  The
    built-in objects are not part of the store: a write that reaches one of
    them leaves the dictionaries of the call as they are, and what it does
    to the built-in is not modelled. *)
Definition inheritedKeys : list string :=
  ["constructor"; "__defineGetter__"; "__defineSetter__"; "hasOwnProperty";
   "__lookupGetter__"; "__lookupSetter__"; "isPrototypeOf";
   "propertyIsEnumerable"; "toString"; "valueOf"; "__proto__";
   "toLocaleString"].

Definition isInheritedKey (k : string) : bool :=
  existsb (String.eqb k) inheritedKeys.

Fixpoint objGet {V} (o : JsObject V) (k : string) : option V :=
  match o with
  | [] => None
  | (k', v) :: o' => if String.eqb k' k then Some v else objGet o' k
  end.

Fixpoint objSet {V} (o : JsObject V) (k : string) (v : V) : JsObject V :=
  match o with
  | [] => [(k, v)]
  | (k', v') :: o' =>
      if String.eqb k' k then (k', v) :: o' else (k', v') :: objSet o' k v
  end.

(** A key that is the canonical decimal form of an array index. *)
Definition arrayIndex (k : string) : option nat :=
  match parseDigits k None with
  | Some n =>
      if String.eqb (natToString n) k && (Z.of_nat n <? 4294967295)
      then Some n else None
  | None => None
  end.

Fixpoint insertByIndex {V} (n : nat) (kv : string * V)
    (l : list (nat * (string * V))) : list (nat * (string * V)) :=
  match l with
  | [] => [(n, kv)]
  | (m, kv') :: l' =>
      if (n <? m)%nat then (n, kv) :: l
      else (m, kv') :: insertByIndex n kv l'
  end.

(** The entries in [for ... in] order. *)
Definition objEntries {V} (o : JsObject V) : list (string * V) :=
  let ints :=
    fold_left (fun acc kv =>
                 match arrayIndex (fst kv) with
                 | Some n => insertByIndex n kv acc
                 | None => acc
                 end) o [] in
  map snd ints ++
  filter (fun kv => bool_decide (arrayIndex (fst kv) = None)) o.

(** ** Helpers for loops *)

Fixpoint mapResult {A B} (f : A -> Result B) (l : list A) : Result (list B) :=
  match l with
  | [] => Ok []
  | a :: l' => b ← f a; bs ← mapResult f l'; Ok (b :: bs)
  end.

Fixpoint foldResult {A S} (f : S -> A -> Result S) (s : S) (l : list A)
    : Result S :=
  match l with
  | [] => Ok s
  | a :: l' => s' ← f s a; foldResult f s' l'
  end.

(** ** Values of nodes *)

Definition storedIsStateTreeNode (s : Stored) : bool :=
  match s with
  | SPlain _ treenode => treenode
  | SArray _ _ | SObject _ => true
  end.

Definition storedIsObject (s : Stored) : bool :=
  match s with
  | SPlain (VArr _ | VObj _ | VFrozen _ | VNode _) _ => true
  | SPlain _ _ => false
  | SArray _ _ | SObject _ => true
  end.

(** Modelled from the spec: [isMutable] of utils, which is not among the
    sources, tells the composite (non-scalar) values from the scalars: every
    non-null object is one, frozen or not. *)
Definition isMutable (v : JsVal) : bool :=
  match v with
  | VArr _ | VObj _ | VFrozen _ | VNode _ => true
  | _ => false
  end.

(** Modelled from the spec: [freeze] of utils, which is not among the
    sources, freezes a composite and returns it. *)
Definition freeze (v : JsVal) : JsVal :=
  match v with
  | VArr _ | VObj _ => VFrozen v
  | _ => v
  end.

(** Modelled from the spec: [deepFreeze] of utils, which is not among the
    sources, freezes the value and everything below it. *)
Fixpoint deepFreeze (v : JsVal) : JsVal :=
  match v with
  | VArr items => VFrozen (VArr (map deepFreeze items))
  | VObj fields =>
      VFrozen (VObj (map (fun kv => (fst kv, deepFreeze (snd kv))) fields))
  | _ => v
  end.

(** ** Descriptor methods reached through [node.type] *)

(** [ArrayType.getChildren(node)] is [node.storedValue.peek()]. *)
Definition ArrayType_getChildren (h : Store) (nd : Node)
    : Result (list nodeId) :=
  match storedValue nd with
  | SArray items _ => Ok items
  | _ => Fail "TypeError: peek is not a function" h
  end.

(** Modelled from the spec: the base class [Type] that the other descriptors
    extend is not among the sources; a descriptor without children of its own
    returns the empty list. *)
Definition Type_getChildren (h : Store) (nd : Node) : Result (list nodeId) :=
  Ok [].

(** [this.type.getChildren(this)] *)
Definition type_getChildren (h : Store) (nd : Node) : Result (list nodeId) :=
  match type nd with
  | ArrayType _ => ArrayType_getChildren h nd
  | _ => Type_getChildren h nd
  end.

(** [getChildren()] *)
Definition getChildren (h : Store) (n : nodeId) : Result (list nodeId) :=
  assertAlive h n;;
  nd ← getNode h n;
  type_getChildren h nd.

Definition msg_not_a_child : string := "Not a child".

(** [ArrayType.getChildNode(node, key)]; [None] is [undefined], read from
    the array at an index it does not have. *)
Definition ArrayType_getChildNode (h : Store) (nd : Node) (key : string)
    : Result (option nodeId) :=
  match storedValue nd with
  | SArray items _ =>
      match parseInt key with
      | Some index =>
          if index <? Z.of_nat (length items)
          then Ok (if index <? 0 then None else items !! Z.to_nat index)
          else Fail msg_not_a_child h
      | None => Fail msg_not_a_child h
      end
  | _ => Fail "TypeError: storedValue is not an array" h
  end.

(** Modelled from the spec: the base class [Type] is not among the sources;
    a descriptor without children fails for every key. *)
Definition Type_getChildNode (h : Store) (nd : Node) (key : string)
    : Result (option nodeId) :=
  Fail msg_not_a_child h.

(** [this.type.getChildNode(this, subpath)] *)
Definition type_getChildNode (h : Store) (nd : Node) (key : string)
    : Result (option nodeId) :=
  match type nd with
  | ArrayType _ => ArrayType_getChildNode h nd key
  | _ => Type_getChildNode h nd key
  end.

(** [getChildNode(subpath)] *)
Definition getChildNode (h : Store) (n : nodeId) (key : string)
    : Result (option nodeId) :=
  assertAlive h n;;
  nd ← getNode h n;
  type_getChildNode h nd key.

(** Modelled from the spec: the base classes of the descriptors other than
    [ArrayType] are not among the sources; their snapshot is the stored
    value, for a model the record of its fields. *)
Definition Type_getSnapshot (h : Store) (nd : Node) : Result JsVal :=
  match storedValue nd with
  | SPlain v _ => Ok v
  | SObject fields => Ok (VObj fields)
  | SArray _ _ => Fail "TypeError: unexpected array" h
  end.

(** [get snapshot()]: the stored last snapshot once [finalizeDeath] replaced
    the property, [undefined] for a node that is not alive, and otherwise
    [freeze(this.type.getSnapshot(this))], where [ArrayType.getSnapshot] is
    [node.getChildren().map(childNode => childNode.snapshot)]. *)
Fixpoint snapshot (fuel : nat) (h : Store) (n : nodeId) : Result JsVal :=
  match fuel with
  | O => OutOfFuel
  | S fuel' =>
      nd ← getNode h n;
      match lastSnapshot nd with
      | Some s => Ok s
      | None =>
          if negb (_isAlive nd) then Ok VUndefined
          else
            v ← match type nd with
                | ArrayType _ =>
                    children ← getChildren h n;
                    snaps ← mapResult (snapshot fuel' h) children;
                    Ok (VArr snaps)
                | _ => Type_getSnapshot h nd
                end;
            Ok (freeze v)
      end
  end.

(** [get value()]; every [getValue] returns [node.storedValue], which for a
    value that carries [$treenode] is the live value of this node. *)
Definition value_of (h : Store) (n : nodeId) : Result JsVal :=
  nd ← getNode h n;
  if negb (_isAlive nd) then Ok VUndefined
  else
    Ok (match storedValue nd with
        | SPlain v false => v
        | _ => VNode n
        end).

(** ** Events *)

Definition emitAll (es : list Event) (h : Store) : Store :=
  mkStore (nodes h) (nextNodeId h) (events h ++ es).

(** [emitPatch(patch, source)] *)
Fixpoint emitPatch (fuel : nat) (h : Store) (n : nodeId) (patch : IJsonPatch)
    (source : nodeId) : Result Store :=
  match fuel with
  | O => OutOfFuel
  | S fuel' =>
      nd ← getNode h n;
      h1 ← match patchSubscribers nd with
           | [] => Ok h
           | subscribers =>
               sourcePath ← path_of fuel h source;
               thisPath ← path_of fuel h n;
               let localizedPatch :=
                 mkPatch (op patch)
                   (substr (String.length thisPath) sourcePath ++ "/" ++
                    path patch)
                   (value patch) in
               Ok (emitAll (map (fun f => EPatch f localizedPatch) subscribers)
                     h)
           end;
      match _parent nd with
      | Some p => emitPatch fuel' h1 p patch source
      | None => Ok h1
      end
  end.

(** [emitSnapshot(snapshot)] *)
Definition emitSnapshot (h : Store) (n : nodeId) (s : JsVal) : Result Store :=
  nd ← getNode h n;
  Ok (emitAll (map (fun f => ESnapshot f s) (snapshotSubscribers nd)) h).

(** [fireHook(name)]: the hook is looked up on a stored value that is an
    object; the trace records the dispatch. *)
Definition fireHook (h : Store) (n : nodeId) (name : string) : Result Store :=
  nd ← getNode h n;
  if storedIsObject (storedValue nd) then Ok (emit (EHook n name) h)
  else Ok h.

(** ** Death *)

(** [walk(thing, processor)], on the node of [thing]. *)
Fixpoint walk (fuel : nat) (processor : Store -> nodeId -> Result Store)
    (h : Store) (n : nodeId) : Result Store :=
  match fuel with
  | O => OutOfFuel
  | S fuel' =>
      children ← getChildren h n;
      h1 ← foldResult
             (fun h child =>
                cd ← getNode h child;
                if storedIsStateTreeNode (storedValue cd)
                then walk fuel' processor h child
                else Ok h)
             h children;
      processor h1 n
  end.

(** [aboutToDie()] *)
Definition aboutToDie (h : Store) (n : nodeId) : Result Store :=
  nd ← getNode h n;
  let fs := disposers nd in
  let h1 :=
    setNode n (set_subscribers (patchSubscribers nd) (snapshotSubscribers nd)
                 [] nd) h in
  fireHook (emitAll (map (EDisposed n) fs) h1) n "beforeDestroy".

(** [finalizeDeath()].  The identifier cache is not among the sources; its
    [notifyDied] does not touch the fields of a node and is left out, and so
    is the path that only feeds the message of the tainted [$mobx]
    property. *)
Definition finalizeDeath (fuel : nat) (h : Store) (n : nodeId)
    : Result Store :=
  s ← snapshot fuel h n;
  nd ← getNode h n;
  let h1 :=
    setNode n
      (set_subpath ""
         (set_parent None
            (set_isAlive false
               (set_subscribers [] [] (disposers nd)
                  (set_lastSnapshot (Some s) nd))))) h in
  if storedIsObject (storedValue nd) then Ok h1
  else Fail "TypeError: Object.defineProperty called on non-object" h1.

(** [die()] *)
Definition die (fuel : nat) (h : Store) (n : nodeId) : Result Store :=
  nd ← getNode h n;
  if _isDetaching nd then Ok h
  else if storedIsStateTreeNode (storedValue nd) then
    h1 ← walk fuel aboutToDie h n;
    walk fuel (finalizeDeath fuel) h1 n
  else Ok h.

(** ** Parents *)

Definition msg_twice : string :=
  "A node cannot exists twice in the state tree".
Definition msg_contains_itself : string :=
  "A state tree is not allowed to contain itself".
Definition msg_environment : string :=
  "A state tree that has been initialized with an environment cannot be made part of another state tree".
Definition msg_already_part : string :=
  "Cannot add an object to a state tree if it is already part of the same or another state tree".

(** JavaScript truthiness. *)
Definition truthy (v : JsVal) : bool :=
  match v with
  | VUndefined | VNull => false
  | VBool b => b
  | VNum z => negb (z =? 0)
  | VStr s => negb (String.eqb s "")
  | _ => true
  end.

Definition truthyStr (s : option string) : bool :=
  match s with
  | Some s => negb (String.eqb s "")
  | None => false
  end.

(** [setParent(newParent, subpath = null)].  The identifier cache is not
    among the sources; its [mergeCache] is left out. *)
Definition setParent (fuel : nat) (h : Store) (n : nodeId)
    (newParent : option nodeId) (subpath' : option string) : Result Store :=
  nd ← getNode h n;
  if bool_decide (_parent nd = newParent) &&
     bool_decide (Some (subpath nd) = subpath')
  then Ok h
  else
    (match _parent nd, newParent with
     | Some p, Some np =>
         if bool_decide (np <> p) then Fail msg_twice h else Ok tt
     | _, _ => Ok tt
     end);;
    (match _parent nd, newParent with
     | None, Some np =>
         r ← root fuel h np;
         if bool_decide (r = n) then Fail msg_contains_itself h else Ok tt
     | _, _ => Ok tt
     end);;
    (if bool_decide (_parent nd = None) && truthy (_environment nd)
     then Fail msg_environment h else Ok tt);;
    match _parent nd, newParent with
    | Some _, None => die fuel h n
    | _, _ =>
        let h1 := setNode n (set_subpath (default "" subpath') nd) h in
        match newParent with
        | Some np =>
            if bool_decide (Some np <> _parent nd) then
              h2 ← update n (set_parent (Some np)) h1;
              fireHook h2 n "afterAttach"
            else Ok h1
        | None => Ok h1
        end
    end.

(** [addDisposer(disposer)] *)
Definition addDisposer (h : Store) (n : nodeId) (disposer : nat)
    : Result Store :=
  nd ← getNode h n;
  Ok (setNode n
        (set_subscribers (patchSubscribers nd) (snapshotSubscribers nd)
           (disposer :: disposers nd) nd) h).

(** [onPatch(onPatch)] and [onSnapshot(onChange)]: [registerEventHandler]
    pushes the handler. *)
Definition onPatch (h : Store) (n : nodeId) (handler : nat) : Result Store :=
  nd ← getNode h n;
  Ok (setNode n
        (set_subscribers (patchSubscribers nd ++ [handler])
           (snapshotSubscribers nd) (disposers nd) nd) h).

Definition onSnapshot (h : Store) (n : nodeId) (handler : nat)
    : Result Store :=
  nd ← getNode h n;
  Ok (setNode n
        (set_subscribers (patchSubscribers nd)
           (snapshotSubscribers nd ++ [handler]) (disposers nd) nd) h).

(** [pseudoAction(fn)]: no [finally], a throw of [fn] leaves the flag set. *)
Definition pseudoAction (h : Store) (n : nodeId)
    (fn : Store -> Result Store) : Result Store :=
  nd ← getNode h n;
  let inAction := _isRunningAction nd in
  h1 ← update n (set_isRunningAction true) h;
  h2 ← fn h1;
  update n (set_isRunningAction inAction) h2.

(** ** Creating nodes *)

(** [canAttachNode(value)] *)
Definition canAttachNode (v : JsVal) : bool :=
  match v with
  | VArr _ | VObj _ => true
  | _ => false
  end.

(** The fields of [new Node(type, parent, subpath, environment,
    storedValue)]; the only disposer is the snapshot reaction, number 0. *)
Definition newNode (t : IType) (parent : option nodeId) (subpath : string)
    (environment : JsVal) (storedValue : Stored) : Node :=
  mkNode t storedValue parent subpath true None environment false true false
    [] [] [0%nat] None.

(** [createNode(type, parent, subpath, environment, initialValue,
    createNewInstance, finalizeNewInstance)].  The [finally] block marks the
    node dead when anything after its allocation throws. *)
Definition createNode (fuel : nat) (t : IType) (h : Store)
    (parent : option nodeId) (subpath : string) (environment : JsVal)
    (initialValue : JsVal)
    (createNewInstance : JsVal -> Stored)
    (finalizeNewInstance : Store -> nodeId -> JsVal -> Result Store)
    : Result (nodeId * Store) :=
  match initialValue with
  | VNode targetNode =>
      isroot ← isRoot h targetNode;
      if (isroot : bool) then
        h1 ← setParent fuel h targetNode parent (Some subpath);
        Ok (targetNode, h1)
      else Fail msg_already_part h
  | _ =>
      let instance := createNewInstance initialValue in
      let node := S (nextNodeId h) in
      let h1 :=
        mkStore (<[node := newNode t parent subpath environment instance]>
                   (nodes h)) node (events h) in
      let body :=
        h2 ← pseudoAction h1 node
               (fun h => finalizeNewInstance h node initialValue);
        h3 ← fireHook h2 node "afterCreate";
        h4 ← (if bool_decide (parent <> None)
              then fireHook h3 node "afterAttach" else Ok h3);
        Ok (node, h4) in
      match body with
      | Fail m hf =>
          match update node (set_isAlive false) hf with
          | Ok hf' => Fail m hf'
          | _ => Fail m hf
          end
      | r => r
      end
  end.

(** ** Array reconciliation *)

(** What [reconcileArrayChildren] uses of its [childType] argument. *)
Record ChildType := mkChildType {
  instantiate :
    Store -> option nodeId -> string -> JsVal -> JsVal ->
    Result (nodeId * Store);
  reconcile : Store -> nodeId -> JsVal -> Result (nodeId * Store)
}.

(** The string a value turns into when it is used as a property key.
    Identifier values are strings or numbers; composites do not occur. *)
Definition toPropertyKey (v : JsVal) : string :=
  match v with
  | VUndefined => "undefined"
  | VNull => "null"
  | VBool true => "true"
  | VBool false => "false"
  | VNum z => numToString z
  | VStr s => s
  | _ => "[object Object]"
  end.

(** [value[key]] for a plain composite. *)
Definition getProp (v : JsVal) (key : string) : JsVal :=
  match v with
  | VObj fields | VFrozen (VObj fields) => default VUndefined (objGet fields key)
  | VArr items | VFrozen (VArr items) =>
      match arrayIndex key with
      | Some i => default VUndefined (items !! i)
      | None =>
          if String.eqb key "length" then VNum (Z.of_nat (length items))
          else VUndefined
      end
  | _ => VUndefined
  end.

(** [get identifier()] *)
Definition identifier (nd : Node) : JsVal :=
  match identifierAttribute nd with
  | Some attr =>
      if negb (String.eqb attr "") then
        match storedValue nd with
        | SObject fields => default VUndefined (objGet fields attr)
        | SPlain v _ => getProp v attr
        | SArray _ _ => VUndefined
        end
      else VNull
  | None => VNull
  end.

Definition isStringOrNumber (v : JsVal) : bool :=
  match v with
  | VStr _ | VNum _ => true
  | _ => false
  end.

(** What [oldNodesByIdentifier[attr][id]] gives when it is truthy: an old
    node; for an [id] that names no key of the bucket but one of
    [inheritedKeys], what every object inherits under that name; and, in a
    bucket whose prototype an old node has become (see [indexOldNode]), what
    that node has under the name, which is not modelled. *)
Inductive Candidate : Type :=
| OldNode (n : nodeId)
| Inherited
| InheritedFromNode.

(** [findReconcilationCandidates(snapshot)], with the dictionary it closes
    over as an argument.  An [attr] the snapshot has no property for reads as
    [undefined] or as an inherited function, neither a string nor a
    number. *)
Definition findReconcilationCandidates
    (oldNodesByIdentifier : JsObject (JsObject nodeId)) (snapshot : JsVal)
    : option Candidate :=
  let fix loop (entries : list (string * JsObject nodeId))
      : option Candidate :=
    match entries with
    | [] => None
    | (attr, bucket) :: rest =>
        let id := getProp snapshot attr in
        if isStringOrNumber id then
          match objGet bucket (toPropertyKey id) with
          | Some candidate => Some (OldNode candidate)
          | None =>
              if isInheritedKey (toPropertyKey id) then Some Inherited
              else if bool_decide (objGet bucket "__proto__" = None)
                   then loop rest
                   else Some InheritedFromNode
          end
        else loop rest
    end in
  loop (objEntries oldNodesByIdentifier).

Definition msg_not_a_node : string :=
  "TypeError: the reconcilation candidate is not a node".

(** The body of [oldNodes.forEach] that fills the two dictionaries.  For an
    identifier attribute of [inheritedKeys], [oldNodesByIdentifier[attr]] is
    the inherited built-in, which is truthy: no bucket is made and the write
    goes to the built-in.  In a bucket the key [__proto__] holds the
    prototype: assigning to it makes the old node the prototype of the
    bucket, and reading it gives that node back. *)
Definition indexOldNode (h : Store)
    (acc : JsObject (JsObject nodeId) * JsObject (option nodeId))
    (oldNode : nodeId)
    : Result (JsObject (JsObject nodeId) * JsObject (option nodeId)) :=
  nd ← getNode h oldNode;
  let '(oldNodesByIdentifier, nodesToBeKilled) := acc in
  let oldNodesByIdentifier :=
    match identifierAttribute nd with
    | Some attr =>
        if negb (String.eqb attr "") && negb (isInheritedKey attr) then
          let bucket := default [] (objGet oldNodesByIdentifier attr) in
          objSet oldNodesByIdentifier attr
            (objSet bucket (toPropertyKey (identifier nd)) oldNode)
        else oldNodesByIdentifier
    | None => oldNodesByIdentifier
    end in
  Ok (oldNodesByIdentifier,
      objSet nodesToBeKilled (natToString oldNode) (Some oldNode)).

Definition isClaimable (nodesToBeKilled : JsObject (option nodeId))
    (n : nodeId) : bool :=
  match objGet nodesToBeKilled (natToString n) with
  | Some (Some _) => true
  | _ => false
  end.

(** The state of the [newValues.forEach] loop. *)
Record ReconcileState := mkReconcileState {
  res : list nodeId;
  nodesToBeKilled : JsObject (option nodeId);
  store : Store
}.

Section Reconcile.

Variable fuel : nat.
Variable childType : ChildType.
Variable parent : nodeId.

(** The body of [newValues.forEach], for [newValue] at its sub path.  A
    candidate that is no node is handed to [childType.reconcile], which
    throws a TypeError on it. *)
Definition reconcileValue
    (oldNodesByIdentifier : JsObject (JsObject nodeId))
    (st : ReconcileState) (newValue : JsVal) (subPath : string)
    : Result ReconcileState :=
  let h := store st in
  match newValue with
  | VNode childNode =>
      assertAlive h childNode;;
      p ← get_parent h childNode;
      if bool_decide (p = Some parent) then
        if isClaimable (nodesToBeKilled st) childNode then
          let ntk :=
            objSet (nodesToBeKilled st) (natToString childNode) None in
          h1 ← setParent fuel h childNode (Some parent) (Some subPath);
          Ok (mkReconcileState (res st ++ [childNode]) ntk h1)
        else Fail msg_already_part h
      else
        '(n, h1) ← instantiate childType h (Some parent) subPath VUndefined
                     newValue;
        Ok (mkReconcileState (res st ++ [n]) (nodesToBeKilled st) h1)
  | _ =>
      if isMutable newValue then
        match findReconcilationCandidates oldNodesByIdentifier newValue with
        | Some Inherited => Fail msg_not_a_node h
        | Some InheritedFromNode => OutOfFuel
        | Some (OldNode reconcilationCandidate) =>
            '(childNode, h1) ← reconcile childType h reconcilationCandidate
                                 newValue;
            let ntk :=
              objSet (nodesToBeKilled st)
                (natToString reconcilationCandidate) None in
            h2 ← setParent fuel h1 childNode (Some parent) (Some subPath);
            Ok (mkReconcileState (res st ++ [childNode]) ntk h2)
        | None =>
            '(n, h1) ← instantiate childType h (Some parent) subPath
                         VUndefined newValue;
            Ok (mkReconcileState (res st ++ [n]) (nodesToBeKilled st) h1)
        end
      else
        '(n, h1) ← instantiate childType h (Some parent) subPath VUndefined
                     newValue;
        Ok (mkReconcileState (res st ++ [n]) (nodesToBeKilled st) h1)
  end.

(** ['' + newPaths[index]] *)
Definition subPathAt (newPaths : list Z) (index : nat) : string :=
  match newPaths !! index with
  | Some z => numToString z
  | None => "undefined"
  end.

Fixpoint reconcileValues
    (oldNodesByIdentifier : JsObject (JsObject nodeId))
    (newPaths : list Z) (index : nat) (newValues : list JsVal)
    (st : ReconcileState) : Result ReconcileState :=
  match newValues with
  | [] => Ok st
  | newValue :: rest =>
      st1 ← reconcileValue oldNodesByIdentifier st newValue
              (subPathAt newPaths index);
      reconcileValues oldNodesByIdentifier newPaths (S index) rest st1
  end.

(** The nodes the last loop calls [die()] on, in [for ... in] order. *)
Definition nonReconciled (nodesToBeKilled : JsObject (option nodeId))
    : list nodeId :=
  omap snd (objEntries nodesToBeKilled).

(** [reconcileArrayChildren(parent, childType, oldNodes, newValues,
    newPaths)] *)
Definition reconcileArrayChildren (h : Store) (oldNodes : list nodeId)
    (newValues : list JsVal) (newPaths : list Z)
    : Result (list nodeId * Store) :=
  '(oldNodesByIdentifier, ntk) ← foldResult (indexOldNode h) ([], [])
                                   oldNodes;
  st ← reconcileValues oldNodesByIdentifier newPaths 0 newValues
         (mkReconcileState [] ntk h);
  h1 ← foldResult (die fuel) (store st) (nonReconciled (nodesToBeKilled st));
  Ok (res st, h1).

End Reconcile.

(** ** Validation *)

#[export] Instance IType_eq_dec : EqDecision IType.
Proof. solve_decision. Defined.

(** Modelled from the spec: [types/type-checker.ts] and the [validate] of the
    base class [Type] are not among the sources.  A live node is valid for a
    descriptor when it was created by that descriptor; other values go to
    [isValidSnapshot], which for [ArrayType] (in the sources) wants an array
    whose items are valid for the sub type, for [Frozen] (in the sources)
    accepts every serializable value, for a primitive descriptor wants a value
    of the named primitive kind, and for a model wants a keyed record. *)
Fixpoint validate (h : Store) (t : IType) (v : JsVal) : bool :=
  match v with
  | VNode n =>
      match nodes h !! n with
      | Some nd => bool_decide (type nd = t)
      | None => false
      end
  | _ =>
      match t with
      | ArrayType subType =>
          match v with
          | VArr items | VFrozen (VArr items) =>
              forallb (validate h subType) items
          | _ => false
          end
      | Frozen => true
      | CoreType name =>
          match v with
          | VStr _ => String.eqb name "string"
          | VNum _ => String.eqb name "number"
          | VBool _ => String.eqb name "boolean"
          | _ => false
          end
      | ObjectType _ _ =>
          match v with
          | VObj _ | VFrozen (VObj _) => true
          | _ => false
          end
      end
  end.

Definition msg_typecheck : string :=
  "Error while converting value: snapshot is not assignable to type".

(** Modelled from the spec: [typecheck(type, value)] of the type checker
    throws when the value does not validate. *)
Definition typecheck (h : Store) (t : IType) (v : JsVal) : Result unit :=
  if validate h t v then Ok tt else Fail msg_typecheck h.

(** ** The array descriptor *)

(** The change an observable array hands to its interceptor. *)
Inductive WillChange : Type :=
| WillUpdate (index : nat) (newValue : JsVal)
| WillSplice (index removedCount : nat) (added : list JsVal).

(** The change an observable array hands to its listener. *)
Inductive DidChange : Type :=
| DidUpdate (index : nat)
| DidSplice (index removedCount addedCount : nat).

(** [a === b]; a plain composite handed in by a caller is a different object
    from every stored one. *)
Definition strictEq (a b : JsVal) : bool :=
  match a, b with
  | VUndefined, VUndefined | VNull, VNull => true
  | VBool x, VBool y => Bool.eqb x y
  | VNum x, VNum y => x =? y
  | VStr x, VStr y => String.eqb x y
  | VNode x, VNode y => (x =? y)%nat
  | _, _ => false
  end.

Definition arrayItems (h : Store) (n : nodeId) : Result (list nodeId) :=
  nd ← getNode h n;
  match storedValue nd with
  | SArray items _ => Ok items
  | _ => Fail "TypeError: storedValue is not an array" h
  end.

Section ArrayType.

Variable fuel : nat.
(** [this.subType] and what reconciliation uses of it. *)
Variable subType : IType.
Variable childType : ChildType.

(** The [for] loop of [willChange] that updates the paths of the items
    behind the splice: [childNodes[i]] for [i] from [first] on. *)
Fixpoint repathRemaining (h : Store) (node : nodeId) (i : Z)
    (shift : Z) (remaining : list nodeId) : Result Store :=
  match remaining with
  | [] => Ok h
  | child :: rest =>
      h1 ← setParent fuel h child (Some node)
             (Some (numToString (i + shift)));
      repathRemaining h1 node (i + 1) shift rest
  end.

(** [willChange(change)]; [None] is the [null] that cancels the change. *)
Definition willChange (h : Store) (node : nodeId) (change : WillChange)
    : Result (option WillChange * list nodeId * Store) :=
  assertWritable fuel h node;;
  childNodes ← getChildren h node;
  match change with
  | WillUpdate index newValue =>
      oldValue ← match childNodes !! index with
                 | Some old => value_of h old
                 | None => Ok VUndefined
                 end;
      if strictEq newValue oldValue then Ok (None, [], h)
      else
        match childNodes !! index with
        | Some old =>
            '(res, h1) ← reconcileArrayChildren fuel childType node h [old]
                           [newValue] [Z.of_nat index];
            Ok (Some change, res, h1)
        | None => Fail "TypeError: cannot read property of undefined" h
        end
  | WillSplice index removedCount added =>
      '(res, h1) ← reconcileArrayChildren fuel childType node h
                     (take removedCount (drop index childNodes)) added
                     (imap (fun i _ => Z.of_nat index + Z.of_nat i) added);
      h2 ← repathRemaining h1 node (Z.of_nat (index + removedCount))
             (Z.of_nat (length added) - Z.of_nat removedCount)
             (drop (index + removedCount) childNodes);
      Ok (Some change, res, h2)
  end.

(** The snapshot of [node.getChildNode(key)]. *)
Definition childSnapshot (h : Store) (node : nodeId) (key : string)
    : Result JsVal :=
  c ← getChildNode h node key;
  match c with
  | Some c => snapshot fuel h c
  | None => Fail "TypeError: cannot read property snapshot of undefined" h
  end.

(** [for (let i = index + removedCount - 1; i >= index; i--)] *)
Fixpoint emitRemoves (h : Store) (node : nodeId) (count : nat) (i : Z)
    : Result Store :=
  match count with
  | O => Ok h
  | S count' =>
      h1 ← emitPatch fuel h node (mkPatch OpRemove (numToString i) None)
             node;
      emitRemoves h1 node count' (i - 1)
  end.

(** [for (let i = 0; i < addedCount; i++)] *)
Fixpoint emitAdds (h : Store) (node : nodeId) (index : Z) (count : nat)
    (i : Z) : Result Store :=
  match count with
  | O => Ok h
  | S count' =>
      v ← childSnapshot h node (numToString (index + i));
      h1 ← emitPatch fuel h node
             (mkPatch OpAdd (numToString (index + i)) (Some v)) node;
      emitAdds h1 node index count' (i + 1)
  end.

(** [didChange(change)] *)
Definition didChange (h : Store) (node : nodeId) (change : DidChange)
    : Result Store :=
  match change with
  | DidUpdate index =>
      v ← childSnapshot h node (natToString index);
      emitPatch fuel h node
        (mkPatch OpReplace (natToString index) (Some v)) node
  | DidSplice index removedCount addedCount =>
      h1 ← emitRemoves h node removedCount
             (Z.of_nat index + Z.of_nat removedCount - 1);
      emitAdds h1 node (Z.of_nat index) addedCount 0
  end.

End ArrayType.

(** ** The observable array

    The reactive library is outside the repository.  What the sources rely
    on: [spliceWithArray] clamps its arguments, hands the change to the
    interceptor ([willChange], registered by [finalizeNewInstance]), stores
    what the interceptor returns and then calls the listener ([didChange],
    once [observe] registered it) unless nothing was removed or added; an
    assignment to an index in range hands an update to the interceptor and
    notifies the listener when the stored item changed. *)

Definition clampIndex (len : nat) (index : Z) : nat :=
  if index >? Z.of_nat len then len
  else if index <? 0 then Z.to_nat (Z.max 0 (Z.of_nat len + index))
  else Z.to_nat index.

Definition clampCount (len index : nat) (deleteCount : Z) : nat :=
  Z.to_nat (Z.max 0 (Z.min deleteCount (Z.of_nat len - Z.of_nat index))).

Definition setItems (items : list nodeId) (nd : Node) : Node :=
  match storedValue nd with
  | SArray _ observed => set_storedValue (SArray items observed) nd
  | _ => nd
  end.

Definition isObserved (nd : Node) : bool :=
  match storedValue nd with
  | SArray _ observed => observed
  | _ => false
  end.

Section ObservableArray.

Variable fuel : nat.
Variable childType : ChildType.

(** [array.splice(index, deleteCount, ...newItems)] *)
Definition spliceWithArray (h : Store) (node : nodeId) (index : Z)
    (deleteCount : Z) (newItems : list JsVal) : Result Store :=
  values ← arrayItems h node;
  let index := clampIndex (length values) index in
  let deleteCount := clampCount (length values) index deleteCount in
  '(_, added, h1) ← willChange fuel childType h node
                      (WillSplice index deleteCount newItems);
  values ← arrayItems h1 node;
  h2 ← update node
         (setItems (take index values ++ added ++
                    drop (index + deleteCount) values)) h1;
  nd ← getNode h2 node;
  if (bool_decide (deleteCount <> O) || bool_decide (added <> []))
     && isObserved nd
  then didChange fuel h2 node (DidSplice index deleteCount (length added))
  else Ok h2.

(** [array.replace(newItems)] *)
Definition replace (h : Store) (node : nodeId) (newItems : list JsVal)
    : Result Store :=
  values ← arrayItems h node;
  spliceWithArray h node 0 (Z.of_nat (length values)) newItems.

(** [array[index] = newValue] *)
Definition setIndex (h : Store) (node : nodeId) (index : nat)
    (newValue : JsVal) : Result Store :=
  values ← arrayItems h node;
  if (index <? length values)%nat then
    '(change, res, h1) ← willChange fuel childType h node
                           (WillUpdate index newValue);
    match change, res with
    | Some _, newNode :: _ =>
        values ← arrayItems h1 node;
        if bool_decide (values !! index = Some newNode) then Ok h1
        else
          h2 ← update node (setItems (<[index := newNode]> values)) h1;
          nd ← getNode h2 node;
          if isObserved nd then didChange fuel h2 node (DidUpdate index)
          else Ok h2
    | _, _ => Ok h1
    end
  else if (index =? length values)%nat then
    spliceWithArray h node (Z.of_nat index) 0 [newValue]
  else Fail "[mobx.array] Index out of bounds" h.

(** [observe(instance, this.didChange)] *)
Definition observe (h : Store) (node : nodeId) : Result Store :=
  nd ← getNode h node;
  match storedValue nd with
  | SArray items _ => Ok (setNode node (set_storedValue (SArray items true) nd) h)
  | _ => Fail "TypeError: storedValue is not an array" h
  end.

Variable subType : IType.

(** [ArrayType.applySnapshot(node, snapshot)] *)
Definition ArrayType_applySnapshot (h : Store) (node : nodeId)
    (snapshot : JsVal) : Result Store :=
  typecheck h (ArrayType subType) snapshot;;
  pseudoAction h node
    (fun h =>
       match snapshot with
       | VArr items | VFrozen (VArr items) => replace h node items
       | _ => Fail "TypeError: snapshot is not an array" h
       end).

(** [ArrayType.finalizeNewInstance(node, snapshot)] *)
Definition ArrayType_finalizeNewInstance (h : Store) (node : nodeId)
    (snapshot : JsVal) : Result Store :=
  h1 ← ArrayType_applySnapshot h node snapshot;
  observe h1 node.

(** [ArrayType.removeChild(node, subpath)]; with a sub path that does not
    parse, every bound of the splice is NaN and nothing is removed. *)
Definition ArrayType_removeChild (h : Store) (node : nodeId)
    (subpath : string) : Result Store :=
  match parseInt subpath with
  | Some index => spliceWithArray h node index 1 []
  | None =>
      assertWritable fuel h node;;
      getChildren h node;;
      Ok h
  end.

End ObservableArray.

(** ** Descriptors of children

    [instantiate] of a descriptor and the methods reached through
    [node.type] call each other through the tree; [depth] bounds the
    nesting. *)

Definition msg_immutable : string :=
  "Immutable types do not support applying snapshots".

Definition nodeType (h : Store) (n : nodeId) : Result IType :=
  nd ← getNode h n; Ok (type nd).

(** Modelled from the spec: the model descriptor is not among the sources.
    An object node keeps its fields as plain data; applying a snapshot type
    checks it and then, as a pseudo action, assigns the fields one by one,
    each assignment that changes a field passing the mutation gate and
    emitting one [replace] patch for that field. *)
Definition ObjectType_assign (fuel : nat) (node : nodeId) (h : Store)
    (kv : string * JsVal) : Result Store :=
  nd ← getNode h node;
  match storedValue nd with
  | SObject fields =>
      if strictEq (default VUndefined (objGet fields (fst kv))) (snd kv)
      then Ok h
      else
        assertWritable fuel h node;;
        let h1 :=
          setNode node
            (set_storedValue (SObject (objSet fields (fst kv) (snd kv))) nd)
            h in
        emitPatch fuel h1 node (mkPatch OpReplace (fst kv) (Some (snd kv)))
          node
  | _ => Fail "TypeError: storedValue is not a model instance" h
  end.

(** Modelled from the spec: [applySnapshot] of a model, see
    [ObjectType_assign]. *)
Definition ObjectType_applySnapshot (fuel : nat) (t : IType) (h : Store)
    (node : nodeId) (snapshot : JsVal) : Result Store :=
  typecheck h t snapshot;;
  pseudoAction h node
    (fun h =>
       match snapshot with
       | VObj fields | VFrozen (VObj fields) =>
           foldResult (ObjectType_assign fuel node) h fields
       | _ => Fail "TypeError: snapshot is not an object" h
       end).

(** Modelled from the spec: model initialization sets the identifier
    attribute the descriptor declares and applies the initial snapshot. *)
Definition ObjectType_finalizeNewInstance (fuel : nat) (t : IType)
    (identifierAttr : option string) (h : Store) (node : nodeId)
    (snapshot : JsVal) : Result Store :=
  nd ← getNode h node;
  let h1 :=
    setNode node
      (mkNode (type nd) (storedValue nd) (_parent nd) (subpath nd)
         (isProtectionEnabled nd) identifierAttr (_environment nd)
         (_isRunningAction nd) (_isAlive nd) (_isDetaching nd)
         (patchSubscribers nd) (snapshotSubscribers nd) (disposers nd)
         (lastSnapshot nd)) h in
  ObjectType_applySnapshot fuel t h1 node snapshot.

Definition outOfFuel : ChildType :=
  mkChildType (fun _ _ _ _ _ => OutOfFuel) (fun _ _ _ => OutOfFuel).

(** Modelled from the spec: the base class [Type] is not among the sources;
    a descriptor whose value is kept as it is type checks the snapshot and
    then refuses it. *)
Definition Type_applySnapshot (h : Store) (t : IType) (snapshot : JsVal)
    : Result Store :=
  typecheck h t snapshot;; Fail msg_immutable h.

(** [node.applySnapshot(snapshot)] is [this.type.applySnapshot(this,
    snapshot)], given the descriptors of children. *)
Definition applySnapshotWith (fuel : nat) (childTypeOf : IType -> ChildType)
    (h : Store) (node : nodeId) (snapshot : JsVal) : Result Store :=
  t ← nodeType h node;
  match t with
  | ArrayType subType =>
      ArrayType_applySnapshot fuel (childTypeOf subType) subType h node
        snapshot
  | ObjectType _ _ => ObjectType_applySnapshot fuel t h node snapshot
  | _ => Type_applySnapshot h t snapshot
  end.

(** [identity] as [createNewInstance]: the value is stored as it is, and
    [canAttachNode] tells whether it gets [$treenode]. *)
Definition identityInstance (v : JsVal) : Stored := SPlain v (canAttachNode v).

(** [noop] as [finalizeNewInstance] *)
Definition noop (h : Store) (node : nodeId) (initialValue : JsVal)
    : Result Store :=
  Ok h.

(** [ArrayType.instantiate(parent, subpath, environment, snapshot)];
    [createNewInstance] makes an empty observable array. *)
Definition ArrayType_instantiate (fuel : nat) (subType : IType)
    (childType : ChildType) (h : Store) (parent : option nodeId)
    (subpath : string) (environment : JsVal) (snapshot : JsVal)
    : Result (nodeId * Store) :=
  createNode fuel (ArrayType subType) h parent subpath environment snapshot
    (fun _ => SArray [] false)
    (ArrayType_finalizeNewInstance fuel childType subType).

(** [Frozen.instantiate(parent, subpath, environment, value)] *)
Definition Frozen_instantiate (fuel : nat) (h : Store)
    (parent : option nodeId) (subpath : string) (environment : JsVal)
    (value : JsVal) : Result (nodeId * Store) :=
  createNode fuel Frozen h parent subpath environment (deepFreeze value)
    identityInstance noop.

(** Modelled from the spec: the primitive descriptors are not among the
    sources; [instantiate] creates a node around the value as it is. *)
Definition CoreType_instantiate (fuel : nat) (name : string) (h : Store)
    (parent : option nodeId) (subpath : string) (environment : JsVal)
    (value : JsVal) : Result (nodeId * Store) :=
  createNode fuel (CoreType name) h parent subpath environment value
    identityInstance noop.

(** Modelled from the spec: the model descriptor is not among the sources;
    [instantiate] creates a node around an empty record and initializes
    it. *)
Definition ObjectType_instantiate (fuel : nat) (name : string)
    (identifierAttr : option string) (h : Store) (parent : option nodeId)
    (subpath : string) (environment : JsVal) (value : JsVal)
    : Result (nodeId * Store) :=
  createNode fuel (ObjectType name identifierAttr) h parent subpath
    environment value
    (fun _ => SObject [])
    (ObjectType_finalizeNewInstance fuel (ObjectType name identifierAttr)
       identifierAttr).

(** Modelled from the spec: [reconcile(existingNode, newSnapshot)] of the
    base classes, which are not among the sources: the existing node is
    reconciled in place against the new value, that is the new value is
    applied to it as a snapshot, and the same node is returned. *)
Definition reconcileWith (fuel : nat) (childTypeOf : IType -> ChildType)
    (h : Store) (current : nodeId) (newValue : JsVal)
    : Result (nodeId * Store) :=
  h1 ← applySnapshotWith fuel childTypeOf h current newValue;
  Ok (current, h1).

(** What [reconcileArrayChildren] uses of the descriptor [t]. *)
Fixpoint childTypeOf (fuel depth : nat) (t : IType) : ChildType :=
  match depth with
  | O => outOfFuel
  | S depth' =>
      mkChildType
        (fun h parent subpath environment value =>
           match t with
           | ArrayType subType =>
               ArrayType_instantiate fuel subType
                 (childTypeOf fuel depth' subType) h parent subpath
                 environment value
           | Frozen =>
               Frozen_instantiate fuel h parent subpath environment value
           | CoreType name =>
               CoreType_instantiate fuel name h parent subpath environment
                 value
           | ObjectType name identifierAttr =>
               ObjectType_instantiate fuel name identifierAttr h parent
                 subpath environment value
           end)
        (reconcileWith fuel (childTypeOf fuel depth'))
  end.

(** ** Methods of a node that go through its descriptor *)

Section NodeMethods.

Variables fuel depth : nat.

(** Modelled from the spec: [type.create(snapshot, environment)] of the
    base class [Type], which is not among the sources, type checks the
    snapshot and then instantiates a root from it; a snapshot that fails the
    check is a fatal error and nothing is instantiated. *)
Definition create (t : IType) (h : Store) (snapshot : JsVal)
    (environment : JsVal) : Result (nodeId * Store) :=
  typecheck h t snapshot;;
  instantiate (childTypeOf fuel depth t) h None "" environment snapshot.

(** [Node.applySnapshot(snapshot)] *)
Definition Node_applySnapshot (h : Store) (node : nodeId)
    (snapshot : JsVal) : Result Store :=
  applySnapshotWith fuel (childTypeOf fuel depth) h node snapshot.

(** [array.splice(index, deleteCount, ...newItems)] on the live value of
    an array node. *)
Definition splice (h : Store) (node : nodeId) (index deleteCount : Z)
    (newItems : list JsVal) : Result Store :=
  t ← nodeType h node;
  match t with
  | ArrayType subType =>
      spliceWithArray fuel (childTypeOf fuel depth subType) h node index
        deleteCount newItems
  | _ => Fail "TypeError: splice is not a function" h
  end.

(** [array[index] = newValue] on the live value of an array node. *)
Definition assignIndex (h : Store) (node : nodeId) (index : nat)
    (newValue : JsVal) : Result Store :=
  t ← nodeType h node;
  match t with
  | ArrayType subType =>
      setIndex fuel (childTypeOf fuel depth subType) h node index newValue
  | _ => Fail "TypeError: not an array" h
  end.

(** Modelled from the spec: the base class [Type] is not among the sources;
    a descriptor without children has nothing to remove. *)
Definition Type_removeChild (h : Store) (node : nodeId) (subpath : string)
    : Result Store :=
  Fail "No child can be removed" h.

(** [removeChild(subpath)] is [this.type.removeChild(this, subpath)]. *)
Definition removeChild (h : Store) (node : nodeId) (subpath : string)
    : Result Store :=
  t ← nodeType h node;
  match t with
  | ArrayType subType =>
      ArrayType_removeChild fuel (childTypeOf fuel depth subType) h node
        subpath
  | _ => Type_removeChild h node subpath
  end.

(** [detach()].  The identifier cache is not among the sources; its
    [splitCache] is left out. *)
Definition detach (h : Store) (n : nodeId) : Result Store :=
  nd ← getNode h n;
  if negb (_isAlive nd) then
    Fail "Error while detaching, node is not alive." h
  else
    match _parent nd with
    | None => Ok h
    | Some p =>
        h1 ← fireHook h n "beforeDetach";
        r ← root fuel h1 n;
        rd ← getNode h1 r;
        h2 ← update n (set_environment (_environment rd)) h1;
        h3 ← update n (set_isDetaching true) h2;
        nd3 ← getNode h3 n;
        p3 ← match _parent nd3 with
             | Some p => Ok p
             | None => Fail "TypeError: parent is null" h3
             end;
        h4 ← removeChild h3 p3 (subpath nd3);
        h5 ← update n (set_parent None) h4;
        h6 ← update n (set_subpath "") h5;
        update n (set_isDetaching false) h6
    end.


End NodeMethods.

(** [protect(target)] and [unprotect(target)] *)
Definition protect (h : Store) (target : JsVal) : Result Store :=
  node ← getStateTreeNode h target;
  isroot ← isRoot h node;
  if (isroot : bool) then update node (set_isProtectionEnabled true) h
  else Fail "`protect` can only be invoked on root nodes" h.

Definition unprotect (h : Store) (target : JsVal) : Result Store :=
  node ← getStateTreeNode h target;
  isroot ← isRoot h node;
  if (isroot : bool) then update node (set_isProtectionEnabled false) h
  else Fail "`unprotect` can only be invoked on root nodes" h.

(** [getSnapshot(target)] and [isAlive(thing)] *)
Definition getSnapshot (fuel : nat) (h : Store) (target : JsVal)
    : Result JsVal :=
  node ← getStateTreeNode h target;
  snapshot fuel h node.

Definition isAlive (h : Store) (thing : JsVal) : Result bool :=
  node ← getStateTreeNode h thing;
  nd ← getNode h node;
  Ok (_isAlive nd).

(** ** Resolving paths *)

Definition msg_resolve : string :=
  "Could not resolve, path of the patch does not resolve".
Definition msg_null : string := "TypeError: cannot read property of null".

(** [resolvePath(pathParts, failIfResolveFails = true)]; a result [None] is
    [undefined]. *)
Fixpoint resolvePath_loop (fuel : nat) (h : Store) (current : option nodeId)
    (pathParts : list string) (failIfResolveFails : bool)
    : Result (option nodeId) :=
  match pathParts with
  | [] => Ok current
  | part :: rest =>
      let check (current : option nodeId) :=
        match current with
        | Some _ => resolvePath_loop fuel h current rest failIfResolveFails
        | None =>
            if failIfResolveFails then Fail msg_resolve h else Ok None
        end in
      if String.eqb part "" then
        match current with
        | Some c => r ← root fuel h c; check (Some r)
        | None => Fail msg_null h
        end
      else if String.eqb part ".." then
        match current with
        | Some c => p ← get_parent h c; check p
        | None => Fail msg_null h
        end
      else if String.eqb part "." || String.eqb part "" then
        resolvePath_loop fuel h current rest failIfResolveFails
      else
        match current with
        | Some c =>
            child ← getChildNode h c part;
            resolvePath_loop fuel h child rest failIfResolveFails
        | None => check current
        end
  end.

Definition resolvePath (fuel : nat) (h : Store) (n : nodeId)
    (pathParts : list string) (failIfResolveFails : bool)
    : Result (option nodeId) :=
  resolvePath_loop fuel h (Some n) pathParts failIfResolveFails.

(** Modelled from the spec: [splitJsonPath] of [core/json-patch.ts] is not
    among the sources; a path is cut at every "/" and each segment is
    unescaped ([~1] is "/" and [~0] is "~"). *)
Fixpoint unescapeJsonPath (s : string) : string :=
  match s with
  | String "~" (String "1" s') => String "/" (unescapeJsonPath s')
  | String "~" (String "0" s') => String "~" (unescapeJsonPath s')
  | String c s' => String c (unescapeJsonPath s')
  | EmptyString => EmptyString
  end.

Fixpoint splitOnSlash (s : string) (segment : string) : list string :=
  match s with
  | EmptyString => [segment]
  | String c s' =>
      if Ascii.eqb c "/" then segment :: splitOnSlash s' ""
      else splitOnSlash s' (segment ++ String c "")
  end.

Definition splitJsonPath (path : string) : list string :=
  map unescapeJsonPath (splitOnSlash path "").

(** [resolve(path, failIfResolveFails = true)] *)
Definition resolve (fuel : nat) (h : Store) (n : nodeId) (path : string)
    (failIfResolveFails : bool) : Result (option nodeId) :=
  resolvePath fuel h n (splitJsonPath path) failIfResolveFails.

(** [tryResolve(target, path)] *)
Definition tryResolve (fuel : nat) (h : Store) (target : JsVal)
    (path : string) : Result JsVal :=
  n ← getStateTreeNode h target;
  node ← resolve fuel h n path false;
  match node with
  | None => Ok VUndefined
  | Some node => value_of h node
  end.

(** ** Snapshot listeners *)

(** Modelled from the spec: the reactive library is outside the repository.
    Each node registers, as its first disposer, a reaction on its snapshot
    that calls [emitSnapshot]; it runs when the action that changed the
    snapshot is over, for the node that was changed and then for the nodes
    above it, as long as the reaction has not been disposed. *)
Fixpoint runSnapshotReactions (fuel : nat) (h : Store) (n : nodeId)
    : Result Store :=
  match fuel with
  | O => OutOfFuel
  | S fuel' =>
      nd ← getNode h n;
      h1 ← (if bool_decide (0%nat ∈ disposers nd) then
              s ← snapshot fuel h n; emitSnapshot h n s
            else Ok h);
      match _parent nd with
      | Some p => runSnapshotReactions fuel' h1 p
      | None => Ok h1
      end
  end.

(** Modelled from the spec: an observable array reports a change unless a
    splice removed nothing and added nothing, so replacing no items by no
    items leaves the snapshot as it is cached. *)
Definition reportedChange (before after : Store) (n : nodeId) : bool :=
  match nodes before !! n, nodes after !! n with
  | Some b, Some a =>
      match storedValue b, storedValue a with
      | SArray [] _, SArray [] _ => false
      | _, _ => true
      end
  | _, _ => true
  end.

(** [applySnapshot(target, snapshot)] of the tree operations, called outside
    of any action, with the reactions that run when it is over. *)
Definition applySnapshot (fuel depth : nat) (h : Store) (target : JsVal)
    (snapshot : JsVal) : Result Store :=
  node ← getStateTreeNode h target;
  h1 ← Node_applySnapshot fuel depth h node snapshot;
  if reportedChange h h1 node then runSnapshotReactions fuel h1 node
  else Ok h1.

(** ** Sample trees *)

Definition emptyStore : Store := mkStore ∅ 1 [].

Definition storeOf (r : Result (nodeId * Store)) : Store :=
  match r with
  | Ok (_, h) => h
  | _ => emptyStore
  end.

Definition stringArray : IType := ArrayType (CoreType "string").

(** [types.array(types.string).create(["a", "b"])]: the array is node 2,
    its items are nodes 3 and 4. *)
Definition abTree : Store :=
  storeOf (create 8 8 stringArray emptyStore (VArr [VStr "a"; VStr "b"])
             VUndefined).

(** ** Notions used in the statements *)

Definition runningAt (h : Store) (n : nodeId) : bool :=
  match nodes h !! n with
  | Some nd => _isRunningAction nd
  | None => false
  end.

(** An action is running at some node of [path]. *)
Definition runningOnPath (h : Store) (path : list nodeId) : bool :=
  existsb (runningAt h) path.

(** The last node of the path from [n] to its root. *)
Definition rootOfPath (n : nodeId) (l : list nodeId) : nodeId :=
  List.last l n.

(** The record of node [n] in a store that has it. *)
Definition nodeOf (h : Store) (n : nodeId) : Node :=
  match nodes h !! n with
  | Some nd => nd
  | None => newNode Frozen None "" VUndefined (SPlain VUndefined false)
  end.

(** Every snapshot that can be read in [h1] is read unchanged in [h2]. *)
Definition snapshotsKept (h1 h2 : Store) : Prop :=
  forall fuel n s, snapshot fuel h1 n = Ok s -> snapshot fuel h2 n = Ok s.

Definition storeOr (r : Result Store) (h : Store) : Store :=
  match r with
  | Ok h' => h'
  | _ => h
  end.

(** The array ["a", "b"] after [die()] on its node. *)
Definition abTreeDead : Store := storeOr (die 4 abTree 2%nat) abTree.

(** [die] leaves the stored value and the detaching flag of every node as
    they are. *)
Definition valuesKept (h1 h2 : Store) : Prop :=
  forall k nd1, nodes h1 !! k = Some nd1 ->
    exists nd2, nodes h2 !! k = Some nd2 /\
      storedValue nd2 = storedValue nd1 /\
      _isDetaching nd2 = _isDetaching nd1.

(** The patches of a splice at [index] that removed [removedCount] items and
    added items whose snapshots are [added]: one [remove] for each removed
    item from the highest index down, then one [add] for each added item
    from the lowest index up. *)
Definition splicePatches (index removedCount : nat) (added : list JsVal)
    : list IJsonPatch :=
  map (fun i => mkPatch OpRemove (natToString i) None)
      (rev (seq index removedCount)) ++
  imap (fun i v => mkPatch OpAdd (natToString (index + i)) (Some v)) added.

(** What a subscriber registered on the node that emits sees of a patch. *)
Definition localized (p : IJsonPatch) : IJsonPatch :=
  mkPatch (op p) ("/" ++ path p) (value p).

(** The array ["a", "b"] with protection off and patch listener 7 on the
    array node. *)
Definition abListened : Store :=
  storeOr (h1 ← onPatch abTree 2%nat 7%nat; unprotect h1 (VNode 2%nat)) abTree.

(** The array ["a", "b"], protected, with patch listener 7 and snapshot
    listener 8 on the array node. *)
Definition abWatched : Store :=
  storeOr (h1 ← onPatch abTree 2%nat 7%nat; onSnapshot h1 2%nat 8%nat) abTree.

(** ** Claims during reconciliation *)

(** [newValue], met in store [h], claims the old node [c]: it is the live
    value of [c], a child of [parent], or it is a composite that
    [findReconcilationCandidates] matches with [c]. *)
Definition claims (parent : nodeId)
    (oldNodesByIdentifier : JsObject (JsObject nodeId)) (h : Store)
    (newValue : JsVal) (c : nodeId) : Prop :=
  (newValue = VNode c /\ get_parent h c = Ok (Some parent)) \/
  (isStateTreeNode newValue = false /\ isMutable newValue = true /\
   findReconcilationCandidates oldNodesByIdentifier newValue
     = Some (OldNode c)).

(** Some value of the loop over [newValues], started in state [st] at
    [index], claims [c] in the store in which the loop meets it. *)
Inductive claimedDuring (fuel : nat) (childType : ChildType)
    (parent : nodeId) (oldNodesByIdentifier : JsObject (JsObject nodeId))
    (newPaths : list Z)
    : nat -> list JsVal -> ReconcileState -> nodeId -> Prop :=
| claimed_now index newValue rest st c :
    claims parent oldNodesByIdentifier (store st) newValue c ->
    claimedDuring fuel childType parent oldNodesByIdentifier newPaths
      index (newValue :: rest) st c
| claimed_later index newValue rest st st1 c :
    reconcileValue fuel childType parent oldNodesByIdentifier st newValue
      (subPathAt newPaths index) = Ok st1 ->
    claimedDuring fuel childType parent oldNodesByIdentifier newPaths
      (S index) rest st1 c ->
    claimedDuring fuel childType parent oldNodesByIdentifier newPaths
      index (newValue :: rest) st c.

Definition okOr {A} (r : Result A) (d : A) : A :=
  match r with
  | Ok a => a
  | _ => d
  end.

(** No node of the store has an id above the counter. *)
Definition idsBounded (h : Store) : bool :=
  forallb (fun kv => (fst kv <=? nextNodeId h)%nat) (map_to_list (nodes h)).

(** The descriptor of strings as a child type. *)
Definition stringChild : ChildType := childTypeOf 4 4 (CoreType "string").

(** Replacing the items of ["a", "b"] by "c": the call made by
    [willChange] for [splice(0, 2, "c")]. *)
Definition abReplaced : Result (list nodeId * Store) :=
  reconcileArrayChildren 4 stringChild 2 abTree [3; 4]%nat [VStr "c"] [0].





(** Two records taken to the same snapshot. *)
Definition sameForSnapshot (nd1 nd2 : Node) : Prop :=
  type nd1 = type nd2 /\ storedValue nd1 = storedValue nd2 /\
  _isAlive nd1 = _isAlive nd2 /\ lastSnapshot nd1 = lastSnapshot nd2.

(** The keys of a dictionary built with [objSet] are distinct. *)
Definition uniqueKeys {V} (o : JsObject V) : Prop := NoDup (map fst o).




(** What a completed step of the loop over the new values did: it reused
    the live value of a child, reconciled a candidate, or instantiated. *)
Inductive stepped (fuel : nat) (childType : ChildType) (parent : nodeId)
    (oldNodesByIdentifier : JsObject (JsObject nodeId))
    (st : ReconcileState) (newValue : JsVal)
    (subPath : string) (st1 : ReconcileState) : Prop :=
| stepped_reused c h1 :
    newValue = VNode c ->
    get_parent (store st) c = Ok (Some parent) ->
    isClaimable (nodesToBeKilled st) c = true ->
    setParent fuel (store st) c (Some parent) (Some subPath) = Ok h1 ->
    st1 = mkReconcileState (res st ++ [c])
            (objSet (nodesToBeKilled st) (natToString c) None) h1 ->
    stepped fuel childType parent oldNodesByIdentifier st newValue subPath st1
| stepped_reconciled c n h1 h2 :
    isStateTreeNode newValue = false -> isMutable newValue = true ->
    findReconcilationCandidates oldNodesByIdentifier newValue
      = Some (OldNode c) ->
    reconcile childType (store st) c newValue = Ok (n, h1) ->
    setParent fuel h1 n (Some parent) (Some subPath) = Ok h2 ->
    st1 = mkReconcileState (res st ++ [n])
            (objSet (nodesToBeKilled st) (natToString c) None) h2 ->
    stepped fuel childType parent oldNodesByIdentifier st newValue subPath st1
| stepped_instantiated n h1 :
    (forall c, ~ claims parent oldNodesByIdentifier (store st) newValue c) ->
    instantiate childType (store st) (Some parent) subPath VUndefined newValue
      = Ok (n, h1) ->
    st1 = mkReconcileState (res st ++ [n]) (nodesToBeKilled st) h1 ->
    stepped fuel childType parent oldNodesByIdentifier st newValue subPath st1.

(** An array of models that declare [id] as their identifier, created from
    the todos 1 and 2: the array is node 2, its items are nodes 3 and 4. *)
Definition todoArray : IType := ArrayType (ObjectType "Todo" (Some "id")).

Definition todoTree : Store :=
  storeOf (create 8 8 todoArray emptyStore
             (VArr [VObj [("id", VNum 1); ("title", VStr "x")];
                    VObj [("id", VNum 2); ("title", VStr "y")]])
             VUndefined).

Definition todoChild : ChildType :=
  childTypeOf 4 4 (ObjectType "Todo" (Some "id")).



(** The call made by [willChange] when the two todos are replaced by one
    snapshot that carries the identifier 2. *)
Definition todoReplaced : Result (list nodeId * Store) :=
  reconcileArrayChildren 4 todoChild 2 todoTree [3; 4]%nat
    [VObj [("id", VNum 2); ("title", VStr "z")]] [0].






(** The items of the observable array of node [q]. *)
Definition itemsOf (h : Store) (q : nodeId) : list nodeId :=
  match storedValue (nodeOf h q) with
  | SArray items _ => items
  | _ => []
  end.

(** Two snapshots with the identifier 1 take the place of the todos 1 and 2
    of the first array; the todo they were both reconciled with is then
    detached and added to a second array, node 5. *)
Definition todoShared : Result Store :=
  h1 ← unprotect todoTree (VNode 2%nat);
  h2 ← splice 6 6 h1 2%nat 0 2
         [VObj [("id", VNum 1); ("title", VStr "p")];
          VObj [("id", VNum 1); ("title", VStr "q")]];
  h3 ← detach 6 6 h2 3%nat;
  '(q, h4) ← create 6 6 todoArray h3 (VArr []) VUndefined;
  h5 ← unprotect h4 (VNode q);
  splice 6 6 h5 q 0 0 [VNode 3%nat].

(** The first todo is assigned a snapshot that carries its own
    identifier. *)
Definition todoRetitled : Result Store :=
  h1 ← unprotect todoTree (VNode 2%nat);
  assignIndex 6 6 h1 2%nat 0 (VObj [("id", VNum 1); ("title", VStr "z")]).

(** ** Frames *)

(** Every node of the store has an id up to the counter. *)
Definition bounded (h : Store) : Prop :=
  forall k, is_Some (nodes h !! k) -> (k <= nextNodeId h)%nat.




(** ** Further tree operations *)

(** [getRoot(target)]; the stored value it returns is that of the node
    returned here. *)
Definition getRoot (fuel : nat) (h : Store) (target : JsVal)
    : Result nodeId :=
  n ← getStateTreeNode h target;
  root fuel h n.

(** [getPath(target)] *)
Definition getPath (fuel : nat) (h : Store) (target : JsVal)
    : Result string :=
  n ← getStateTreeNode h target;
  path_of fuel h n.

Definition msg_no_environment : string :=
  "is not part of state tree that was initialized with an environment".

(** [getEnv(thing)] *)
Definition getEnv (fuel : nat) (h : Store) (thing : JsVal) : Result JsVal :=
  node ← getStateTreeNode h thing;
  r ← root fuel h node;
  rd ← getNode h r;
  let env := _environment rd in
  if negb (truthy env) then Fail msg_no_environment h else Ok env.

(** [types.array(types.array(types.string)).create([["a"], ["b", "c"]])]:
    the outer array is node 2, the inner arrays are nodes 3 and 5, the
    strings are nodes 4, 6 and 7. *)
Definition nestedTree : Store :=
  storeOf (create 8 8 (ArrayType stringArray) emptyStore
             (VArr [VArr [VStr "a"]; VArr [VStr "b"; VStr "c"]])
             VUndefined).

(** The path of node [n] whose chain of parents is [l]: the escaped sub
    paths from the root down, each after a "/". *)
Fixpoint chainPath (h : Store) (n : nodeId) (l : list nodeId) : string :=
  match l with
  | [] => ""
  | p :: l' =>
      chainPath h p l' ++ "/" ++ escapeJsonPath (subpath (nodeOf h n))
  end.

(** What a subscriber sees of [patch] when the source lies at the relative
    path [rel] below the node it subscribed to. *)
Definition seenFrom (rel : string) (patch : IJsonPatch) : IJsonPatch :=
  mkPatch (op patch) (rel ++ "/" ++ path patch) (value patch).

(** The calls of patch subscribers for a patch that bubbles up from a
    source: [n] is the node reached, [l] its chain of parents and [rel] the
    path from [n] down to the source. *)
Fixpoint bubble (h : Store) (patch : IJsonPatch) (rel : string)
    (n : nodeId) (l : list nodeId) : list Event :=
  map (fun f => EPatch f (seenFrom rel patch))
      (patchSubscribers (nodeOf h n)) ++
  match l with
  | [] => []
  | p :: l' =>
      bubble h patch ("/" ++ escapeJsonPath (subpath (nodeOf h n)) ++ rel)
        p l'
  end.

(** The nested arrays with patch listeners 7 on the outer array and 9 on
    the first inner array. *)
Definition nestedListened : Store :=
  storeOr (h1 ← onPatch nestedTree 2%nat 7%nat; onPatch h1 3%nat 9%nat)
    nestedTree.

(** [types.array(types.string).create(["a"], { api: "x" })]: the array is
    node 2, its item is node 3. *)
Definition envTree : Store :=
  storeOf (create 8 8 stringArray emptyStore (VArr [VStr "a"])
             (VObj [("api", VStr "x")])).

(** ** Arrays in place *)

(** The items of the array node [p] lie below it, each once and each under
    the decimal form of its index. *)
Definition itemsWellPlaced (h : Store) (p : nodeId) (items : list nodeId)
    : Prop :=
  NoDup items /\
  forall i c, items !! i = Some c ->
    exists cd, nodes h !! c = Some cd /\ _parent cd = Some p /\
               subpath cd = natToString i.

(** The stores [h1] and [h2] hold the same record for each node of [ks]. *)
Definition sameAt (ks : list nodeId) (h1 h2 : Store) : Prop :=
  forall k, k ∈ ks -> nodes h2 !! k = nodes h1 !! k.

(** The nested arrays with protection off and patch listener 7 on the outer
    array. *)
Definition nestedOpen : Store :=
  storeOr (h1 ← onPatch nestedTree 2%nat 7%nat; unprotect h1 (VNode 2%nat))
    nestedTree.


(** ** Arrays of primitives *)

(** The descriptors that create a node around the value as it is. *)
Definition isPlainType (t : IType) : bool :=
  match t with
  | Frozen | CoreType _ => true
  | _ => false
  end.

Definition isPrimitive (v : JsVal) : bool :=
  match v with
  | VUndefined | VNull | VBool _ | VNum _ | VStr _ => true
  | _ => false
  end.

(** Node [c] is a live node around the primitive [v]. *)
Definition primitiveItem (h : Store) (c : nodeId) (v : JsVal) : Prop :=
  exists cd,
    nodes h !! c = Some cd /\ storedValue cd = SPlain v false /\
    isPrimitive v = true /\ isPlainType (type cd) = true /\
    _isAlive cd = true /\ lastSnapshot cd = None.

(** The items of the array node [p] are in place and hold the primitives
    [vals]. *)
Definition primitiveArray (h : Store) (p : nodeId) (items : list nodeId)
    (vals : list JsVal) : Prop :=
  itemsWellPlaced h p items /\ Forall2 (primitiveItem h) items vals.

(** The node ids handed out by the next [count] allocations. *)
Definition freshIds (h : Store) (count : nat) : list nodeId :=
  seq (S (nextNodeId h)) count.

(** What [resolvePath] returns when it is told not to fail, given what it
    returns when it is told to. *)
Definition orUndefined (r : Result (option nodeId)) : Result (option nodeId) :=
  match r with
  | Fail m _ => if String.eqb m msg_resolve then Ok None else r
  | _ => r
  end.

(** [clone(source, keepEnvironment = true)]: [true] keeps the environment of
    the root of the source, [false] gives none, any other value is the new
    environment. *)
Definition clone (fuel depth : nat) (h : Store) (source : JsVal)
    (keepEnvironment : JsVal) : Result (nodeId * Store) :=
  node ← getStateTreeNode h source;
  nd ← getNode h node;
  s ← snapshot fuel h node;
  env ← match keepEnvironment with
        | VBool true =>
            r ← root fuel h node; rd ← getNode h r; Ok (_environment rd)
        | VBool false => Ok VUndefined
        | other => Ok other
        end;
  create fuel depth (type nd) h s env.

(** The environment [clone] passes on. *)
Definition clonedEnvironment (keepEnvironment : JsVal) (rootEnvironment : JsVal)
    : JsVal :=
  match keepEnvironment with
  | VBool true => rootEnvironment
  | VBool false => VUndefined
  | other => other
  end.

(** A second tree of nested arrays, [[ ["z"] ]], created beside
    [nestedTree]: its outer array is node 8, protected like every new
    root. *)
Definition twoTrees : Store :=
  storeOf (create 8 8 (ArrayType stringArray) nestedTree
             (VArr [VArr [VStr "z"]]) VUndefined).

(** ** Theorems *)

(** *** Results and the parent chain *)

Lemma bind_Ok {A B} (r : Result A) (f : A -> Result B) (b : B) :
  r ≫= f = Ok b -> exists a, r = Ok a /\ f a = Ok b.
Proof. destruct r; simpl; intros H; try discriminate; eauto. Qed.

Lemma ancestors_lookup h n l :
  ancestors h n l -> exists nd, nodes h !! n = Some nd.
Proof. destruct 1; eauto. Qed.

Lemma parent_lookup h n nd :
  nodes h !! n = Some nd -> get_parent h n = Ok (_parent nd).
Proof. intros H. unfold get_parent, getNode. now rewrite H. Qed.

Lemma hasParent_loop_nonpositive h n l :
  ancestors h n l -> forall fuel nd d,
  nodes h !! n = Some nd -> d <= 0 -> (length l <= fuel)%nat ->
  hasParent_loop fuel h (_parent nd) d = Ok false.
Proof.
  induction 1 as [n nd0 Hn0 Hp0|n nd0 p l Hn0 Hp0 Hanc IH];
    intros fuel nd d Hn Hd Hf;
    assert (nd = nd0) by congruence; subst nd0; rewrite Hp0.
  - now destruct fuel.
  - destruct fuel as [|fuel]; [simpl in Hf; lia|]. simpl.
    destruct (Z.eqb_spec (d - 1) 0) as [E|_]; [lia|].
    destruct (ancestors_lookup _ _ _ Hanc) as [pd Hp].
    rewrite (parent_lookup _ _ _ Hp). simpl.
    apply IH; auto; simpl in Hf; lia.
Qed.

Lemma getParent_loop_nonpositive h n l :
  ancestors h n l -> forall fuel nd d,
  nodes h !! n = Some nd -> d <= 0 -> (length l <= fuel)%nat ->
  getParent_loop fuel h (_parent nd) d = Fail msg_no_parent h.
Proof.
  induction 1 as [n nd0 Hn0 Hp0|n nd0 p l Hn0 Hp0 Hanc IH];
    intros fuel nd d Hn Hd Hf;
    assert (nd = nd0) by congruence; subst nd0; rewrite Hp0.
  - now destruct fuel.
  - destruct fuel as [|fuel]; [simpl in Hf; lia|]. simpl.
    destruct (Z.eqb_spec (d - 1) 0) as [E|_]; [lia|].
    destruct (ancestors_lookup _ _ _ Hanc) as [pd Hp].
    rewrite (parent_lookup _ _ _ Hp). simpl.
    apply IH; auto; simpl in Hf; lia.
Qed.

(** C10.  [hasParent] and [getParent] reject only a depth below zero, with a
    message that asks for a depth of at least 1.  Depth 0 is accepted, and for
    every node, with or without a parent, [hasParent(node, 0)] is [false] and
    [getParent(node, 0)] fails with the not-found error: the counter is
    decremented before it is compared with 0, so it never matches. *)
Theorem depth_zero_finds_no_parent fuel h n l :
  ancestors h n l -> (length l <= fuel)%nat ->
  (forall depth, depth < 0 ->
     hasParent fuel h (VNode n) depth = Fail msg_depth h /\
     getParent fuel h (VNode n) depth = Fail msg_depth h) /\
  hasParent fuel h (VNode n) 0 = Ok false /\
  getParent fuel h (VNode n) 0 = Fail msg_no_parent h.
Proof.
  intros Ha Hf. destruct (ancestors_lookup _ _ _ Ha) as [nd Hn].
  split; [|split].
  - intros depth Hd. unfold hasParent, getParent.
    destruct (Z.ltb_spec depth 0); [auto|lia].
  - unfold hasParent. simpl. rewrite (parent_lookup _ _ _ Hn). simpl.
    apply (hasParent_loop_nonpositive h n l); auto; lia.
  - unfold getParent. simpl. rewrite (parent_lookup _ _ _ Hn). simpl.
    apply (getParent_loop_nonpositive h n l); auto; lia.
Qed.

Lemma depth_zero_finds_no_parent_witness :
  hasParent 4 abTree (VNode 3%nat) 0 = Ok false /\
  getParent 4 abTree (VNode 3%nat) 0 = Fail msg_no_parent abTree.
Proof.
  apply (depth_zero_finds_no_parent 4 abTree 3%nat [2%nat]).
  - eapply ancestors_step; [vm_compute; reflexivity | reflexivity |].
    eapply ancestors_root; [vm_compute; reflexivity | reflexivity].
  - simpl; lia.
Defined.

Lemma last_cons {A} (l : list A) : forall x d,
  List.last (x :: l) d = List.last l x.
Proof.
  induction l as [|y l IH]; intros x d; [reflexivity|].
  change (List.last (y :: l) d = List.last (y :: l) x).
  now rewrite !IH.
Qed.

Lemma root_of_ancestors h n l :
  ancestors h n l -> forall fuel, (length l < fuel)%nat ->
  root fuel h n = Ok (rootOfPath n l).
Proof.
  induction 1 as [n nd Hn Hp|n nd p l Hn Hp Hanc IH]; intros fuel Hf;
    (destruct fuel as [|fuel]; [simpl in Hf; lia|]); simpl;
    rewrite (parent_lookup _ _ _ Hn), Hp; simpl.
  - reflexivity.
  - rewrite IH by (simpl in Hf; lia). f_equal. symmetry.
    exact (last_cons l p n).
Qed.

Lemma isRunningAction_of_ancestors h n l :
  ancestors h n l -> forall fuel, (length l < fuel)%nat ->
  isRunningAction fuel h n = Ok (runningOnPath h (n :: l)).
Proof.
  induction 1 as [n nd Hn Hp|n nd p l Hn Hp Hanc IH]; intros fuel Hf;
    (destruct fuel as [|fuel]; [simpl in Hf; lia|]); simpl;
    unfold getNode, runningAt at 1; rewrite Hn; simpl;
    destruct (_isRunningAction nd); simpl; try reflexivity; rewrite Hp.
  - reflexivity.
  - rewrite IH by (simpl in Hf; lia). reflexivity.
Qed.

Lemma ancestors_root_lookup h n l :
  ancestors h n l -> exists rd, nodes h !! rootOfPath n l = Some rd.
Proof.
  induction 1 as [n nd Hn Hp|n nd p l Hn Hp Hanc IH]; [simpl; eauto|].
  destruct IH as [rd Hr]. exists rd. rewrite <- Hr. f_equal.
  exact (last_cons l p n).
Qed.

(** How [assertWritable] decides, along a known path to the root. *)
Lemma assertWritable_spec h n l fuel nd rd :
  ancestors h n l -> (length l < fuel)%nat ->
  nodes h !! n = Some nd -> nodes h !! rootOfPath n l = Some rd ->
  assertWritable fuel h n =
    if negb (_isAlive nd) then Fail msg_dead h
    else if runningOnPath h (n :: l) then Ok tt
    else if isProtectionEnabled rd then Fail msg_protected h
    else Ok tt.
Proof.
  intros Ha Hf Hn Hr. unfold assertWritable, assertAlive, getNode.
  rewrite Hn. cbn [mbind Result_bind].
  destruct (_isAlive nd); cbn [mbind Result_bind negb]; [|reflexivity].
  rewrite (isRunningAction_of_ancestors _ _ _ Ha) by assumption.
  cbn [mbind Result_bind].
  destruct (runningOnPath h (n :: l)); [reflexivity|].
  unfold isProtected. rewrite (root_of_ancestors _ _ _ Ha) by assumption.
  cbn [mbind Result_bind]. unfold getNode. rewrite Hr. reflexivity.
Qed.

(** *** Updating one node *)

Lemma lookup_setNode h m md k :
  nodes (setNode m md h) !! k =
  if decide (m = k) then Some md else nodes h !! k.
Proof. unfold setNode; simpl. apply lookup_insert. Qed.

Lemma ancestors_setNode h m md md' n l :
  nodes h !! m = Some md -> _parent md' = _parent md ->
  ancestors h n l -> ancestors (setNode m md' h) n l.
Proof.
  intros Hm Hp. induction 1 as [n nd Hn Hpn|n nd p l Hn Hpn Hanc IH].
  - destruct (decide (m = n)) as [->|Hne].
    + apply (ancestors_root _ n md').
      * rewrite lookup_setNode. now rewrite decide_True.
      * congruence.
    + apply (ancestors_root _ n nd); [|assumption].
      rewrite lookup_setNode. now rewrite decide_False.
  - destruct (decide (m = n)) as [->|Hne].
    + apply (ancestors_step _ n md' p l); [| congruence | assumption].
      rewrite lookup_setNode. now rewrite decide_True.
    + apply (ancestors_step _ n nd p l); [| assumption | assumption].
      rewrite lookup_setNode. now rewrite decide_False.
Qed.

Lemma runningOnPath_setNode h m md md' l :
  nodes h !! m = Some md -> _isRunningAction md' = _isRunningAction md ->
  runningOnPath (setNode m md' h) l = runningOnPath h l.
Proof.
  intros Hm Hr. unfold runningOnPath. induction l as [|k l IH]; [reflexivity|].
  simpl. rewrite IH. f_equal. unfold runningAt. rewrite lookup_setNode.
  destruct (decide (m = k)) as [->|]; [now rewrite Hm|reflexivity].
Qed.

Lemma protect_spec h r rd :
  nodes h !! r = Some rd -> _parent rd = None ->
  protect h (VNode r) = Ok (setNode r (set_isProtectionEnabled true rd) h).
Proof.
  intros Hr Hp. unfold protect, isRoot, update. simpl.
  rewrite (parent_lookup _ _ _ Hr), Hp. simpl.
  unfold getNode. now rewrite Hr.
Qed.

Lemma ancestors_root_parent h n l :
  ancestors h n l -> forall rd,
  nodes h !! rootOfPath n l = Some rd -> _parent rd = None.
Proof.
  induction 1 as [n nd Hn Hpn|n nd p l Hn Hpn Hanc IH]; intros rd Hr.
  - simpl in Hr. congruence.
  - apply IH. rewrite <- Hr. f_equal. symmetry. exact (last_cons l p n).
Qed.

(** C7.  [assertWritable] fails exactly when the node is dead, or the root
    of its tree has protection enabled and no action is running on the path
    from the node to the root; in every other case it returns.  Consequently,
    once [protect(root)] has run, every splice of and every assignment into
    the node outside of an action fails at the gate and leaves the store as
    it was, while with an action running on the path, or with protection
    disabled, a live node passes the gate. *)
Theorem assertWritable_fails_iff fuel depth h n l nd rd :
  ancestors h n l -> (length l < fuel)%nat ->
  nodes h !! n = Some nd -> nodes h !! rootOfPath n l = Some rd ->
  (isFail (assertWritable fuel h n) = true <->
     _isAlive nd = false \/
     (isProtectionEnabled rd = true /\ runningOnPath h (n :: l) = false)) /\
  (isFail (assertWritable fuel h n) = false ->
     assertWritable fuel h n = Ok tt) /\
  (_isAlive nd = true ->
     runningOnPath h (n :: l) = true \/ isProtectionEnabled rd = false ->
     assertWritable fuel h n = Ok tt) /\
  (runningOnPath h (n :: l) = false ->
   forall h', protect h (VNode (rootOfPath n l)) = Ok h' ->
     isFail (assertWritable fuel h' n) = true /\
     (forall index deleteCount newItems,
        exists m, splice fuel depth h' n index deleteCount newItems
                  = Fail m h') /\
     (forall index newValue,
        exists m, assignIndex fuel depth h' n index newValue = Fail m h')).
Proof.
  intros Ha Hf Hn Hr.
  rewrite (assertWritable_spec h n l fuel nd rd Ha Hf Hn Hr).
  split; [|split; [|split]].
  - destruct (_isAlive nd), (runningOnPath h (n :: l)),
      (isProtectionEnabled rd); simpl; intuition congruence.
  - destruct (_isAlive nd), (runningOnPath h (n :: l)),
      (isProtectionEnabled rd); simpl; congruence.
  - intros -> [-> | ->]; cbn [negb]; [reflexivity|].
    now destruct (runningOnPath h (n :: l)).
  - intros Hrun h' Hprot.
    pose proof (ancestors_root_parent _ _ _ Ha _ Hr) as Hrp.
    rewrite (protect_spec _ _ _ Hr Hrp) in Hprot. injection Hprot as <-.
    set (rd' := set_isProtectionEnabled true rd).
    assert (Ha' : ancestors (setNode (rootOfPath n l) rd' h) n l)
      by (apply (ancestors_setNode h _ rd); auto).
    assert (Hr' : nodes (setNode (rootOfPath n l) rd' h) !! rootOfPath n l
                  = Some rd')
      by (rewrite lookup_setNode; now rewrite decide_True).
    destruct (ancestors_lookup _ _ _ Ha') as [nd' Hn'].
    assert (Hrun' : runningOnPath (setNode (rootOfPath n l) rd' h) (n :: l)
                    = false)
      by (rewrite (runningOnPath_setNode h _ rd); auto).
    pose proof (assertWritable_spec _ n l fuel nd' rd' Ha' Hf Hn' Hr') as Hw.
    rewrite Hrun' in Hw. change (isProtectionEnabled rd') with true in Hw.
    assert (Hgate : exists m, assertWritable fuel
                      (setNode (rootOfPath n l) rd' h) n
                    = Fail m (setNode (rootOfPath n l) rd' h))
      by (rewrite Hw; destruct (negb (_isAlive nd')); eauto).
    destruct Hgate as [m Hgate].
    split; [now rewrite Hgate|]. split.
    + intros index deleteCount newItems. unfold splice, nodeType, getNode.
      rewrite Hn'. cbn [mbind Result_bind].
      destruct (type nd') eqn:Ht; eauto.
      unfold spliceWithArray, arrayItems, getNode. rewrite Hn'.
      cbn [mbind Result_bind].
      destruct (storedValue nd'); eauto.
      cbn [mbind Result_bind]. unfold willChange. rewrite Hgate.
      cbn [mbind Result_bind]. eauto.
    + intros index newValue. unfold assignIndex, nodeType, getNode.
      rewrite Hn'. cbn [mbind Result_bind].
      destruct (type nd') eqn:Ht; eauto.
      unfold setIndex, arrayItems, getNode. rewrite Hn'.
      cbn [mbind Result_bind].
      destruct (storedValue nd'); eauto.
      cbn [mbind Result_bind].
      destruct (index <? length items)%nat.
      * unfold willChange. rewrite Hgate. cbn [mbind Result_bind]. eauto.
      * destruct (index =? length items)%nat; eauto.
        unfold spliceWithArray, arrayItems, getNode. rewrite Hn'.
        cbn [mbind Result_bind]. 
        destruct (storedValue nd'); eauto.
        cbn [mbind Result_bind]. unfold willChange. rewrite Hgate.
        cbn [mbind Result_bind]. eauto.
Qed.

Lemma assertWritable_fails_iff_witness :
  isFail (assertWritable 4 abTree 3%nat) = true /\
  exists m, splice 4 4 abTree 3%nat 0 0 [VStr "c"] = Fail m abTree.
Proof.
  destruct (assertWritable_fails_iff 4 4 abTree 3%nat [2%nat]
              (nodeOf abTree 3%nat) (nodeOf abTree 2%nat))
    as (_ & _ & _ & H).
  - eapply ancestors_step; [vm_compute; reflexivity | reflexivity |].
    eapply ancestors_root; [vm_compute; reflexivity | reflexivity].
  - simpl; lia.
  - vm_compute; reflexivity.
  - vm_compute; reflexivity.
  - destruct (H ltac:(vm_compute; reflexivity) abTree
                ltac:(vm_compute; reflexivity)) as (Ha & Hb & _).
    split; [exact Ha | apply Hb].
Defined.

(** *** Resolving paths *)

(** C8.  [resolvePath] returns [undefined] with [failIfResolveFails = false]
    only when a parent is missing.  A missing child never reaches that test:
    [getChildNode] throws by itself and the loop continues past the test.  In
    the array ["a", "b"] (node 2 with the items 3 and 4) the path [5] throws
    in both forms and so does [tryResolve]; the path [-1] yields [undefined]
    even in the failing form; [..] at the root and an existing index behave
    as described. *)
Theorem resolvePath_missing_child_throws :
  resolvePath 4 abTree 2%nat ["5"] false = Fail msg_not_a_child abTree /\
  resolvePath 4 abTree 2%nat ["5"] true = Fail msg_not_a_child abTree /\
  tryResolve 4 abTree (VNode 2%nat) "5" = Fail msg_not_a_child abTree /\
  resolvePath 4 abTree 2%nat ["-1"] true = Ok None /\
  resolvePath 4 abTree 2%nat [".."] false = Ok None /\
  resolvePath 4 abTree 2%nat [".."] true = Fail msg_resolve abTree /\
  resolvePath 4 abTree 3%nat [""; "1"; "."] true = Ok (Some 4%nat).
Proof. vm_compute. repeat split; reflexivity. Qed.

(** *** Death *)

Ltac inv_bind H :=
  let a := fresh "a" in
  let Ha := fresh "Ha" in
  apply bind_Ok in H; destruct H as (a & Ha & H).

Lemma getNode_Ok h n nd : getNode h n = Ok nd -> nodes h !! n = Some nd.
Proof. unfold getNode. destruct (nodes h !! n); congruence. Qed.

Lemma getNode_lookup h n nd : nodes h !! n = Some nd -> getNode h n = Ok nd.
Proof. unfold getNode. now intros ->. Qed.

(** The last thing [walk] does is to run the processor on the node itself. *)
Lemma walk_last fuel processor h n h' :
  walk fuel processor h n = Ok h' -> exists hpre, processor hpre n = Ok h'.
Proof.
  destruct fuel as [|fuel]; [discriminate|]. simpl. intros H.
  inv_bind H. inv_bind H. eauto.
Qed.

Lemma walk_dead fuel processor h n nd :
  nodes h !! n = Some nd -> _isAlive nd = false -> fuel <> O ->
  walk fuel processor h n = Fail msg_dead h.
Proof.
  intros Hn Hd Hf. destruct fuel as [|fuel]; [congruence|]. simpl.
  unfold getChildren, assertAlive. rewrite (getNode_lookup _ _ _ Hn).
  cbn [mbind Result_bind]. now rewrite Hd.
Qed.

Lemma finalizeDeath_Ok fuel h n h' :
  finalizeDeath fuel h n = Ok h' ->
  exists nd s,
    nodes h !! n = Some nd /\ snapshot fuel h n = Ok s /\
    h' = setNode n
           (set_subpath ""
              (set_parent None
                 (set_isAlive false
                    (set_subscribers [] [] (disposers nd)
                       (set_lastSnapshot (Some s) nd))))) h.
Proof.
  unfold finalizeDeath. intros H. inv_bind H. inv_bind H.
  apply getNode_Ok in Ha0.
  destruct (storedIsObject (storedValue a0)); [|discriminate].
  injection H as <-. eauto.
Qed.

Lemma assertWritable_dead fuel h n nd :
  nodes h !! n = Some nd -> _isAlive nd = false ->
  assertWritable fuel h n = Fail msg_dead h.
Proof.
  intros Hn Hd. unfold assertWritable, assertAlive.
  rewrite (getNode_lookup _ _ _ Hn). cbn [mbind Result_bind]. now rewrite Hd.
Qed.

Lemma splice_dead fuel depth h n nd index deleteCount newItems :
  nodes h !! n = Some nd -> _isAlive nd = false ->
  exists m, splice fuel depth h n index deleteCount newItems = Fail m h.
Proof.
  intros Hn Hd. unfold splice, nodeType. rewrite (getNode_lookup _ _ _ Hn).
  cbn [mbind Result_bind]. destruct (type nd); eauto.
  unfold spliceWithArray, arrayItems. rewrite (getNode_lookup _ _ _ Hn).
  cbn [mbind Result_bind]. destruct (storedValue nd); eauto.
  cbn [mbind Result_bind]. unfold willChange.
  rewrite (assertWritable_dead _ _ _ _ Hn Hd). cbn [mbind Result_bind]. eauto.
Qed.

Lemma assignIndex_dead fuel depth h n nd index newValue :
  nodes h !! n = Some nd -> _isAlive nd = false ->
  exists m, assignIndex fuel depth h n index newValue = Fail m h.
Proof.
  intros Hn Hd. unfold assignIndex, nodeType.
  rewrite (getNode_lookup _ _ _ Hn).
  cbn [mbind Result_bind]. destruct (type nd); eauto.
  unfold setIndex, arrayItems. rewrite (getNode_lookup _ _ _ Hn).
  cbn [mbind Result_bind]. destruct (storedValue nd); eauto.
  cbn [mbind Result_bind]. destruct (index <? length items)%nat.
  - unfold willChange. rewrite (assertWritable_dead _ _ _ _ Hn Hd).
    cbn [mbind Result_bind]. eauto.
  - destruct (index =? length items)%nat; eauto.
    unfold spliceWithArray, arrayItems. rewrite (getNode_lookup _ _ _ Hn).
    cbn [mbind Result_bind]. destruct (storedValue nd); eauto.
    cbn [mbind Result_bind]. unfold willChange.
    rewrite (assertWritable_dead _ _ _ _ Hn Hd).
    cbn [mbind Result_bind]. eauto.
Qed.

(** *** Snapshots across a death *)

Lemma mapResult_Ok_ext {A B} (f g : A -> Result B) (l : list A) : forall bs,
  (forall a b, a ∈ l -> f a = Ok b -> g a = Ok b) ->
  mapResult f l = Ok bs -> mapResult g l = Ok bs.
Proof.
  induction l as [|a l IH]; intros bs Hfg H; [exact H|].
  simpl in *. inv_bind H. inv_bind H. injection H as <-.
  rewrite (Hfg a a0) by (auto; left). cbn [mbind Result_bind].
  rewrite (IH a1); auto. intros x b Hx. apply Hfg. now right.
Qed.

Lemma snapshot_mono fuel : forall h n s,
  snapshot fuel h n = Ok s ->
  forall fuel', (fuel <= fuel')%nat -> snapshot fuel' h n = Ok s.
Proof.
  induction fuel as [|fuel IH]; intros h n s H fuel' Hle; [discriminate|].
  destruct fuel' as [|fuel']; [lia|]. simpl in *.
  destruct (getNode h n) as [nd| |]; try discriminate.
  cbn [mbind Result_bind] in *.
  destruct (lastSnapshot nd); [exact H|].
  destruct (negb (_isAlive nd)); [exact H|].
  destruct (type nd); try exact H.
  inv_bind H. inv_bind Ha. inv_bind Ha. rewrite Ha0.
  cbn [mbind Result_bind].
  rewrite (mapResult_Ok_ext (snapshot fuel h) (snapshot fuel' h) a0 a1); auto.
  - cbn [mbind Result_bind]. now injection Ha as <-.
  - intros c b _ Hc. apply (IH h c b Hc). lia.
Qed.

Lemma snapshot_unique fuel1 fuel2 h n s1 s2 :
  snapshot fuel1 h n = Ok s1 -> snapshot fuel2 h n = Ok s2 -> s1 = s2.
Proof.
  intros H1 H2.
  pose proof (snapshot_mono _ _ _ _ H1 (fuel1 + fuel2)%nat ltac:(lia)) as E1.
  pose proof (snapshot_mono _ _ _ _ H2 (fuel1 + fuel2)%nat ltac:(lia)) as E2.
  congruence.
Qed.

Lemma snapshotsKept_intro h1 h2 :
  (forall k nd1, nodes h1 !! k = Some nd1 ->
     exists nd2, nodes h2 !! k = Some nd2 /\
       (sameForSnapshot nd1 nd2 \/
        exists sk, lastSnapshot nd2 = Some sk /\
          forall fuel s, snapshot fuel h1 k = Ok s -> s = sk)) ->
  snapshotsKept h1 h2.
Proof.
  intros Hall fuel. induction fuel as [|fuel IH]; intros n s H; [discriminate|].
  pose proof H as Hfull. simpl in H. simpl.
  destruct (getNode h1 n) as [nd1| |] eqn:Hg; try discriminate.
  apply getNode_Ok in Hg. destruct (Hall n nd1 Hg) as (nd2 & Hn2 & Hcase).
  rewrite (getNode_lookup _ _ _ Hn2). cbn [mbind Result_bind] in *.
  destruct Hcase as [(Ht & Hs & Ha & Hl) | (sk & Hl & Hsk)].
  - rewrite <- Hl, <- Ha, <- Ht. unfold Type_getSnapshot in *.
    try rewrite <- Hs.
    destruct (lastSnapshot nd1); [exact H|].
    destruct (negb (_isAlive nd1)) eqn:Hal; [exact H|].
    destruct (type nd1) eqn:Hty;
      try (destruct (storedValue nd1); (exact H || discriminate)).
    inv_bind H. inv_bind Ha0. inv_bind Ha0.
    assert (Hc : getChildren h2 n = Ok a0).
    { revert Ha1. unfold getChildren, assertAlive.
      rewrite (getNode_lookup _ _ _ Hg), (getNode_lookup _ _ _ Hn2).
      cbn [mbind Result_bind]. rewrite <- Ha.
      destruct (_isAlive nd1); [|discriminate]. cbn [mbind Result_bind].
      unfold type_getChildren, ArrayType_getChildren.
      rewrite <- Ht, Hty, <- Hs.
      destruct (storedValue nd1); congruence. }
    rewrite Hc. cbn [mbind Result_bind].
    rewrite (mapResult_Ok_ext (snapshot fuel h1) (snapshot fuel h2) a0 a1);
      auto.
    cbn [mbind Result_bind]. now injection Ha0 as <-.
  - rewrite Hl. f_equal. symmetry. now apply (Hsk (S fuel)).
Qed.

Lemma snapshotsKept_refl h : snapshotsKept h h.
Proof. intros fuel n s H. exact H. Qed.

Lemma snapshotsKept_trans h1 h2 h3 :
  snapshotsKept h1 h2 -> snapshotsKept h2 h3 -> snapshotsKept h1 h3.
Proof. intros H12 H23 fuel n s H. apply H23, H12, H. Qed.

Lemma foldResult_preserves {A} (P : Store -> Store -> Prop)
    (f : Store -> A -> Result Store) (l : list A) :
  (forall h, P h h) -> (forall a b c, P a b -> P b c -> P a c) ->
  (forall h a h', f h a = Ok h' -> P h h') ->
  forall h h', foldResult f h l = Ok h' -> P h h'.
Proof.
  intros Hrefl Htrans Hf. induction l as [|a l IH]; intros h h' H; simpl in H.
  - injection H as <-. apply Hrefl.
  - inv_bind H. eapply Htrans; [eapply Hf; eassumption | now apply IH].
Qed.

Lemma walk_preserves (P : Store -> Store -> Prop)
    (processor : Store -> nodeId -> Result Store) :
  (forall h, P h h) -> (forall a b c, P a b -> P b c -> P a c) ->
  (forall h n h', processor h n = Ok h' -> P h h') ->
  forall fuel h n h', walk fuel processor h n = Ok h' -> P h h'.
Proof.
  intros Hrefl Htrans Hp fuel.
  induction fuel as [|fuel IH]; intros h n h' H; [discriminate|].
  simpl in H. inv_bind H. inv_bind H.
  eapply Htrans; [|eapply Hp; eassumption].
  revert Ha0. apply foldResult_preserves; auto.
  intros h0 c h0' Hc. inv_bind Hc.
  destruct (storedIsStateTreeNode (storedValue a1)).
  - eapply IH; eassumption.
  - injection Hc as <-. apply Hrefl.
Qed.

Lemma fireHook_nodes h n name h' :
  fireHook h n name = Ok h' -> nodes h' = nodes h.
Proof.
  unfold fireHook. intros H. inv_bind H.
  destruct (storedIsObject (storedValue a)); now injection H as <-.
Qed.

Lemma aboutToDie_keeps h n h' :
  aboutToDie h n = Ok h' -> snapshotsKept h h'.
Proof.
  unfold aboutToDie. intros H. inv_bind H. apply getNode_Ok in Ha.
  apply fireHook_nodes in H. simpl in H.
  apply snapshotsKept_intro. intros k nd1 Hk. rewrite H, lookup_insert.
  destruct (decide (n = k)) as [->|Hne].
  - eexists; split; [reflexivity|]. left.
    assert (nd1 = a) by congruence. subst. repeat split.
  - eexists; split; [exact Hk|]. left. repeat split.
Qed.

Lemma finalizeDeath_keeps fuel h n h' :
  finalizeDeath fuel h n = Ok h' -> snapshotsKept h h'.
Proof.
  intros H. destruct (finalizeDeath_Ok _ _ _ _ H) as (nd & s & Hn & Hs & ->).
  apply snapshotsKept_intro. intros k nd1 Hk. rewrite lookup_setNode.
  destruct (decide (n = k)) as [->|Hne].
  - eexists; split; [reflexivity|]. right. exists s. split; [reflexivity|].
    intros fuel' s' Hs'. exact (snapshot_unique _ _ _ _ _ _ Hs' Hs).
  - eexists; split; [exact Hk|]. left. repeat split.
Qed.

Lemma die_keeps fuel h n h' : die fuel h n = Ok h' -> snapshotsKept h h'.
Proof.
  unfold die. intros H. inv_bind H.
  destruct (_isDetaching a); [injection H as <-; apply snapshotsKept_refl|].
  destruct (storedIsStateTreeNode (storedValue a));
    [|injection H as <-; apply snapshotsKept_refl].
  inv_bind H. eapply snapshotsKept_trans.
  - exact (walk_preserves snapshotsKept aboutToDie snapshotsKept_refl
             snapshotsKept_trans aboutToDie_keeps _ _ _ _ Ha0).
  - exact (walk_preserves snapshotsKept (finalizeDeath fuel)
             snapshotsKept_refl snapshotsKept_trans
             (finalizeDeath_keeps fuel) _ _ _ _ H).
Qed.

Lemma snapshot_frozen fuel h n nd s :
  nodes h !! n = Some nd -> lastSnapshot nd = None -> _isAlive nd = true ->
  snapshot fuel h n = Ok s -> exists v, s = freeze v.
Proof.
  intros Hn Hl Ha H. destruct fuel as [|fuel]; [discriminate|].
  simpl in H. rewrite (getNode_lookup _ _ _ Hn) in H.
  cbn [mbind Result_bind] in H. rewrite Hl, Ha in H. cbn [negb] in H.
  inv_bind H. injection H as <-. eauto.
Qed.

Lemma valuesKept_refl h : valuesKept h h.
Proof. intros k nd Hk. eauto. Qed.

Lemma valuesKept_trans h1 h2 h3 :
  valuesKept h1 h2 -> valuesKept h2 h3 -> valuesKept h1 h3.
Proof.
  intros H12 H23 k nd1 Hk. destruct (H12 k nd1 Hk) as (nd2 & Hk2 & Hv & Hd).
  destruct (H23 k nd2 Hk2) as (nd3 & Hk3 & Hv3 & Hd3).
  exists nd3. repeat split; congruence.
Qed.

Lemma aboutToDie_valuesKept h n h' :
  aboutToDie h n = Ok h' -> valuesKept h h'.
Proof.
  unfold aboutToDie. intros H. inv_bind H. apply getNode_Ok in Ha.
  apply fireHook_nodes in H. simpl in H.
  intros k nd1 Hk. rewrite H, lookup_insert.
  destruct (decide (n = k)) as [->|Hne]; [|eauto].
  eexists; split; [reflexivity|]. assert (nd1 = a) by congruence.
  subst. split; reflexivity.
Qed.

Lemma finalizeDeath_valuesKept fuel h n h' :
  finalizeDeath fuel h n = Ok h' -> valuesKept h h'.
Proof.
  intros H. destruct (finalizeDeath_Ok _ _ _ _ H) as (nd & s & Hn & Hs & ->).
  intros k nd1 Hk. rewrite lookup_setNode.
  destruct (decide (n = k)) as [->|Hne]; [|eauto].
  eexists; split; [reflexivity|]. assert (nd1 = nd) by congruence.
  subst. split; reflexivity.
Qed.

(** [walk] is a run over the subtree that preserves [P], followed by the
    processor on the node itself. *)
Lemma walk_split (P : Store -> Store -> Prop)
    (processor : Store -> nodeId -> Result Store) :
  (forall h, P h h) -> (forall a b c, P a b -> P b c -> P a c) ->
  (forall h n h', processor h n = Ok h' -> P h h') ->
  forall fuel h n h', walk fuel processor h n = Ok h' ->
  exists hpre, P h hpre /\ processor hpre n = Ok h'.
Proof.
  intros Hrefl Htrans Hp fuel h n h' H.
  destruct fuel as [|fuel]; [discriminate|]. simpl in H.
  inv_bind H. inv_bind H. exists a0. split; [|exact H].
  revert Ha0. apply foldResult_preserves; auto.
  intros h0 c h0' Hc. inv_bind Hc.
  destruct (storedIsStateTreeNode (storedValue a1)).
  - eapply walk_preserves; eassumption.
  - injection Hc as <-. apply Hrefl.
Qed.

(** What a completed [die] on a tree node value leaves behind. *)
Lemma die_Ok_tree_node fuel h n nd h' :
  nodes h !! n = Some nd -> _isDetaching nd = false ->
  storedIsStateTreeNode (storedValue nd) = true ->
  die fuel h n = Ok h' ->
  exists nd' s,
    nodes h' !! n = Some nd' /\ _isAlive nd' = false /\
    lastSnapshot nd' = Some s /\ storedValue nd' = storedValue nd /\
    _isDetaching nd' = false /\ fuel <> O.
Proof.
  intros Hn Hdet Ht H. unfold die in H.
  rewrite (getNode_lookup _ _ _ Hn) in H. cbn [mbind Result_bind] in H.
  rewrite Hdet, Ht in H. inv_bind H.
  assert (Hf : fuel <> O) by (destruct fuel; [discriminate|lia]).
  pose proof (walk_preserves valuesKept aboutToDie valuesKept_refl
                valuesKept_trans aboutToDie_valuesKept _ _ _ _ Ha) as K1.
  destruct (walk_split valuesKept (finalizeDeath fuel) valuesKept_refl
              valuesKept_trans (finalizeDeath_valuesKept fuel) _ _ _ _ H)
    as (hpre & K2 & Hfin).
  destruct (valuesKept_trans _ _ _ K1 K2 n nd Hn) as (ndp & Hnp & Hv & Hd).
  destruct (finalizeDeath_Ok _ _ _ _ Hfin) as (nd1 & s & Hn1 & Hs & ->).
  assert (nd1 = ndp) by congruence. subst nd1.
  eexists; exists s. rewrite lookup_setNode, decide_True by reflexivity.
  split; [reflexivity|]. simpl. repeat split; congruence.
Qed.

(** C4, as amended.  On a node whose stored value is not a tree node value
    (a primitive or a frozen value) [die()] does nothing and the node stays
    as it is.  On a node whose stored value is a tree node value and that is
    not detaching, once [die()] has completed the node is not alive,
    [getSnapshot] keeps returning one snapshot, which is the snapshot the
    node had before (the result of [freeze] for a node that was alive), and
    the mutation gate, every splice and every assignment fail and leave the
    store as it is. *)
Theorem die_marks_tree_node_dead fuel h n nd :
  nodes h !! n = Some nd ->
  (storedIsStateTreeNode (storedValue nd) = false -> die fuel h n = Ok h) /\
  (storedIsStateTreeNode (storedValue nd) = true ->
   _isDetaching nd = false ->
   forall h', die fuel h n = Ok h' ->
     isAlive h' (VNode n) = Ok false /\
     (exists s,
        (forall fuel', getSnapshot (S fuel') h' (VNode n) = Ok s) /\
        (forall s0, getSnapshot fuel h (VNode n) = Ok s0 ->
           s = s0 /\
           (_isAlive nd = true -> lastSnapshot nd = None ->
            exists v, s = freeze v))) /\
     (forall fuel', assertWritable fuel' h' n = Fail msg_dead h') /\
     (forall fuel' depth index deleteCount newItems,
        exists m, splice fuel' depth h' n index deleteCount newItems
                  = Fail m h') /\
     (forall fuel' depth index newValue,
        exists m, assignIndex fuel' depth h' n index newValue = Fail m h')).
Proof.
  intros Hn. split.
  - intros Ht. unfold die. rewrite (getNode_lookup _ _ _ Hn).
    cbn [mbind Result_bind]. rewrite Ht. now destruct (_isDetaching nd).
  - intros Ht Hdet h' Hdie.
    destruct (die_Ok_tree_node _ _ _ _ _ Hn Hdet Ht Hdie)
      as (nd' & s & Hn' & Hdead & Hlast & _ & _ & Hf).
    assert (Hsnap : forall fuel', snapshot (S fuel') h' n = Ok s).
    { intros fuel'. simpl. rewrite (getNode_lookup _ _ _ Hn').
      cbn [mbind Result_bind]. now rewrite Hlast. }
    split; [|split; [|split; [|split]]].
    + unfold isAlive. simpl. rewrite (getNode_lookup _ _ _ Hn').
      cbn [mbind Result_bind]. now rewrite Hdead.
    + exists s. split; [exact Hsnap|]. intros s0 Hs0. simpl in Hs0.
      pose proof (die_keeps _ _ _ _ Hdie _ _ _ Hs0) as Hkept.
      assert (s = s0) by exact (snapshot_unique _ _ _ _ _ _ (Hsnap O) Hkept).
      subst s0. split; [reflexivity|]. intros Ha Hl.
      exact (snapshot_frozen _ _ _ _ _ Hn Hl Ha Hs0).
    + intros fuel'. exact (assertWritable_dead _ _ _ _ Hn' Hdead).
    + intros. exact (splice_dead _ _ _ _ _ _ _ _ Hn' Hdead).
    + intros. exact (assignIndex_dead _ _ _ _ _ _ _ Hn' Hdead).
Qed.

Lemma die_marks_tree_node_dead_witness :
  isAlive abTreeDead (VNode 2%nat) = Ok false /\
  exists s, forall fuel', getSnapshot (S fuel') abTreeDead (VNode 2%nat) = Ok s.
Proof.
  destruct (die_marks_tree_node_dead 4 abTree 2%nat (nodeOf abTree 2%nat))
    as [_ H]; [vm_compute; reflexivity|].
  destruct (H eq_refl eq_refl abTreeDead ltac:(vm_compute; reflexivity))
    as (Ha & (s & Hs & _) & _).
  split; [exact Ha | exists s; exact Hs].
Defined.

(** C4 as stated fails: [die()] on the node of the string "a" (node 3 of the
    array ["a", "b"]) completes, changes nothing and leaves the node alive
    and writable inside an action. *)
Lemma die_leaves_primitive_node_alive :
  die 4 abTree 3%nat = Ok abTree /\
  _isAlive (nodeOf abTree 3%nat) = true /\
  assertAlive abTree 3%nat = Ok tt.
Proof. vm_compute. repeat split; reflexivity. Qed.

(** C5, as amended.  [die()] does nothing while the node is detaching, and
    nothing on a node whose stored value is not a tree node value.  It is not
    idempotent: on a node with a tree node value that is dead, for one after
    a completed [die()], a further [die()] throws the dead node error from
    the [getChildren] of [walk]; the store is left as it was. *)
Theorem die_again_fails fuel h n nd :
  nodes h !! n = Some nd ->
  (_isDetaching nd = true -> die fuel h n = Ok h) /\
  (storedIsStateTreeNode (storedValue nd) = false -> die fuel h n = Ok h) /\
  (_isDetaching nd = false ->
   storedIsStateTreeNode (storedValue nd) = true ->
   (_isAlive nd = false -> fuel <> O -> die fuel h n = Fail msg_dead h) /\
   (forall h', die fuel h n = Ok h' -> die fuel h' n = Fail msg_dead h')).
Proof.
  intros Hn. split; [|split].
  - intros Hd. unfold die. rewrite (getNode_lookup _ _ _ Hn).
    cbn [mbind Result_bind]. now rewrite Hd.
  - intros Ht. unfold die. rewrite (getNode_lookup _ _ _ Hn).
    cbn [mbind Result_bind]. rewrite Ht. now destruct (_isDetaching nd).
  - intros Hdet Ht.
    assert (Hdead : forall h0 nd0, nodes h0 !! n = Some nd0 ->
              _isDetaching nd0 = false ->
              storedIsStateTreeNode (storedValue nd0) = true ->
              _isAlive nd0 = false -> fuel <> O ->
              die fuel h0 n = Fail msg_dead h0).
    { intros h0 nd0 Hn0 Hd0 Ht0 Ha0 Hf. unfold die.
      rewrite (getNode_lookup _ _ _ Hn0). cbn [mbind Result_bind].
      rewrite Hd0, Ht0. now rewrite (walk_dead _ _ _ _ _ Hn0 Ha0 Hf). }
    split; [now apply Hdead|]. intros h' Hdie.
    destruct (die_Ok_tree_node _ _ _ _ _ Hn Hdet Ht Hdie)
      as (nd' & s & Hn' & Hdead' & _ & Hv & Hd' & Hf).
    apply (Hdead h' nd'); auto. now rewrite Hv.
Qed.

Lemma die_again_fails_witness :
  die 4 abTreeDead 2%nat = Fail msg_dead abTreeDead.
Proof.
  destruct (die_again_fails 4 abTree 2%nat (nodeOf abTree 2%nat))
    as (_ & _ & H); [vm_compute; reflexivity|].
  destruct (H eq_refl eq_refl) as [_ H2].
  apply H2. vm_compute; reflexivity.
Defined.

(** C5 as stated fails: in the array ["a", "b"], a first [die()] on the
    array node completes and a second one throws. *)
Lemma die_twice_throws :
  die 4 abTree 2%nat = Ok abTreeDead /\
  die 4 abTreeDead 2%nat = Fail msg_dead abTreeDead /\
  isFail (die 4 abTreeDead 2%nat) = true.
Proof. vm_compute. repeat split; reflexivity. Qed.

(** *** Numbers as keys *)

Lemma parseDigits_uint d : forall acc,
  parseDigits (NilEmpty.string_of_uint d) (Some acc) =
  Some (Nat.of_uint_acc d acc).
Proof.
  induction d; intros acc; simpl; try reflexivity;
    rewrite IHd; f_equal; f_equal; rewrite Nat.tail_mul_spec; lia.
Qed.

Lemma to_uint_not_Nil n : Nat.to_uint n <> Decimal.Nil.
Proof.
  rewrite <- (DecimalNat.Unsigned.of_to n) at 1.
  rewrite DecimalNat.Unsigned.to_of. unfold Decimal.unorm.
  destruct (Decimal.nzhead (Nat.to_uint n)); discriminate.
Qed.

Lemma parseInt_natToString n : parseInt (natToString n) = Some (Z.of_nat n).
Proof.
  unfold natToString.
  pose proof (to_uint_not_Nil n) as Hnil.
  pose proof (DecimalNat.Unsigned.of_to n) as Hof.
  destruct (Nat.to_uint n) as [|d|d|d|d|d|d|d|d|d|d]; [congruence|..];
    unfold parseInt; simpl NilEmpty.string_of_uint;
    cbn [trimStart isWhitespace]; simpl;
    rewrite parseDigits_uint; simpl; f_equal; f_equal;
    unfold Nat.of_uint in Hof; simpl in Hof; exact Hof.
Qed.

Lemma numToString_of_nat n : numToString (Z.of_nat n) = natToString n.
Proof.
  unfold numToString. destruct (Z.ltb_spec (Z.of_nat n) 0); [lia|].
  now rewrite Nat2Z.id.
Qed.

(** *** Patches of a splice *)

Lemma emitPatch_nodes fuel : forall h n p source h',
  emitPatch fuel h n p source = Ok h' -> nodes h' = nodes h.
Proof.
  induction fuel as [|fuel IH]; intros h n p source h' H; [discriminate|].
  simpl in H. inv_bind H. inv_bind H.
  assert (Ha1 : nodes a0 = nodes h).
  { destruct (patchSubscribers a); [now injection Ha0 as <-|].
    inv_bind Ha0. inv_bind Ha0. now injection Ha0 as <-. }
  destruct (_parent a).
  - rewrite (IH _ _ _ _ _ H). exact Ha1.
  - now injection H as <-.
Qed.

Lemma snapshot_nodes h1 h2 :
  nodes h1 = nodes h2 -> snapshotsKept h1 h2.
Proof.
  intros E. apply snapshotsKept_intro. intros k nd Hk. exists nd.
  split; [now rewrite <- E|]. left. repeat split.
Qed.

Lemma emitRemoves_spec fuel n index : forall removedCount h,
  emitRemoves fuel h n removedCount
    (Z.of_nat index + Z.of_nat removedCount - 1) =
  foldResult (fun h p => emitPatch fuel h n p n) h
    (map (fun i => mkPatch OpRemove (natToString i) None)
       (rev (seq index removedCount))).
Proof.
  induction removedCount as [|k IH]; intros h; [reflexivity|].
  rewrite seq_S, rev_app_distr. simpl.
  replace (Z.of_nat index + Z.of_nat (S k) - 1)
    with (Z.of_nat (index + k)) by lia.
  rewrite numToString_of_nat.
  destruct (emitPatch fuel h n _ n) as [h1| |]; try reflexivity.
  cbn [mbind Result_bind].
  replace (Z.of_nat (index + k) - 1) with (Z.of_nat index + Z.of_nat k - 1)
    by lia.
  apply IH.
Qed.

Lemma childSnapshot_item fuel h0 h n nd subType items observed i c v :
  nodes h = nodes h0 ->
  nodes h0 !! n = Some nd -> _isAlive nd = true ->
  type nd = ArrayType subType -> storedValue nd = SArray items observed ->
  items !! i = Some c -> snapshot fuel h0 c = Ok v ->
  childSnapshot fuel h n (natToString i) = Ok v.
Proof.
  intros E Hn Ha Ht Hs Hi Hv. unfold childSnapshot, getChildNode, assertAlive.
  rewrite <- E in Hn. rewrite (getNode_lookup _ _ _ Hn).
  cbn [mbind Result_bind]. rewrite Ha. cbn [mbind Result_bind].
  unfold type_getChildNode, ArrayType_getChildNode.
  rewrite Ht, Hs, parseInt_natToString.
  pose proof (lookup_lt_Some _ _ _ Hi) as Hlt.
  destruct (Z.ltb_spec (Z.of_nat i) (Z.of_nat (length items))); [|lia].
  destruct (Z.ltb_spec (Z.of_nat i) 0); [lia|].
  rewrite Nat2Z.id, Hi. cbn [mbind Result_bind].
  apply (snapshot_nodes h0 h); auto.
Qed.

Lemma emitAdds_spec fuel h0 n nd subType items observed index :
  nodes h0 !! n = Some nd -> _isAlive nd = true ->
  type nd = ArrayType subType -> storedValue nd = SArray items observed ->
  forall vs t h,
    nodes h = nodes h0 ->
    mapResult (snapshot fuel h0)
      (take (length vs) (drop (index + t) items)) = Ok vs ->
    (index + t + length vs <= length items)%nat ->
    emitAdds fuel h n (Z.of_nat index) (length vs) (Z.of_nat t) =
    foldResult (fun h p => emitPatch fuel h n p n) h
      (imap (fun i v => mkPatch OpAdd (natToString (index + t + i)) (Some v))
         vs).
Proof.
  intros Hn Ha Ht Hs. induction vs as [|v vs IH]; intros t h E Hm Hlen;
    [reflexivity|].
  simpl in Hlen. simpl length in Hm.
  destruct (drop (index + t) items) as [|c rest] eqn:Hdrop.
  { apply (f_equal length) in Hdrop. rewrite length_drop in Hdrop.
    simpl in Hdrop. lia. }
  simpl in Hm. inv_bind Hm. inv_bind Hm. injection Hm as -> ->.
  assert (Hc : items !! (index + t)%nat = Some c).
  { rewrite <- (Nat.add_0_r (index + t)), <- lookup_drop, Hdrop.
    reflexivity. }
  simpl.
  replace (Z.of_nat index + Z.of_nat t) with (Z.of_nat (index + t)) by lia.
  rewrite numToString_of_nat.
  rewrite (childSnapshot_item fuel h0 h n nd subType items observed
             (index + t) c v E Hn Ha Ht Hs Hc Ha0).
  cbn [mbind Result_bind]. rewrite Nat.add_0_r.
  destruct (emitPatch fuel h n _ n) as [h1| |] eqn:He; try reflexivity.
  cbn [mbind Result_bind].
  replace (Z.of_nat t + 1) with (Z.of_nat (S t)) by lia.
  rewrite (IH (S t) h1).
  - f_equal. apply imap_ext. intros i x _. simpl. do 2 f_equal. lia.
  - rewrite (emitPatch_nodes _ _ _ _ _ _ He). exact E.
  - replace (index + S t)%nat with (index + t + 1)%nat by lia.
    rewrite <- drop_drop, Hdrop. exact Ha1.
  - lia.
Qed.

Lemma emitAll_nil h : emitAll [] h = h.
Proof. destruct h. unfold emitAll. simpl. now rewrite app_nil_r. Qed.

Lemma emitAll_emitAll es1 es2 h :
  emitAll es2 (emitAll es1 h) = emitAll (es1 ++ es2) h.
Proof. unfold emitAll. simpl. now rewrite app_assoc. Qed.

Lemma emitPatch_root fuel h n nd p :
  nodes h !! n = Some nd -> _parent nd = None -> fuel <> O ->
  emitPatch fuel h n p n =
  Ok (emitAll (map (fun f => EPatch f (localized p)) (patchSubscribers nd)) h).
Proof.
  intros Hn Hp Hf. destruct fuel as [|fuel]; [congruence|]. simpl.
  rewrite (getNode_lookup _ _ _ Hn). cbn [mbind Result_bind]. rewrite Hp.
  destruct (patchSubscribers nd) as [|f fs] eqn:Hsub.
  - cbn [mbind Result_bind map]. now rewrite emitAll_nil.
  - reflexivity.
Qed.

Lemma foldResult_emitPatch_root fuel n nd :
  _parent nd = None -> fuel <> O ->
  forall ps h, nodes h !! n = Some nd ->
  foldResult (fun h p => emitPatch fuel h n p n) h ps =
  Ok (emitAll
        (flat_map (fun p => map (fun f => EPatch f (localized p))
                              (patchSubscribers nd)) ps) h).
Proof.
  intros Hp Hf. induction ps as [|p ps IH]; intros h Hn; simpl.
  - now rewrite emitAll_nil.
  - rewrite (emitPatch_root fuel h n nd p Hn Hp Hf). cbn [mbind Result_bind].
    rewrite IH by exact Hn. now rewrite emitAll_emitAll.
Qed.

(** C6.  For a splice at [index] that removed [removedCount] items and
    added the items whose snapshots are [added], [didChange] makes exactly
    the calls of [emitPatch] for: one [remove] patch for each removed item,
    from index [index + removedCount - 1] down to [index], then one [add]
    patch for each added item, from index [index] up; there is no patch for
    the splice as a whole.  On a root the listeners of the node receive
    exactly these patches, in this order, with the path behind a slash.
    Splicing "c" into ["a", "b"] at index 1 delivers the one patch
    [add /1 "c"] and leaves the snapshot ["a", "c", "b"]. *)
Theorem splice_patches :
  (forall fuel h n nd subType items observed index removedCount added,
     nodes h !! n = Some nd -> _isAlive nd = true ->
     type nd = ArrayType subType -> storedValue nd = SArray items observed ->
     mapResult (snapshot fuel h) (take (length added) (drop index items))
       = Ok added ->
     (index + length added <= length items)%nat ->
     didChange fuel h n (DidSplice index removedCount (length added)) =
       foldResult (fun h p => emitPatch fuel h n p n) h
         (splicePatches index removedCount added) /\
     (_parent nd = None -> fuel <> O ->
      didChange fuel h n (DidSplice index removedCount (length added)) =
        Ok (emitAll
              (flat_map (fun p => map (fun f => EPatch f (localized p))
                                    (patchSubscribers nd))
                 (splicePatches index removedCount added)) h))) /\
  (exists h',
     splice 4 4 abListened 2%nat 1 0 [VStr "c"] = Ok h' /\
     events h' = (events abListened ++
                  [EPatch 7 (mkPatch OpAdd "/1" (Some (VStr "c")))])%list /\
     getSnapshot 4 h' (VNode 2%nat) =
       Ok (VFrozen (VArr [VStr "a"; VStr "c"; VStr "b"]))).
Proof.
  split.
  - intros fuel h n nd subType items observed index removedCount added
      Hn Ha Ht Hs Hm Hlen.
    assert (E : didChange fuel h n
                  (DidSplice index removedCount (length added)) =
                foldResult (fun h p => emitPatch fuel h n p n) h
                  (splicePatches index removedCount added)).
    { unfold didChange, splicePatches. rewrite emitRemoves_spec.
      set (removes := map _ (rev (seq index removedCount))).
      clearbody removes. revert h Hn Hm.
      induction removes as [|p ps IH]; intros h Hn Hm.
      - pose proof (emitAdds_spec fuel h n nd subType items observed index
                      Hn Ha Ht Hs added 0%nat h eq_refl) as Hadd.
        change (Z.of_nat 0) with 0 in Hadd. simpl.
        rewrite Hadd.
        + f_equal. apply imap_ext. intros i x _. simpl. do 2 f_equal. lia.
        + now rewrite Nat.add_0_r.
        + lia.
      - simpl. destruct (emitPatch fuel h n p n) as [h1| |] eqn:He;
          try reflexivity.
        cbn [mbind Result_bind].
        pose proof (emitPatch_nodes _ _ _ _ _ _ He) as En.
        apply IH.
        + now rewrite En.
        + revert Hm. apply mapResult_Ok_ext. intros c b _.
          apply (snapshot_nodes h h1). now rewrite En. }
    split; [exact E|]. intros Hp Hf. rewrite E.
    now apply (foldResult_emitPatch_root fuel n nd Hp Hf).
  - vm_compute. eexists. repeat split; reflexivity.
Qed.

Lemma splice_patches_witness :
  didChange 4 abTree 2%nat (DidSplice 0 1 (length [VStr "a"; VStr "b"])) =
  foldResult (fun h p => emitPatch 4 h 2%nat p 2%nat) abTree
    (splicePatches 0 1 [VStr "a"; VStr "b"]).
Proof.
  destruct splice_patches as [H _].
  refine (proj1 (H 4%nat abTree 2%nat (nodeOf abTree 2%nat)
                   (CoreType "string") [3%nat; 4%nat] true 0%nat 1%nat
                   [VStr "a"; VStr "b"] _ _ _ _ _ _)).
  - vm_compute; reflexivity.
  - vm_compute; reflexivity.
  - vm_compute; reflexivity.
  - vm_compute; reflexivity.
  - vm_compute; reflexivity.
  - cbn [length Nat.add]. lia.
Defined.

(** *** Applying a snapshot *)

Lemma isRunningAction_self fuel h n nd :
  nodes h !! n = Some nd -> _isRunningAction nd = true -> fuel <> O ->
  isRunningAction fuel h n = Ok true.
Proof.
  intros Hn Hr Hf. destruct fuel as [|fuel]; [congruence|]. simpl.
  rewrite (getNode_lookup _ _ _ Hn). cbn [mbind Result_bind]. now rewrite Hr.
Qed.

(** C9.  [applySnapshot] on an array node type checks the snapshot first: a
    snapshot that does not validate makes it throw with the store exactly as
    it was, so neither the stored value nor the snapshot of any node changed.
    A snapshot that validates is applied inside [pseudoAction]: the flag of
    the node is raised, so that a live node passes the mutation gate
    whatever the protection and whatever actions are running, then the items
    are replaced and the flag is put back.  On the protected array
    ["a", "b"], outside of any action, applying ["x"] succeeds, the patch
    listener receives [remove /1], [remove /0] and [add /0 "x"], and the
    snapshot listener receives the new snapshot; applying [1] throws and
    leaves the store as it was. *)
Theorem applySnapshot_checks_then_bypasses_protection :
  (forall fuel depth h n nd subType snapshot,
     nodes h !! n = Some nd -> type nd = ArrayType subType ->
     (validate h (ArrayType subType) snapshot = false ->
      Node_applySnapshot fuel depth h n snapshot = Fail msg_typecheck h /\
      applySnapshot fuel depth h (VNode n) snapshot = Fail msg_typecheck h) /\
     (forall items,
        snapshot = VArr items ->
        validate h (ArrayType subType) snapshot = true ->
        _isAlive nd = true -> fuel <> O ->
        let h1 := setNode n (set_isRunningAction true nd) h in
        assertWritable fuel h1 n = Ok tt /\
        Node_applySnapshot fuel depth h n snapshot =
          (h2 ← replace fuel (childTypeOf fuel depth subType) h1 n items;
           update n (set_isRunningAction (_isRunningAction nd)) h2))) /\
  _isRunningAction (nodeOf abWatched 2%nat) = false /\
  isProtected 4 abWatched 2%nat = Ok true /\
  (exists h',
     applySnapshot 4 4 abWatched (VNode 2%nat) (VArr [VStr "x"]) = Ok h' /\
     events h' =
       (events abWatched ++
        [EPatch 7 (mkPatch OpRemove "/1" None);
         EPatch 7 (mkPatch OpRemove "/0" None);
         EPatch 7 (mkPatch OpAdd "/0" (Some (VStr "x")));
         ESnapshot 8 (VFrozen (VArr [VStr "x"]))])%list /\
     getSnapshot 4 h' (VNode 2%nat) = Ok (VFrozen (VArr [VStr "x"]))) /\
  applySnapshot 4 4 abWatched (VNode 2%nat) (VArr [VNum 1]) =
    Fail msg_typecheck abWatched.
Proof.
  split; [|split; [|split; [|split]]].
  - intros fuel depth h n nd subType snapshot Hn Ht. split.
    + intros Hv.
      assert (E : Node_applySnapshot fuel depth h n snapshot
                  = Fail msg_typecheck h).
      { unfold Node_applySnapshot, applySnapshotWith, nodeType.
        rewrite (getNode_lookup _ _ _ Hn). cbn [mbind Result_bind].
        rewrite Ht. unfold ArrayType_applySnapshot, typecheck.
        now rewrite Hv. }
      split; [exact E|]. unfold applySnapshot. simpl. now rewrite E.
    + intros items -> Hv Ha Hf h1. split.
      * unfold assertWritable, assertAlive.
        assert (Hn1 : nodes h1 !! n = Some (set_isRunningAction true nd))
          by (unfold h1; rewrite lookup_setNode; now rewrite decide_True).
        rewrite (getNode_lookup _ _ _ Hn1). cbn [mbind Result_bind].
        simpl _isAlive. rewrite Ha. cbn [mbind Result_bind].
        rewrite (isRunningAction_self fuel h1 n _ Hn1 eq_refl Hf).
        reflexivity.
      * unfold Node_applySnapshot, applySnapshotWith, nodeType.
        rewrite (getNode_lookup _ _ _ Hn). cbn [mbind Result_bind].
        rewrite Ht. unfold ArrayType_applySnapshot, typecheck.
        rewrite Hv. cbn [mbind Result_bind]. unfold pseudoAction, update.
        rewrite (getNode_lookup _ _ _ Hn). cbn [mbind Result_bind].
        reflexivity.
  - vm_compute; reflexivity.
  - vm_compute; reflexivity.
  - vm_compute. eexists. repeat split; reflexivity.
  - vm_compute; reflexivity.
Qed.

Lemma applySnapshot_checks_then_bypasses_protection_witness :
  Node_applySnapshot 4 4 abWatched 2%nat (VArr [VNum 1]) =
    Fail msg_typecheck abWatched /\
  assertWritable 4
    (setNode 2%nat (set_isRunningAction true (nodeOf abWatched 2%nat))
       abWatched) 2%nat = Ok tt.
Proof.
  destruct applySnapshot_checks_then_bypasses_protection as [H _].
  split.
  - destruct (H 4%nat 4%nat abWatched 2%nat (nodeOf abWatched 2%nat)
                (CoreType "string") (VArr [VNum 1])) as [H1 _];
      [vm_compute; reflexivity | vm_compute; reflexivity |].
    apply H1. vm_compute; reflexivity.
  - destruct (H 4%nat 4%nat abWatched 2%nat (nodeOf abWatched 2%nat)
                (CoreType "string") (VArr [VStr "x"])) as [_ H2];
      [vm_compute; reflexivity | vm_compute; reflexivity |].
    apply (H2 [VStr "x"]);
      [reflexivity | vm_compute; reflexivity | vm_compute; reflexivity | lia].
Defined.

(** *** Dictionaries *)

Lemma natToString_inj a b : natToString a = natToString b -> a = b.
Proof.
  intros E. apply (f_equal parseInt) in E.
  rewrite !parseInt_natToString in E. injection E. lia.
Qed.

Lemma objGet_objSet {V} (o : JsObject V) k v k' :
  objGet (objSet o k v) k' = if String.eqb k k' then Some v else objGet o k'.
Proof.
  induction o as [|[k0 v0] o IH]; simpl.
  - reflexivity.
  - destruct (String.eqb_spec k0 k) as [->|Hne]; simpl.
    + destruct (String.eqb k k'); reflexivity.
    + rewrite IH. destruct (String.eqb_spec k0 k') as [->|Hne'].
      * destruct (String.eqb_spec k k'); [congruence|reflexivity].
      * reflexivity.
Qed.

Lemma objGet_objSet_eq {V} (o : JsObject V) k v :
  objGet (objSet o k v) k = Some v.
Proof. rewrite objGet_objSet. now rewrite String.eqb_refl. Qed.

Lemma objGet_objSet_ne {V} (o : JsObject V) k v k' :
  k <> k' -> objGet (objSet o k v) k' = objGet o k'.
Proof.
  intros Hne. rewrite objGet_objSet.
  destruct (String.eqb_spec k k'); [congruence|reflexivity].
Qed.

Lemma objGet_elem_of {V} (o : JsObject V) k v :
  objGet o k = Some v -> (k, v) ∈ o.
Proof.
  induction o as [|[k0 v0] o IH]; simpl; [discriminate|].
  destruct (String.eqb_spec k0 k) as [->|Hne].
  - intros [= ->]. left.
  - intros H. right. auto.
Qed.

Lemma objSet_keys {V} (o : JsObject V) k v k' :
  k' ∈ map fst (objSet o k v) -> k' = k \/ k' ∈ map fst o.
Proof.
  induction o as [|[k0 v0] o IH]; simpl.
  - rewrite list_elem_of_singleton. auto.
  - destruct (String.eqb_spec k0 k) as [->|Hne]; simpl.
    + auto.
    + rewrite !elem_of_cons. intros [->|H]; [auto|].
      destruct (IH H); auto.
Qed.

Lemma uniqueKeys_objSet {V} (o : JsObject V) k v :
  uniqueKeys o -> uniqueKeys (objSet o k v).
Proof.
  unfold uniqueKeys. induction o as [|[k0 v0] o IH]; simpl; intros Hnd.
  - repeat constructor. apply not_elem_of_nil.
  - apply NoDup_cons in Hnd as [Hnot Hnd].
    destruct (String.eqb_spec k0 k) as [->|Hne]; simpl.
    + apply NoDup_cons; auto.
    + apply NoDup_cons. split; [|auto].
      intros Hin. destruct (objSet_keys _ _ _ _ Hin); congruence.
Qed.

Lemma elem_of_objGet {V} (o : JsObject V) k v :
  uniqueKeys o -> (k, v) ∈ o -> objGet o k = Some v.
Proof.
  unfold uniqueKeys. induction o as [|[k0 v0] o IH]; simpl; intros Hnd Hin.
  - now apply elem_of_nil in Hin.
  - apply NoDup_cons in Hnd as [Hnot Hnd].
    apply elem_of_cons in Hin as [[= -> ->]|Hin].
    + now rewrite String.eqb_refl.
    + destruct (String.eqb_spec k0 k) as [->|Hne]; [|auto].
      exfalso. apply Hnot. apply list_elem_of_fmap. exists (k, v). auto.
Qed.

Lemma insertByIndex_elem_of {V} n (kv : string * V) l x :
  x ∈ insertByIndex n kv l <-> x = (n, kv) \/ x ∈ l.
Proof.
  induction l as [|[m kv'] l IH]; simpl.
  - rewrite list_elem_of_singleton. rewrite elem_of_nil. tauto.
  - destruct (n <? m)%nat.
    + rewrite elem_of_cons. tauto.
    + rewrite !elem_of_cons, IH. tauto.
Qed.

(** [for ... in] visits exactly the entries of the dictionary. *)
Lemma objEntries_elem_of {V} (o : JsObject V) kv :
  kv ∈ objEntries o <-> kv ∈ o.
Proof.
  unfold objEntries.
  assert (Hints : forall (l : list (string * V)) acc x,
            x ∈ fold_left (fun acc kv =>
                             match arrayIndex (fst kv) with
                             | Some n => insertByIndex n kv acc
                             | None => acc
                             end) l acc <->
            x ∈ acc \/ exists kv', kv' ∈ l /\
                         arrayIndex (fst kv') = Some (fst x) /\ snd x = kv').
  { induction l as [|kv' l IH]; intros acc x; simpl.
    - split; [auto|]. intros [H|(kv' & H & _)]; [auto|].
      now apply elem_of_nil in H.
    - rewrite IH. destruct (arrayIndex (fst kv')) as [n|] eqn:Hidx.
      + rewrite insertByIndex_elem_of. split.
        * intros [[->|H]|(kv2 & H & H2)]; [right|auto|right].
          -- exists kv'. split; [left|auto].
          -- exists kv2. split; [now right|auto].
        * intros [H|(kv2 & H & H2 & H3)]; [auto|].
          apply elem_of_cons in H as [->|H].
          -- left. left. destruct x as [xn xkv]. simpl in *. congruence.
          -- right. eauto.
      + split.
        * intros [H|(kv2 & H & H2)]; [auto|right].
          exists kv2. split; [now right|auto].
        * intros [H|(kv2 & H & H2 & H3)]; [auto|].
          apply elem_of_cons in H as [->|H]; [congruence|].
          right. eauto. }
  rewrite elem_of_app, list_elem_of_fmap, list_elem_of_filter. split.
  - intros [(x & -> & Hx)|[_ H]]; [|exact H].
    apply Hints in Hx as [Hx|(kv' & Hin & _ & E)];
      [now apply elem_of_nil in Hx|]. now rewrite E.
  - intros Hin. destruct (arrayIndex (fst kv)) as [n|] eqn:Hidx.
    + left. exists (n, kv). split; [reflexivity|]. apply Hints. right.
      exists kv. auto.
    + right. split; [|exact Hin]. now apply bool_decide_pack.
Qed.

(** *** One step of the reconciliation loop *)

Section ReconcileFacts.

Variable fuel : nat.
Variable childType : ChildType.
Variable parent : nodeId.
Variable oldNodesByIdentifier : JsObject (JsObject nodeId).

Lemma reconcileValue_Ok st newValue subPath st1 :
  reconcileValue fuel childType parent oldNodesByIdentifier st newValue
    subPath = Ok st1 ->
  stepped fuel childType parent oldNodesByIdentifier st newValue subPath st1.
Proof.
  unfold reconcileValue. intros H.
  assert (Hinst : forall v,
            (forall c, ~ claims parent oldNodesByIdentifier (store st) v c) ->
            newValue = v ->
            (instantiate childType (store st) (Some parent) subPath VUndefined
               v ≫= (fun '(n, h1) =>
                  Ok (mkReconcileState (res st ++ [n]) (nodesToBeKilled st)
                        h1))) = Ok st1 ->
            stepped fuel childType parent oldNodesByIdentifier st newValue
              subPath st1).
  { intros v Hno -> Hi. inv_bind Hi. destruct a as [n h1].
    injection Hi as <-. eapply stepped_instantiated; eauto. }
  assert (Hfound : forall v,
            isStateTreeNode v = false -> isMutable v = true ->
            newValue = v ->
            match findReconcilationCandidates oldNodesByIdentifier v with
            | Some Inherited => Fail msg_not_a_node (store st)
            | Some InheritedFromNode => OutOfFuel
            | Some (OldNode c) =>
                '(childNode, h1) ← reconcile childType (store st) c v;
                h2 ← setParent fuel h1 childNode (Some parent) (Some subPath);
                Ok (mkReconcileState (res st ++ [childNode])
                      (objSet (nodesToBeKilled st) (natToString c) None) h2)
            | None =>
                '(n, h1) ← instantiate childType (store st) (Some parent)
                             subPath VUndefined v;
                Ok (mkReconcileState (res st ++ [n]) (nodesToBeKilled st) h1)
            end = Ok st1 ->
            stepped fuel childType parent oldNodesByIdentifier st newValue
              subPath st1).
  { intros v Hv Hm -> Hs.
    destruct (findReconcilationCandidates _ _) as [[c| |]|] eqn:Hfind.
    - inv_bind Hs. destruct a as [n h1]. inv_bind Hs. injection Hs as <-.
      eapply stepped_reconciled; eauto.
    - discriminate.
    - discriminate.
    - eapply Hinst; [|reflexivity|exact Hs].
      intros c [[E _]|(_ & _ & E)]; [subst v; discriminate|congruence]. }
  destruct newValue as [| |b|z|s|items|fields|v|c];
    try (eapply Hinst; [|reflexivity|exact H];
         intros c [[E _]|(_ & E & _)]; discriminate);
    try (match goal with
         | |- stepped _ _ _ _ _ ?v _ _ =>
             exact (Hfound v eq_refl eq_refl eq_refl H)
         end).
  inv_bind H. inv_bind H.
  destruct (bool_decide (a0 = Some parent)) eqn:Hp.
  - apply bool_decide_eq_true in Hp. subst a0.
    destruct (isClaimable (nodesToBeKilled st) c) eqn:Hc; [|discriminate].
    inv_bind H. injection H as <-. eapply stepped_reused; eauto.
  - apply bool_decide_eq_false in Hp.
    apply (Hinst (VNode c)); [|reflexivity|exact H].
    intros c' [[E Hpar]|(E & _)]; [|discriminate].
    injection E as <-. congruence.
Qed.

Lemma reconcileValues_cons newPaths index newValue rest st stf :
  reconcileValues fuel childType parent oldNodesByIdentifier newPaths index
    (newValue :: rest) st = Ok stf ->
  exists st1,
    reconcileValue fuel childType parent oldNodesByIdentifier st newValue
      (subPathAt newPaths index) = Ok st1 /\
    reconcileValues fuel childType parent oldNodesByIdentifier newPaths
      (S index) rest st1 = Ok stf.
Proof. simpl. intros H. inv_bind H. eauto. Qed.

End ReconcileFacts.

(** *** The dictionaries built from the old nodes *)

Lemma find_natToString old k c :
  List.find (fun c => String.eqb (natToString c) k) old = Some c ->
  c ∈ old /\ k = natToString c.
Proof.
  intros H. apply find_some in H as [Hin He].
  apply String.eqb_eq in He. split; [now apply list_elem_of_In|auto].
Qed.

Lemma indexOldNodes_killed h old : forall acc r,
  foldResult (indexOldNode h) acc old = Ok r ->
  forall k,
    objGet (snd r) k =
    match List.find (fun c => String.eqb (natToString c) k) old with
    | Some c => Some (Some c)
    | None => objGet (snd acc) k
    end.
Proof.
  induction old as [|a old IH]; intros acc r H k; simpl in H.
  - now injection H as <-.
  - inv_bind H. unfold indexOldNode in Ha. inv_bind Ha.
    destruct acc as [byId ntk]. injection Ha as <-.
    rewrite (IH _ _ H k). simpl.
    destruct (String.eqb_spec (natToString a) k) as [E|Hne].
    + destruct (List.find _ old) as [c|] eqn:Hf.
      * apply find_natToString in Hf as [_ Hk].
        do 2 f_equal. apply natToString_inj. congruence.
      * subst k. apply objGet_objSet_eq.
    + destruct (List.find _ old); [reflexivity|].
      now apply objGet_objSet_ne.
Qed.

Lemma indexOldNodes_unique h old : forall acc r,
  foldResult (indexOldNode h) acc old = Ok r ->
  uniqueKeys (snd acc) -> uniqueKeys (snd r).
Proof.
  induction old as [|a old IH]; intros acc r H Hu; simpl in H.
  - now injection H as <-.
  - inv_bind H. unfold indexOldNode in Ha. inv_bind Ha.
    destruct acc as [byId ntk]. injection Ha as <-.
    apply (IH _ _ H). simpl. now apply uniqueKeys_objSet.
Qed.

Lemma killed_initially h old byId ntk :
  foldResult (indexOldNode h) ([], []) old = Ok (byId, ntk) ->
  uniqueKeys ntk /\
  (forall c, c ∈ old -> objGet ntk (natToString c) = Some (Some c)) /\
  (forall k x, objGet ntk k = Some x ->
     exists c, c ∈ old /\ k = natToString c /\ x = Some c).
Proof.
  intros H. split; [|split].
  - apply (indexOldNodes_unique _ _ _ _ H). constructor.
  - intros c Hc. rewrite (indexOldNodes_killed _ _ _ _ H). simpl.
    destruct (List.find _ old) as [c'|] eqn:Hf.
    + apply find_natToString in Hf as [_ Hk].
      apply natToString_inj in Hk. now subst.
    + exfalso. apply list_elem_of_In in Hc.
      pose proof (find_none _ _ Hf c Hc) as E. simpl in E.
      now rewrite String.eqb_refl in E.
  - intros k x Hk. rewrite (indexOldNodes_killed _ _ _ _ H) in Hk.
    simpl in Hk. destruct (List.find _ old) as [c'|] eqn:Hf; [|discriminate].
    apply find_natToString in Hf as [Hin Hkc]. injection Hk as <-. eauto.
Qed.

(** The nodes of the last loop are those still marked in the dictionary. *)
Lemma nonReconciled_elem_of ntk c :
  uniqueKeys ntk ->
  (forall k x, objGet ntk k = Some (Some x) -> k = natToString x) ->
  c ∈ nonReconciled ntk <-> objGet ntk (natToString c) = Some (Some c).
Proof.
  intros Hu Hk. unfold nonReconciled. rewrite list_elem_of_omap. split.
  - intros ([k x] & Hin & Hx). simpl in Hx. subst x.
    apply (proj1 (objEntries_elem_of _ _)) in Hin.
    apply (elem_of_objGet _ _ _ Hu) in Hin.
    now rewrite <- (Hk _ _ Hin).
  - intros H. exists (natToString c, Some c). split; [|reflexivity].
    apply objEntries_elem_of. now apply objGet_elem_of.
Qed.

(** *** The loop over the new values *)

Section ReconcileRun.

Variable fuel : nat.
Variable childType : ChildType.
Variable parent : nodeId.
Variable oldNodesByIdentifier : JsObject (JsObject nodeId).
Variable newPaths : list Z.

Let run := reconcileValues fuel childType parent oldNodesByIdentifier newPaths.
Let claimed :=
  claimedDuring fuel childType parent oldNodesByIdentifier newPaths.

(** The dictionary only ever loses marks. *)
Lemma stepped_killed st v sp st1 :
  stepped fuel childType parent oldNodesByIdentifier st v sp st1 ->
  nodesToBeKilled st1 = nodesToBeKilled st \/
  exists c, claims parent oldNodesByIdentifier (store st) v c /\
    nodesToBeKilled st1 = objSet (nodesToBeKilled st) (natToString c) None.
Proof.
  intros [c h1 Hv Hp Hc Hs ->|c n h1 h2 Hn Hm Hf Hr Hs ->|n h1 Hno Hi ->];
    simpl; [right|right|left; reflexivity].
  - exists c. split; [left; auto|reflexivity].
  - exists c. split; [right; auto|reflexivity].
Qed.

Lemma run_keeps_unmarked values : forall index st stf k,
  run index values st = Ok stf ->
  objGet (nodesToBeKilled st) k = Some None ->
  objGet (nodesToBeKilled stf) k = Some None.
Proof.
  induction values as [|v values IH]; intros index st stf k H Hk.
  - simpl in H. now injection H as <-.
  - apply reconcileValues_cons in H as (st1 & Hstep & H).
    apply (IH _ _ _ _ H).
    apply reconcileValue_Ok, stepped_killed in Hstep as [->|(c & _ & ->)];
      [exact Hk|].
    rewrite objGet_objSet. now destruct (String.eqb _ k).
Qed.

Lemma run_keeps_invariants values : forall index st stf,
  run index values st = Ok stf ->
  uniqueKeys (nodesToBeKilled st) ->
  (forall k x, objGet (nodesToBeKilled st) k = Some (Some x) ->
     k = natToString x) ->
  uniqueKeys (nodesToBeKilled stf) /\
  (forall k x, objGet (nodesToBeKilled stf) k = Some (Some x) ->
     k = natToString x).
Proof.
  induction values as [|v values IH]; intros index st stf H Hu Hk.
  - simpl in H. injection H as <-. auto.
  - apply reconcileValues_cons in H as (st1 & Hstep & H).
    apply (IH _ _ _ H);
      apply reconcileValue_Ok, stepped_killed in Hstep as [->|(c & _ & ->)];
      auto using uniqueKeys_objSet.
    intros k x. rewrite objGet_objSet.
    destruct (String.eqb _ k); [discriminate|auto].
Qed.

Lemma run_claimed index values st c :
  claimed index values st c -> forall stf,
  run index values st = Ok stf ->
  objGet (nodesToBeKilled stf) (natToString c) = Some None.
Proof.
  induction 1 as [index v rest st c Hc|index v rest st st1 c Hstep Hcl IH];
    intros stf H; apply reconcileValues_cons in H as (st1' & Hstep' & H).
  - apply (run_keeps_unmarked _ _ _ _ _ H).
    apply reconcileValue_Ok in Hstep'.
    destruct Hstep' as [c' h1 Hv Hp Hcl Hs ->|c' n h1 h2 Hn Hm Hf Hr Hs ->
                       |n h1 Hno Hi ->]; simpl.
    + rewrite Hv in Hc. destruct Hc as [[E _]|(E & _)]; [|discriminate].
      injection E as ->. apply objGet_objSet_eq.
    + destruct Hc as [[E _]|(_ & _ & E)]; [rewrite E in Hn; discriminate|].
      assert (c' = c) by congruence. subst. apply objGet_objSet_eq.
    + now destruct (Hno c).
  - apply IH. unfold run in *. congruence.
Qed.

Lemma run_unclaimed values : forall index st stf c,
  run index values st = Ok stf ->
  objGet (nodesToBeKilled st) (natToString c) = Some (Some c) ->
  ~ claimed index values st c ->
  objGet (nodesToBeKilled stf) (natToString c) = Some (Some c).
Proof.
  induction values as [|v values IH]; intros index st stf c H Hk Hno.
  - simpl in H. now injection H as <-.
  - apply reconcileValues_cons in H as (st1 & Hstep & H).
    apply (IH _ _ _ _ H).
    + apply reconcileValue_Ok, stepped_killed in Hstep
        as [->|(c' & Hc' & ->)]; [exact Hk|].
      destruct (decide (c' = c)) as [->|Hne].
      * exfalso. apply Hno. now apply claimed_now.
      * rewrite objGet_objSet_ne; [exact Hk|].
        intros E. apply natToString_inj in E. congruence.
    + intros Hcl. apply Hno. eapply claimed_later; eassumption.
Qed.

Lemma run_marks_from_start values : forall index st stf k x,
  run index values st = Ok stf ->
  objGet (nodesToBeKilled stf) k = Some (Some x) ->
  objGet (nodesToBeKilled st) k = Some (Some x).
Proof.
  induction values as [|v values IH]; intros index st stf k x H Hk.
  - simpl in H. now injection H as <-.
  - apply reconcileValues_cons in H as (st1 & Hstep & H).
    pose proof (IH _ _ _ _ _ H Hk) as Hk1.
    apply reconcileValue_Ok, stepped_killed in Hstep
      as [E|(c' & _ & E)]; rewrite E in Hk1; [exact Hk1|].
    rewrite objGet_objSet in Hk1.
    destruct (String.eqb _ k); [discriminate|exact Hk1].
Qed.

End ReconcileRun.

(** *** Fresh nodes *)

Lemma idsBounded_fresh h :
  idsBounded h = true -> nodes h !! S (nextNodeId h) = None.
Proof.
  intros Hb. destruct (nodes h !! S (nextNodeId h)) as [nd|] eqn:Hn;
    [|reflexivity].
  exfalso. unfold idsBounded in Hb. rewrite forallb_forall in Hb.
  apply elem_of_map_to_list, list_elem_of_In in Hn.
  specialize (Hb _ Hn). cbn [fst] in Hb. apply Nat.leb_le in Hb. lia.
Qed.

Lemma createNode_fresh fuel t h parent subpath environment v create finalize
    n h' :
  isStateTreeNode v = false ->
  createNode fuel t h parent subpath environment v create finalize
    = Ok (n, h') ->
  n = S (nextNodeId h).
Proof.
  intros Hv H. unfold createNode in H.
  destruct v; try discriminate;
    match type of H with
    | match ?b with _ => _ end = _ =>
        destruct b as [[n0 h0]|m hf|] eqn:Hb;
          [|destruct (update _ _ hf); discriminate|discriminate];
        injection H as <- <-;
        inv_bind Hb; inv_bind Hb; inv_bind Hb; now injection Hb as <- <-
    end.
Qed.

Lemma deepFreeze_not_node v :
  isStateTreeNode v = false -> isStateTreeNode (deepFreeze v) = false.
Proof. now destruct v. Qed.

Lemma instantiate_fresh fuel depth t h parent subpath environment v n h' :
  isStateTreeNode v = false ->
  instantiate (childTypeOf fuel depth t) h parent subpath environment v
    = Ok (n, h') ->
  n = S (nextNodeId h).
Proof.
  intros Hv H. destruct depth as [|depth]; [discriminate|].
  cbn [childTypeOf instantiate] in H.
  destruct t;
    unfold ArrayType_instantiate, Frozen_instantiate, CoreType_instantiate,
      ObjectType_instantiate in H;
    eapply createNode_fresh; try exact H; auto using deepFreeze_not_node.
Qed.

Lemma createNode_new fuel t h parent subpath environment v create finalize :
  isStateTreeNode v = false ->
  createNode fuel t h parent subpath environment v create finalize =
  let node := S (nextNodeId h) in
  let h1 :=
    mkStore (<[node := newNode t parent subpath environment (create v)]>
               (nodes h)) node (events h) in
  let body :=
    h2 ← pseudoAction h1 node (fun h => finalize h node v);
    h3 ← fireHook h2 node "afterCreate";
    h4 ← (if bool_decide (parent <> None)
          then fireHook h3 node "afterAttach" else Ok h3);
    Ok (node, h4) in
  match body with
  | Fail m hf =>
      match update node (set_isAlive false) hf with
      | Ok hf' => Fail m hf'
      | _ => Fail m hf
      end
  | r => r
  end.
Proof. destruct v; try discriminate; reflexivity. Qed.

Lemma insert_thrice {A} (m : gmap nat A) i x y :
  <[i := x]> (<[i := y]> (<[i := x]> m)) = <[i := x]> m.
Proof. now rewrite !insert_insert_eq. Qed.

(** Instantiating a scalar: only the descriptors that keep a value as it is
    accept one, and they allocate one node around it and change nothing
    else. *)
Lemma instantiate_scalar fuel depth t h parent sp env v n h' :
  isStateTreeNode v = false -> isMutable v = false ->
  instantiate (childTypeOf fuel depth t) h parent sp env v = Ok (n, h') ->
  n = S (nextNodeId h) /\
  nodes h' = <[n := newNode t parent sp env (SPlain v false)]> (nodes h) /\
  nextNodeId h' = n /\ events h' = events h.
Proof.
  intros Hnode Hmut H. destruct depth as [|depth]; [discriminate|].
  assert (Hfr : deepFreeze v = v) by (now destruct v).
  assert (Hid : identityInstance v = SPlain v false) by (now destruct v).
  set (node := S (nextNodeId h)).
  assert (Hplain : forall t0,
            createNode fuel t0 h parent sp env v identityInstance noop
              = Ok (n, h') ->
            n = node /\
            nodes h' = <[n := newNode t0 parent sp env (SPlain v false)]>
                         (nodes h) /\
            nextNodeId h' = n /\ events h' = events h).
  { intros t0 Hc. rewrite createNode_new in Hc by exact Hnode.
    cbv zeta in Hc. rewrite Hid in Hc. fold node in Hc.
    set (nd0 := newNode t0 parent sp env (SPlain v false)) in *.
    set (h1 := mkStore (<[node := nd0]> (nodes h)) node (events h)) in *.
    assert (Hn1 : nodes h1 !! node = Some nd0).
    { unfold h1. cbn [nodes]. now rewrite lookup_insert, decide_True. }
    set (h2 := setNode node (set_isRunningAction true nd0) h1).
    set (h3 := setNode node nd0 h2).
    assert (Hps : pseudoAction h1 node (fun h0 => noop h0 node v) = Ok h3).
    { unfold pseudoAction, update, noop.
      rewrite (getNode_lookup _ _ _ Hn1). cbn [mbind Result_bind].
      fold h2.
      assert (Hn2 : nodes h2 !! node = Some (set_isRunningAction true nd0))
        by (unfold h2; now rewrite lookup_setNode, decide_True).
      now rewrite (getNode_lookup _ _ _ Hn2). }
    assert (Hn3 : nodes h3 !! node = Some nd0).
    { unfold h3. now rewrite lookup_setNode, decide_True. }
    assert (Hhook : forall name, fireHook h3 node name = Ok h3).
    { intros name. unfold fireHook. rewrite (getNode_lookup _ _ _ Hn3).
      cbn [mbind Result_bind]. unfold nd0. cbn [newNode storedValue].
      now destruct v. }
    rewrite Hps in Hc. cbn [mbind Result_bind] in Hc. rewrite Hhook in Hc.
    cbn [mbind Result_bind] in Hc.
    assert (Hres : h' = h3 /\ n = node).
    { destruct (bool_decide (parent <> None));
        [rewrite Hhook in Hc|]; cbn [mbind Result_bind] in Hc;
        now injection Hc as <- <-. }
    destruct Hres as [-> ->]. split; [reflexivity|].
    split; [|split; reflexivity].
    unfold h3, h2, h1. cbn [setNode nodes]. apply insert_thrice. }
  assert (Hcheck : forall t0 finalize,
            (forall h0, finalize h0 node v = Fail msg_typecheck h0) ->
            createNode fuel t0 h parent sp env v (fun _ => SArray [] false)
              finalize <> Ok (n, h')).
  { intros t0 finalize Hfin Hc. rewrite createNode_new in Hc by exact Hnode.
    cbv zeta in Hc. fold node in Hc.
    set (nd0 := newNode t0 parent sp env (SArray [] false)) in *.
    set (h1 := mkStore (<[node := nd0]> (nodes h)) node (events h)) in *.
    assert (Hn1 : nodes h1 !! node = Some nd0).
    { unfold h1. cbn [nodes]. now rewrite lookup_insert, decide_True. }
    assert (Hps : pseudoAction h1 node (fun h0 => finalize h0 node v)
                  = Fail msg_typecheck
                      (setNode node (set_isRunningAction true nd0) h1)).
    { unfold pseudoAction, update.
      rewrite (getNode_lookup _ _ _ Hn1). cbn [mbind Result_bind].
      now rewrite Hfin. }
    rewrite Hps in Hc. cbn [mbind Result_bind] in Hc.
    destruct (update node _ _); discriminate. }
  cbn [childTypeOf instantiate] in H.
  destruct t as [sub| |name|name ia].
  - exfalso. unfold ArrayType_instantiate in H.
    apply (Hcheck _ _) in H; [exact H|].
    intros h0. unfold ArrayType_finalizeNewInstance, ArrayType_applySnapshot,
      typecheck.
    now destruct v.
  - unfold Frozen_instantiate in H. rewrite Hfr in H. now apply Hplain.
  - unfold CoreType_instantiate in H. now apply Hplain.
  - exfalso. unfold ObjectType_instantiate in H.
    rewrite createNode_new in H by exact Hnode. cbv zeta in H.
    fold node in H.
    set (nd0 := newNode (ObjectType name ia) parent sp env (SObject []))
      in *.
    set (h1 := mkStore (<[node := nd0]> (nodes h)) node (events h)) in *.
    assert (Hn1 : nodes h1 !! node = Some nd0).
    { unfold h1. cbn [nodes]. now rewrite lookup_insert, decide_True. }
    set (h1a := setNode node (set_isRunningAction true nd0) h1) in *.
    assert (Hn1a : nodes h1a !! node = Some (set_isRunningAction true nd0))
      by (unfold h1a; now rewrite lookup_setNode, decide_True).
    assert (Hps : exists hf,
              pseudoAction h1 node
                (fun h0 => ObjectType_finalizeNewInstance fuel
                             (ObjectType name ia) ia h0 node v)
              = Fail msg_typecheck hf).
    { unfold pseudoAction, update.
      rewrite (getNode_lookup _ _ _ Hn1). cbn [mbind Result_bind].
      fold h1a. unfold ObjectType_finalizeNewInstance.
      rewrite (getNode_lookup _ _ _ Hn1a). cbn [mbind Result_bind].
      unfold ObjectType_applySnapshot, typecheck.
      destruct v; try discriminate; cbn; eauto. }
    destruct Hps as [hf Hps]. rewrite Hps in H. cbn [mbind Result_bind] in H.
    destruct (update node _ _); discriminate.
Qed.

(** C2.  A completed call of [reconcileArrayChildren] is: the old nodes
    indexed, the loop over the new values, then [die()] on each node of
    [nonReconciled].  An old node is among these exactly when no new value
    claimed it (neither as the live value of a child of the same parent nor
    by its identifier), so the unclaimed old nodes get [die()] and the
    claimed ones do not.  A scalar new value claims nothing and its child is
    what [instantiate] returns.  For the descriptors of the tree the child
    of a value that is no live node has a fresh id, and the child of a
    scalar is a new node around the scalar, under the parent at the sub
    path, added to a store that is otherwise as it was. *)
Theorem reconcile_kills_unclaimed :
  (forall fuel childType parent h oldNodes newValues newPaths result h',
     reconcileArrayChildren fuel childType parent h oldNodes newValues
       newPaths = Ok (result, h') ->
     exists byId ntk st,
       foldResult (indexOldNode h) ([], []) oldNodes = Ok (byId, ntk) /\
       reconcileValues fuel childType parent byId newPaths 0 newValues
         (mkReconcileState [] ntk h) = Ok st /\
       result = res st /\
       foldResult (die fuel) (store st) (nonReconciled (nodesToBeKilled st))
         = Ok h' /\
       forall c,
         c ∈ nonReconciled (nodesToBeKilled st) <->
         c ∈ oldNodes /\
         ~ claimedDuring fuel childType parent byId newPaths 0 newValues
             (mkReconcileState [] ntk h) c) /\
  (forall fuel childType parent byId st newValue subPath st1,
     isStateTreeNode newValue = false -> isMutable newValue = false ->
     reconcileValue fuel childType parent byId st newValue subPath = Ok st1 ->
     (forall c, ~ claims parent byId (store st) newValue c) /\
     nodesToBeKilled st1 = nodesToBeKilled st /\
     exists n,
       instantiate childType (store st) (Some parent) subPath VUndefined
         newValue = Ok (n, store st1) /\
       res st1 = (res st ++ [n])%list) /\
  (forall fuel depth t h parent subPath environment newValue n h',
     isStateTreeNode newValue = false -> idsBounded h = true ->
     instantiate (childTypeOf fuel depth t) h parent subPath environment
       newValue = Ok (n, h') ->
     n = S (nextNodeId h) /\ nodes h !! n = None /\
     (isMutable newValue = false ->
      nodes h' =
        <[n := newNode t parent subPath environment (SPlain newValue false)]>
          (nodes h) /\
      nextNodeId h' = n /\ events h' = events h)).
Proof.
  split; [|split].
  - intros fuel childType parent h oldNodes newValues newPaths result h' H.
    unfold reconcileArrayChildren in H. inv_bind H.
    destruct a as [byId ntk]. inv_bind H. inv_bind H. injection H as <- <-.
    exists byId, ntk, a. repeat split; auto.
    + rename H into Hc.
      destruct (killed_initially _ _ _ _ Ha) as (Hu & Hall & Hinv).
      destruct (run_keeps_invariants _ _ _ _ _ _ _ _ _ Ha0 Hu) as [Hu' Hk'].
      { intros k x Hk. destruct (Hinv _ _ Hk) as (c' & _ & -> & E).
        now injection E as <-. }
      apply (nonReconciled_elem_of _ _ Hu' Hk') in Hc.
      pose proof (run_marks_from_start _ _ _ _ _ _ _ _ _ _ _ Ha0 Hc) as Hc0.
      destruct (Hinv _ _ Hc0) as (c' & Hin & Hk & _).
      apply natToString_inj in Hk. now subst c'.
    + intros Hcl.
      destruct (killed_initially _ _ _ _ Ha) as (Hu & Hall & Hinv).
      destruct (run_keeps_invariants _ _ _ _ _ _ _ _ _ Ha0 Hu) as [Hu' Hk'].
      { intros k x Hk. destruct (Hinv _ _ Hk) as (c' & _ & -> & E).
        now injection E as <-. }
      apply (nonReconciled_elem_of _ _ Hu' Hk') in H.
      pose proof (run_claimed _ _ _ _ _ _ _ _ _ Hcl _ Ha0) as Hn.
      congruence.
    + intros [Hin Hno].
      destruct (killed_initially _ _ _ _ Ha) as (Hu & Hall & Hinv).
      destruct (run_keeps_invariants _ _ _ _ _ _ _ _ _ Ha0 Hu) as [Hu' Hk'].
      { intros k x Hk. destruct (Hinv _ _ Hk) as (c' & _ & -> & E).
        now injection E as <-. }
      apply (nonReconciled_elem_of _ _ Hu' Hk').
      apply (run_unclaimed _ _ _ _ _ _ _ _ _ _ Ha0); auto.
  - intros fuel childType parent byId st newValue subPath st1 Hn Hm H.
    apply reconcileValue_Ok in H.
    destruct H as [c h1 Hv Hp Hc Hs ->|c n h1 h2 Hn' Hm' Hf Hr Hs ->
                  |n h1 Hno Hi ->]; simpl.
    + rewrite Hv in Hn. discriminate.
    + congruence.
    + repeat split; eauto.
  - intros fuel depth t h parent subPath environment newValue n h' Hv Hb H.
    assert (n = S (nextNodeId h)) by (eapply instantiate_fresh; eauto).
    subst n. split; [reflexivity|]. split; [now apply idsBounded_fresh|].
    intros Hm.
    now destruct (instantiate_scalar _ _ _ _ _ _ _ _ _ _ Hv Hm H) as [_ R].
Qed.

Lemma reconcile_kills_unclaimed_witness :
  (exists byId ntk st,
     reconcileValues 4 stringChild 2 byId [0] 0 [VStr "c"]
       (mkReconcileState [] ntk abTree) = Ok st /\
     forall c,
       c ∈ nonReconciled (nodesToBeKilled st) <->
       c ∈ [3; 4]%nat /\
       ~ claimedDuring 4 stringChild 2 byId [0] 0 [VStr "c"]
           (mkReconcileState [] ntk abTree) c) /\
  nodes abTree !! 5%nat = None /\
  nodes (snd (okOr (instantiate stringChild abTree (Some 2%nat) "0"
                      VUndefined (VStr "c")) (O, abTree))) !! 5%nat
    = Some (newNode (CoreType "string") (Some 2%nat) "0" VUndefined
              (SPlain (VStr "c") false)).
Proof.
  destruct reconcile_kills_unclaimed as (H1 & _ & H3). split.
  - destruct (H1 4%nat stringChild 2%nat abTree [3; 4]%nat [VStr "c"] [0]
                (fst (okOr abReplaced ([], abTree)))
                (snd (okOr abReplaced ([], abTree))))
      as (byId & ntk & st & _ & Hrun & _ & _ & Hkill);
      [vm_compute; reflexivity|].
    exists byId, ntk, st. split; [exact Hrun | exact Hkill].
  - destruct (H3 4%nat 4%nat (CoreType "string") abTree (Some 2%nat) "0"
                VUndefined (VStr "c") 5%nat
                (snd (okOr (instantiate stringChild abTree (Some 2%nat) "0"
                              VUndefined (VStr "c")) (O, abTree))))
      as (_ & Hfresh & Hnew);
      [reflexivity | vm_compute; reflexivity | vm_compute; reflexivity |].
    split; [exact Hfresh|].
    destruct (Hnew eq_refl) as (Hnodes & _ & _).
    rewrite Hnodes. apply lookup_insert_eq.
Defined.

(** *** The index of old nodes by identifier *)





(** *** What a call leaves alone *)


















Lemma idsBounded_bounded h : idsBounded h = true -> bounded h.
Proof.
  intros Hb k [nd Hk]. unfold idsBounded in Hb. rewrite forallb_forall in Hb.
  apply elem_of_map_to_list, list_elem_of_In in Hk.
  specialize (Hb _ Hk). cbn [fst] in Hb. now apply Nat.leb_le in Hb.
Qed.




(** *** Where a new value ends up *)

Lemma stepped_res fuel childType parent byId st v sp st1 :
  stepped fuel childType parent byId st v sp st1 ->
  exists n, res st1 = (res st ++ [n])%list.
Proof.
  intros [c h1 Hv Hp Hc Hs ->|c n h1 h2 Hn Hm Hf Hr Hs ->|n h1 Hno Hi ->];
    simpl; eauto.
Qed.

Lemma run_res fuel childType parent byId newPaths values :
  forall index st stf,
  reconcileValues fuel childType parent byId newPaths index values st
    = Ok stf ->
  exists added,
    res stf = (res st ++ added)%list /\ length added = length values.
Proof.
  induction values as [|v values IH]; intros index st stf H.
  - simpl in H. injection H as <-. exists []. now rewrite app_nil_r.
  - apply reconcileValues_cons in H as (st1 & Hstep & H).
    apply reconcileValue_Ok, stepped_res in Hstep as [n Hn].
    destruct (IH _ _ _ H) as (added & Hres & Hlen).
    exists (n :: added). rewrite Hres, Hn, <- app_assoc. simpl.
    split; [reflexivity|lia].
Qed.




(** *** An array of models: what the rest of the call leaves alone *)







(** *** Reconciled contents *)
















(** *** One place for each node *)

(** [setParent] refuses a second parent. *)
Lemma setParent_rejects_other_parent fuel h n nd p newParent subpath' :
  nodes h !! n = Some nd -> _parent nd = Some p -> newParent <> p ->
  setParent fuel h n (Some newParent) subpath' = Fail msg_twice h.
Proof.
  intros Hn Hp Hne. unfold setParent. rewrite (getNode_lookup _ _ _ Hn).
  cbn [mbind Result_bind]. rewrite Hp.
  rewrite (bool_decide_eq_false_2 (Some p = Some newParent)) by congruence.
  cbn [andb]. now rewrite (bool_decide_eq_true_2 (newParent <> p)) by exact Hne.
Qed.

(** Instantiating the live value of a node that is not a root fails, for
    every descriptor. *)
Lemma instantiate_rejects_non_root fuel depth t h target td p parent subpath
    environment :
  nodes h !! target = Some td -> _parent td = Some p ->
  instantiate (childTypeOf fuel (S depth) t) h parent subpath environment
    (VNode target) = Fail msg_already_part h.
Proof.
  intros Hn Hp.
  assert (E : forall create finalize,
            createNode fuel t h parent subpath environment (VNode target)
              create finalize = Fail msg_already_part h).
  { intros. unfold createNode, isRoot. rewrite (parent_lookup _ _ _ Hn), Hp.
    reflexivity. }
  destruct t; cbn [childTypeOf instantiate];
    unfold ArrayType_instantiate, Frozen_instantiate, CoreType_instantiate,
      ObjectType_instantiate; cbn [deepFreeze]; apply E.
Qed.

(** In the loop of [reconcileArrayChildren], the live value of a child of
    the same parent that is not (or no longer) marked as an old node is
    refused. *)
Lemma reconcileValue_rejects_unlisted_child fuel childType parent byId st c
    cd subPath :
  nodes (store st) !! c = Some cd -> _isAlive cd = true ->
  _parent cd = Some parent -> isClaimable (nodesToBeKilled st) c = false ->
  reconcileValue fuel childType parent byId st (VNode c) subPath
    = Fail msg_already_part (store st).
Proof.
  intros Hn Ha Hp Hc. unfold reconcileValue, assertAlive.
  rewrite (getNode_lookup _ _ _ Hn). cbn [mbind Result_bind]. rewrite Ha.
  cbn [mbind Result_bind]. rewrite (parent_lookup _ _ _ Hn), Hp.
  cbn [mbind Result_bind]. rewrite bool_decide_eq_true_2 by reflexivity.
  now rewrite Hc.
Qed.

Lemma reconcileArrayChildren_rejects_unlisted_child fuel childType parent h
    oldNodes byId ntk c cd rest newPaths :
  foldResult (indexOldNode h) ([], []) oldNodes = Ok (byId, ntk) ->
  nodes h !! c = Some cd -> _isAlive cd = true -> _parent cd = Some parent ->
  c ∉ oldNodes ->
  reconcileArrayChildren fuel childType parent h oldNodes (VNode c :: rest)
    newPaths = Fail msg_already_part h.
Proof.
  intros H1 Hn Ha Hp Hnot. unfold reconcileArrayChildren. rewrite H1.
  cbn [mbind Result_bind reconcileValues].
  rewrite (reconcileValue_rejects_unlisted_child _ _ _ _ _ c cd); auto.
  unfold isClaimable. cbn [nodesToBeKilled].
  destruct (objGet ntk (natToString c)) as [[x|]|] eqn:E; try reflexivity.
  destruct (killed_initially _ _ _ _ H1) as (_ & _ & Hinv).
  destruct (Hinv _ _ E) as (c' & Hin & Hk & _).
  apply natToString_inj in Hk. congruence.
Qed.

(** C3.  The three guards hold (lemmas above), yet a node can end up in two
    arrays: two new snapshots with the same identifier are both reconciled
    with the same old node, which then sits at two indices of the first
    array; [detach] removes one of them and makes the node a root, so that a
    second array accepts it.  At the end node 3 is an item of the arrays 2
    and 5, alive, with 5 as its parent. *)
Theorem node_held_by_two_arrays :
  exists h',
    todoShared = Ok h' /\
    itemsOf h' 2%nat = [3%nat] /\ itemsOf h' 5%nat = [3%nat] /\
    _isAlive (nodeOf h' 2%nat) = true /\ _isAlive (nodeOf h' 5%nat) = true /\
    _isAlive (nodeOf h' 3%nat) = true /\
    _parent (nodeOf h' 3%nat) = Some 5%nat.
Proof. vm_compute. eexists. repeat split; reflexivity. Qed.

(** Replacing an array element with a value that bears the identifier of
    the old element keeps the node: the items of the array are the same
    nodes, and node 3 holds the new title. *)
Example assign_same_identifier_keeps_node :
  exists h',
    todoRetitled = Ok h' /\
    itemsOf todoTree 2%nat = [3; 4]%nat /\ itemsOf h' 2%nat = [3; 4]%nat /\
    _isAlive (nodeOf h' 3%nat) = true /\
    storedValue (nodeOf h' 3%nat) =
      SObject [("id", VNum 1); ("title", VStr "z")].
Proof. vm_compute. eexists. repeat split; reflexivity. Qed.

(** Replacing both todos by one snapshot with the identifier 2 returns node
    4, at sub path 0, and kills node 3. *)
Example replace_by_identifier_kills_the_other :
  exists h',
    todoReplaced = Ok ([4%nat], h') /\
    subpath (nodeOf h' 4%nat) = "0" /\ _isAlive (nodeOf h' 4%nat) = true /\
    _isAlive (nodeOf h' 3%nat) = false.
Proof. vm_compute. eexists. repeat split; reflexivity. Qed.

(** ** Further properties of the tree operations *)

(** *** Parents at a depth *)

Lemma parent_loops_positive h n l :
  ancestors h n l -> forall fuel nd d,
  nodes h !! n = Some nd -> 0 < d -> (length l <= fuel)%nat ->
  hasParent_loop fuel h (_parent nd) d
    = Ok (bool_decide (d <= Z.of_nat (length l))) /\
  getParent_loop fuel h (_parent nd) d =
    match l !! (Z.to_nat d - 1)%nat with
    | Some p => Ok p
    | None => Fail msg_no_parent h
    end.
Proof.
  induction 1 as [n nd0 Hn0 Hp0|n nd0 p l Hn0 Hp0 Hanc IH];
    intros fuel nd d Hn Hd Hf;
    assert (nd = nd0) by congruence; subst nd0; rewrite Hp0.
  - destruct fuel; simpl; rewrite bool_decide_eq_false_2 by lia; auto.
  - destruct fuel as [|fuel]; [simpl in Hf; lia|]. simpl.
    destruct (Z.eqb_spec (d - 1) 0) as [E|E].
    + rewrite bool_decide_eq_true_2 by lia.
      replace (Z.to_nat d - 1)%nat with 0%nat by lia. auto.
    + destruct (ancestors_lookup _ _ _ Hanc) as [pd Hp].
      rewrite (parent_lookup _ _ _ Hp). cbn [mbind Result_bind].
      destruct (IH fuel pd (d - 1) Hp) as [E1 E2]; [lia|simpl in Hf; lia|].
      rewrite E1, E2. split.
      * f_equal. apply bool_decide_ext. lia.
      * replace (Z.to_nat d - 1)%nat with (S (Z.to_nat (d - 1) - 1))
          by lia.
        reflexivity.
Qed.

(** For a depth of at least 1, [hasParent(node, depth)] tells whether the
    chain of parents of the node is at least [depth] long, and
    [getParent(node, depth)] returns the parent at that depth (1 is the
    direct parent) exactly when [hasParent] is true; otherwise it fails with
    the not-found error. *)
Theorem parent_at_depth fuel h n l depth :
  ancestors h n l -> (length l <= fuel)%nat -> 0 < depth ->
  hasParent fuel h (VNode n) depth
    = Ok (bool_decide (depth <= Z.of_nat (length l))) /\
  getParent fuel h (VNode n) depth =
    match l !! (Z.to_nat depth - 1)%nat with
    | Some p => Ok p
    | None => Fail msg_no_parent h
    end.
Proof.
  intros Ha Hf Hd. destruct (ancestors_lookup _ _ _ Ha) as [nd Hn].
  unfold hasParent, getParent.
  destruct (Z.ltb_spec depth 0); [lia|]. simpl.
  rewrite (parent_lookup _ _ _ Hn). cbn [mbind Result_bind].
  now apply (parent_loops_positive h n l).
Qed.

Lemma parent_at_depth_witness :
  hasParent 4 nestedTree (VNode 4%nat) 2 = Ok true /\
  getParent 4 nestedTree (VNode 4%nat) 2 = Ok 2%nat.
Proof.
  refine (parent_at_depth 4 nestedTree 4%nat [3; 2]%nat 2 _ _ _).
  - eapply ancestors_step; [vm_compute; reflexivity | reflexivity |].
    eapply ancestors_step; [vm_compute; reflexivity | reflexivity |].
    eapply ancestors_root; [vm_compute; reflexivity | reflexivity].
  - simpl; lia.
  - lia.
Defined.

(** *** The root of a tree *)

Lemma ancestors_suffix h n l :
  ancestors h n l -> forall j m, l !! j = Some m ->
  ancestors h m (drop (S j) l).
Proof.
  induction 1 as [n nd Hn Hp|n nd p l Hn Hp Hanc IH]; intros j m Hj.
  - discriminate.
  - destruct j as [|j]; simpl in Hj.
    + injection Hj as <-. simpl. now rewrite drop_0.
    + simpl. now apply IH.
Qed.

Lemma rootOfPath_suffix n l j m :
  l !! j = Some m -> rootOfPath m (drop (S j) l) = rootOfPath n l.
Proof.
  unfold rootOfPath. revert n j. induction l as [|p l IH]; intros n j Hj.
  - discriminate.
  - rewrite last_cons. destruct j as [|j]; simpl in Hj.
    + injection Hj as <-. simpl. now rewrite drop_0.
    + simpl. now apply (IH p).
Qed.

(** [getRoot] of a node returns the last node of its chain of parents, which
    has no parent, and it returns that same node for every node of the
    chain, the root included. *)
Theorem getRoot_of_chain fuel h n l :
  ancestors h n l -> (length l < fuel)%nat ->
  exists rd,
    nodes h !! rootOfPath n l = Some rd /\ _parent rd = None /\
    forall m, m ∈ n :: l ->
      getRoot fuel h (VNode m) = Ok (rootOfPath n l).
Proof.
  intros Ha Hf. destruct (ancestors_root_lookup _ _ _ Ha) as [rd Hr].
  exists rd. split; [exact Hr|].
  split; [exact (ancestors_root_parent _ _ _ Ha _ Hr)|].
  intros m Hm. unfold getRoot. simpl.
  apply elem_of_cons in Hm as [->|Hm].
  - now apply root_of_ancestors.
  - apply list_elem_of_lookup in Hm as [j Hj].
    rewrite <- (rootOfPath_suffix n l j m Hj).
    apply root_of_ancestors; [now apply (ancestors_suffix h n l)|].
    rewrite length_drop. lia.
Qed.

Lemma getRoot_of_chain_witness :
  getRoot 4 nestedTree (VNode 4%nat) = Ok 2%nat /\
  getRoot 4 nestedTree (VNode 3%nat) = Ok 2%nat /\
  getRoot 4 nestedTree (VNode 2%nat) = Ok 2%nat.
Proof.
  destruct (getRoot_of_chain 4 nestedTree 4%nat [3; 2]%nat)
    as (rd & _ & _ & Hall).
  - eapply ancestors_step; [vm_compute; reflexivity | reflexivity |].
    eapply ancestors_step; [vm_compute; reflexivity | reflexivity |].
    eapply ancestors_root; [vm_compute; reflexivity | reflexivity].
  - simpl; lia.
  - split; [|split]; apply Hall.
    + left.
    + right; left.
    + right; right; left.
Defined.

(** *** Protection *)

Lemma ancestors_not_root h n l :
  ancestors h n l -> l <> [] ->
  exists nd p, nodes h !! n = Some nd /\ _parent nd = Some p.
Proof. destruct 1; [congruence|eauto]. Qed.

(** Protection belongs to the tree.  [protect] and [unprotect] refuse a node
    that has a parent and leave the store as it is; on the root they set the
    flag of the root and change nothing else, and [isProtected] of every node
    of the tree then reads that flag, whatever the node's own flag. *)
Theorem protection_is_per_tree fuel h n l :
  ancestors h n l -> (length l < fuel)%nat ->
  (l <> [] ->
   protect h (VNode n)
     = Fail "`protect` can only be invoked on root nodes" h /\
   unprotect h (VNode n)
     = Fail "`unprotect` can only be invoked on root nodes" h) /\
  exists rd,
    nodes h !! rootOfPath n l = Some rd /\
    forall b,
      (if b : bool then protect else unprotect) h (VNode (rootOfPath n l))
        = Ok (setNode (rootOfPath n l) (set_isProtectionEnabled b rd) h) /\
      isProtected fuel
        (setNode (rootOfPath n l) (set_isProtectionEnabled b rd) h) n
        = Ok b.
Proof.
  intros Ha Hf. split.
  - intros Hl. destruct (ancestors_not_root _ _ _ Ha Hl) as (nd & p & Hn & Hp).
    unfold protect, unprotect, isRoot. simpl.
    rewrite (parent_lookup _ _ _ Hn), Hp. simpl. auto.
  - destruct (ancestors_root_lookup _ _ _ Ha) as [rd Hr]. exists rd.
    split; [exact Hr|]. intros b.
    pose proof (ancestors_root_parent _ _ _ Ha _ Hr) as Hp. split.
    + destruct b; unfold protect, unprotect, isRoot, update; simpl;
        rewrite (parent_lookup _ _ _ Hr), Hp; simpl;
        unfold getNode; now rewrite Hr.
    + unfold isProtected.
      rewrite (root_of_ancestors _ n l);
        [|now apply (ancestors_setNode _ _ rd)|exact Hf].
      cbn [mbind Result_bind]. unfold getNode.
      rewrite lookup_setNode, decide_True by reflexivity. reflexivity.
Qed.

Lemma protection_is_per_tree_witness :
  isProtected 4
    (storeOr (unprotect nestedTree (VNode 2%nat)) nestedTree) 4%nat
    = Ok false.
Proof.
  destruct (protection_is_per_tree 4 nestedTree 4%nat [3; 2]%nat)
    as (_ & rd & Hr & Hb).
  - eapply ancestors_step; [vm_compute; reflexivity | reflexivity |].
    eapply ancestors_step; [vm_compute; reflexivity | reflexivity |].
    eapply ancestors_root; [vm_compute; reflexivity | reflexivity].
  - simpl; lia.
  - destruct (Hb false) as [Hu Hp].
    change (rootOfPath 4%nat [3; 2]%nat) with 2%nat in Hu, Hp.
    rewrite Hu. exact Hp.
Defined.

(** *** Paths *)

Lemma nodeOf_lookup h n nd : nodes h !! n = Some nd -> nodeOf h n = nd.
Proof. intros H. unfold nodeOf. now rewrite H. Qed.

Lemma path_of_chain h n l :
  ancestors h n l -> forall fuel, (length l < fuel)%nat ->
  path_of fuel h n = Ok (chainPath h n l).
Proof.
  induction 1 as [n nd Hn Hp|n nd p l Hn Hp Hanc IH]; intros fuel Hf;
    (destruct fuel as [|fuel]; [simpl in Hf; lia|]); simpl;
    rewrite (getNode_lookup _ _ _ Hn); cbn [mbind Result_bind]; rewrite Hp.
  - reflexivity.
  - rewrite IH by (simpl in Hf; lia). cbn [mbind Result_bind].
    now rewrite (nodeOf_lookup _ _ _ Hn).
Qed.

Lemma substr_app a b : substr (String.length a) (a ++ b) = b.
Proof. induction a as [|c a IH]; [now destruct b|exact IH]. Qed.

Lemma string_app_assoc (a b c : string) : (a ++ b) ++ c = a ++ b ++ c.
Proof.
  induction a as [|x a IH]; [reflexivity|].
  change (String x ((a ++ b) ++ c) = String x (a ++ b ++ c)).
  now rewrite IH.
Qed.

Lemma string_app_nil_r (a : string) : a ++ "" = a.
Proof.
  induction a as [|x a IH]; [reflexivity|].
  change (String x (a ++ "") = String x a). now rewrite IH.
Qed.

Lemma chainPath_suffix h n l :
  forall j m, l !! j = Some m ->
  exists rel, chainPath h n l = chainPath h m (drop (S j) l) ++ rel.
Proof.
  revert n. induction l as [|p l IH]; intros n j m Hj; [discriminate|].
  destruct j as [|j]; simpl in Hj.
  - injection Hj as <-. simpl. rewrite drop_0. eauto.
  - destruct (IH p j m Hj) as [rel Hrel]. simpl. rewrite Hrel.
    eexists. apply string_app_assoc.
Qed.

(** [getPath] of a root is the empty string; the path of a node with a
    parent is the path of the parent, a "/" and the escaped sub path of the
    node.  So the path of every node above is a prefix of the path of the
    node, and [substr] at its length gives what is left. *)
Theorem getPath_extends_parent_path fuel h n l :
  ancestors h n l -> (length l < fuel)%nat ->
  exists pn,
    getPath fuel h (VNode n) = Ok pn /\
    (l = [] -> pn = "") /\
    (forall p l', l = p :: l' ->
       exists pp, getPath fuel h (VNode p) = Ok pp /\
         pn = pp ++ "/" ++ escapeJsonPath (subpath (nodeOf h n))) /\
    (forall m, m ∈ l ->
       exists pm rel, getPath fuel h (VNode m) = Ok pm /\
         pn = pm ++ rel /\ substr (String.length pm) pn = rel).
Proof.
  intros Ha Hf. exists (chainPath h n l). unfold getPath. simpl.
  split; [now apply path_of_chain|]. split; [now intros ->|]. split.
  - intros p l' ->. exists (chainPath h p l'). split; [|reflexivity].
    apply path_of_chain; [|simpl in Hf; lia].
    inversion Ha; subst. assumption.
  - intros m Hm. apply list_elem_of_lookup in Hm as [j Hj].
    destruct (chainPath_suffix h n l j m Hj) as [rel Hrel].
    exists (chainPath h m (drop (S j) l)), rel.
    split; [|split; [exact Hrel|rewrite Hrel; apply substr_app]].
    apply path_of_chain; [now apply (ancestors_suffix h n l)|].
    rewrite length_drop. lia.
Qed.

Lemma getPath_extends_parent_path_witness :
  getPath 4 nestedTree (VNode 7%nat) = Ok "/1/1".
Proof.
  destruct (getPath_extends_parent_path 4 nestedTree 7%nat [5; 2]%nat)
    as (pn & Hpn & _ & Hparent & _).
  - eapply ancestors_step; [vm_compute; reflexivity | reflexivity |].
    eapply ancestors_step; [vm_compute; reflexivity | reflexivity |].
    eapply ancestors_root; [vm_compute; reflexivity | reflexivity].
  - simpl; lia.
  - destruct (Hparent 5%nat [2%nat] eq_refl) as (pp & Hpp & ->).
    rewrite Hpn. f_equal.
    assert (E : getPath 4 nestedTree (VNode 5%nat) = Ok "/1")
      by (vm_compute; reflexivity).
    rewrite E in Hpp. injection Hpp as <-. vm_compute. reflexivity.
Defined.

(** *** Patches bubble up *)

Lemma ancestors_nodes h1 h2 n l :
  nodes h2 = nodes h1 -> ancestors h1 n l -> ancestors h2 n l.
Proof.
  intros E. induction 1 as [n nd Hn Hp|n nd p l Hn Hp Hanc IH].
  - eapply ancestors_root; [rewrite E|]; eassumption.
  - eapply ancestors_step; [rewrite E| |]; eassumption.
Qed.

Lemma chainPath_nodes h1 h2 n l :
  nodes h2 = nodes h1 -> chainPath h2 n l = chainPath h1 n l.
Proof.
  intros E. revert n. induction l as [|p l IH]; intros n; [reflexivity|].
  simpl. rewrite IH. unfold nodeOf. now rewrite E.
Qed.

Lemma bubble_nodes h1 h2 patch l :
  nodes h2 = nodes h1 -> forall rel n,
  bubble h2 patch rel n l = bubble h1 patch rel n l.
Proof.
  intros E. induction l as [|p l IH]; intros rel n; simpl;
    unfold nodeOf; rewrite E; [reflexivity|].
  f_equal. apply IH.
Qed.

Lemma emitPatch_bubbles h source ls patch n l :
  ancestors h n l -> ancestors h source ls ->
  forall fuel rel es,
  (length l + length ls < fuel)%nat ->
  chainPath h source ls = chainPath h n l ++ rel ->
  emitPatch fuel (emitAll es h) n patch source =
    Ok (emitAll (es ++ bubble h patch rel n l) h).
Proof.
  intros Ha Hs. induction Ha as [n nd Hn Hp|n nd p l Hn Hp Hanc IH];
    intros fuel rel es Hf Hrel;
    (destruct fuel as [|fuel]; [simpl in Hf; lia|]);
    cbn [emitPatch]; unfold getNode at 1; cbn [emitAll nodes];
    rewrite Hn; cbn [mbind Result_bind]; rewrite Hp;
    cbn [bubble]; rewrite (nodeOf_lookup _ _ _ Hn).
  - destruct (patchSubscribers nd) as [|f fs] eqn:Hsub.
    + cbn [mbind Result_bind map app]. now rewrite app_nil_r.
    + rewrite (path_of_chain (emitAll es h) source ls)
        by (first [now apply (ancestors_nodes h)|simpl in Hf; lia]).
      rewrite (path_of_chain (emitAll es h) n [])
        by (first [apply (ancestors_nodes h); [reflexivity|];
                   now apply (ancestors_root _ n nd)|simpl; lia]).
      cbn [mbind Result_bind].
      rewrite !(chainPath_nodes h (emitAll es h)) by reflexivity.
      rewrite Hrel. cbn [chainPath String.length substr String.append].
      rewrite emitAll_emitAll, app_nil_r. reflexivity.
  - assert (Hstep : forall es',
              emitPatch fuel (emitAll es' h) p patch source =
              Ok (emitAll
                    (es' ++ bubble h patch
                       ("/" ++ escapeJsonPath (subpath nd) ++ rel) p l) h)).
    { intros es'. apply IH; [simpl in Hf; lia|].
      rewrite Hrel. cbn [chainPath]. rewrite (nodeOf_lookup _ _ _ Hn).
      now rewrite !string_app_assoc. }
    destruct (patchSubscribers nd) as [|f fs] eqn:Hsub.
    + cbn [mbind Result_bind map app]. apply Hstep.
    + rewrite (path_of_chain (emitAll es h) source ls)
        by (first [now apply (ancestors_nodes h)|simpl in Hf; lia]).
      rewrite (path_of_chain (emitAll es h) n (p :: l))
        by (first [apply (ancestors_nodes h); [reflexivity|];
                   now apply (ancestors_step _ n nd)|simpl in Hf |- *; lia]).
      cbn [mbind Result_bind].
      rewrite !(chainPath_nodes h (emitAll es h)) by reflexivity.
      rewrite Hrel, substr_app, emitAll_emitAll, Hstep, <- app_assoc.
      reflexivity.
Qed.

(** [emitPatch(patch, node)] changes nothing but the trace: it calls the
    patch subscribers of the node and then those of each node above it up to
    the root, nearest first, each with the patch under the path that leads
    from the subscribed node down to the source. *)
Theorem emitPatch_bubbles_to_root fuel h n l patch :
  ancestors h n l -> (2 * length l < fuel)%nat ->
  emitPatch fuel h n patch n = Ok (emitAll (bubble h patch "" n l) h).
Proof.
  intros Ha Hf.
  rewrite <- (emitAll_nil h) at 1.
  rewrite (emitPatch_bubbles h n l patch n l Ha Ha fuel "" []);
    [reflexivity|lia|].
  symmetry. apply string_app_nil_r.
Qed.

Lemma emitPatch_bubbles_to_root_witness :
  events (storeOr (emitPatch 5 nestedListened 3%nat
                     (mkPatch OpRemove "0" None) 3%nat) nestedListened) =
  (events nestedListened ++
   [EPatch 9 (mkPatch OpRemove "/0" None);
    EPatch 7 (mkPatch OpRemove "/0/0" None)])%list.
Proof.
  rewrite (emitPatch_bubbles_to_root 5 nestedListened 3%nat [2%nat]).
  - vm_compute. reflexivity.
  - eapply ancestors_step; [vm_compute; reflexivity | reflexivity |].
    eapply ancestors_root; [vm_compute; reflexivity | reflexivity].
  - simpl; lia.
Defined.

(** *** What [setParent] refuses for a root *)

(** A root is never put below a node of its own tree, so the chain of
    parents stays free of cycles; and a root that carries an environment is
    never put below any other tree.  Both calls fail and leave the store as
    it is. *)
Theorem setParent_refuses_root fuel h n nd np l subpath' :
  nodes h !! n = Some nd -> _parent nd = None ->
  ancestors h np l -> (length l < fuel)%nat ->
  (rootOfPath np l = n ->
   setParent fuel h n (Some np) subpath' = Fail msg_contains_itself h) /\
  (rootOfPath np l <> n -> truthy (_environment nd) = true ->
   setParent fuel h n (Some np) subpath' = Fail msg_environment h).
Proof.
  intros Hn Hp Ha Hf.
  assert (E : setParent fuel h n (Some np) subpath' =
              (if bool_decide (rootOfPath np l = n)
               then Fail msg_contains_itself h
               else if truthy (_environment nd) then Fail msg_environment h
               else setParent fuel h n (Some np) subpath')).
  { destruct (bool_decide (rootOfPath np l = n)) eqn:Hr;
      [|destruct (truthy (_environment nd)) eqn:He; [|reflexivity]];
      unfold setParent; rewrite (getNode_lookup _ _ _ Hn);
      cbn [mbind Result_bind]; rewrite Hp;
      rewrite (bool_decide_eq_false_2 (None = Some np)) by discriminate;
      cbn [andb mbind Result_bind];
      rewrite (root_of_ancestors _ _ _ Ha) by exact Hf;
      cbn [mbind Result_bind]; rewrite Hr; [reflexivity|].
    cbn [mbind Result_bind].
    rewrite (bool_decide_eq_true_2 (None = None)) by reflexivity.
    now rewrite He. }
  split.
  - intros Hr. rewrite E. now rewrite bool_decide_eq_true_2.
  - intros Hr He. rewrite E. rewrite bool_decide_eq_false_2 by exact Hr.
    now rewrite He.
Qed.

Lemma setParent_refuses_root_witness :
  setParent 4 nestedTree 2%nat (Some 3%nat) (Some "0")
    = Fail msg_contains_itself nestedTree.
Proof.
  refine (proj1 (setParent_refuses_root 4 nestedTree 2%nat
                   (nodeOf nestedTree 2%nat) 3%nat [2%nat] (Some "0")
                   _ _ _ _) _).
  - vm_compute; reflexivity.
  - reflexivity.
  - eapply ancestors_step; [vm_compute; reflexivity | reflexivity |].
    eapply ancestors_root; [vm_compute; reflexivity | reflexivity].
  - simpl; lia.
  - reflexivity.
Defined.

(** *** Resolving paths *)

Lemma resolvePath_loop_app fuel h f l1 l2 m :
  forall current,
  resolvePath_loop fuel h current l1 f = Ok (Some m) ->
  resolvePath_loop fuel h current (l1 ++ l2) f
    = resolvePath_loop fuel h (Some m) l2 f.
Proof.
  induction l1 as [|part l1 IH]; intros current H.
  - simpl in H. now injection H as ->.
  - simpl in H |- *.
    destruct (String.eqb part "") eqn:E1.
    + destruct current as [c|]; [|discriminate].
      destruct (root fuel h c) as [r| |]; try discriminate.
      cbn [mbind Result_bind] in H |- *. now apply IH.
    + destruct (String.eqb part "..") eqn:E2.
      * destruct current as [c|]; [|discriminate].
        destruct (get_parent h c) as [[p|]| |]; try discriminate;
          cbn [mbind Result_bind] in H |- *; [now apply IH|].
        destruct f; discriminate.
      * destruct (String.eqb part "." || false) eqn:E3.
        -- now apply IH.
        -- destruct current as [c|]; [|destruct f; discriminate].
           destruct (getChildNode h c part) as [child| |]; try discriminate.
           cbn [mbind Result_bind] in H |- *. now apply IH.
Qed.

(** Resolving a path part by part: when the first parts resolve to a node,
    resolving the whole path from the start is resolving the remaining parts
    from that node. *)
Theorem resolvePath_app fuel h n l1 l2 f m :
  resolvePath fuel h n l1 f = Ok (Some m) ->
  resolvePath fuel h n (l1 ++ l2) f = resolvePath fuel h m l2 f.
Proof. apply resolvePath_loop_app. Qed.

Lemma resolvePath_app_witness :
  resolvePath 4 nestedTree 4%nat ([".."; ".."] ++ ["1"; "0"]) true
    = resolvePath 4 nestedTree 2%nat ["1"; "0"] true.
Proof.
  apply (resolvePath_app 4 nestedTree 4%nat [".."; ".."] ["1"; "0"] true
           2%nat).
  vm_compute; reflexivity.
Defined.

(** ['..'] repeated [k] times leads to the parent at depth [k], as
    [getParent] does; past the root the call fails, or returns [undefined]
    when it was asked not to fail. *)
Theorem resolvePath_up fuel h n l f k :
  ancestors h n l ->
  resolvePath fuel h n (replicate (S k) "..") f =
    match l !! k with
    | Some a => Ok (Some a)
    | None => if f then Fail msg_resolve h else Ok None
    end.
Proof.
  intros Ha. unfold resolvePath. revert n l Ha.
  induction k as [|k IH]; intros n l Ha.
  - destruct Ha as [n nd Hn Hp|n nd p l Hn Hp Hanc]; simpl;
      rewrite (parent_lookup _ _ _ Hn), Hp; reflexivity.
  - destruct Ha as [n nd Hn Hp|n nd p l Hn Hp Hanc];
      change (replicate (S (S k)) "..") with (".." :: replicate (S k) "..");
      cbn [resolvePath_loop String.eqb Ascii.eqb Bool.eqb andb];
      rewrite (parent_lookup _ _ _ Hn), Hp; cbn [mbind Result_bind].
    + reflexivity.
    + exact (IH p l Hanc).
Qed.

Lemma resolvePath_up_witness :
  resolvePath 4 nestedTree 4%nat [".."; ".."] true = Ok (Some 2%nat) /\
  resolvePath 4 nestedTree 4%nat [".."; ".."; ".."] false = Ok None.
Proof.
  assert (Ha : ancestors nestedTree 4%nat [3; 2]%nat).
  { eapply ancestors_step; [vm_compute; reflexivity | reflexivity |].
    eapply ancestors_step; [vm_compute; reflexivity | reflexivity |].
    eapply ancestors_root; [vm_compute; reflexivity | reflexivity]. }
  split.
  - exact (resolvePath_up 4 nestedTree 4%nat [3; 2]%nat true 1 Ha).
  - exact (resolvePath_up 4 nestedTree 4%nat [3; 2]%nat false 2 Ha).
Defined.
Lemma natToString_is_key i :
  String.eqb (natToString i) "" = false /\
  String.eqb (natToString i) ".." = false /\
  String.eqb (natToString i) "." = false.
Proof.
  unfold natToString. pose proof (to_uint_not_Nil i) as Hnil.
  destruct (Nat.to_uint i); [congruence|..]; repeat split; reflexivity.
Qed.

Lemma parseDigits_natToString n : parseDigits (natToString n) None = Some n.
Proof.
  unfold natToString.
  pose proof (to_uint_not_Nil n) as Hnil.
  pose proof (DecimalNat.Unsigned.of_to n) as Hof.
  destruct (Nat.to_uint n) as [|d|d|d|d|d|d|d|d|d|d]; [congruence|..];
    simpl NilEmpty.string_of_uint; simpl;
    rewrite parseDigits_uint; simpl; f_equal;
    unfold Nat.of_uint in Hof; simpl in Hof; exact Hof.
Qed.

Lemma parseInt_negative z :
  z < 0 -> parseInt (numToString z) = Some z.
Proof.
  intros Hz. unfold numToString. destruct (Z.ltb_spec z 0); [|lia].
  unfold parseInt.
  change (trimStart ("-" ++ natToString (Z.abs_nat z)))
    with (String "-" (natToString (Z.abs_nat z))).
  cbv beta iota. rewrite parseDigits_natToString. cbn [fmap option_fmap option_map].
  f_equal. lia.
Qed.

(** The children of an array are found under the decimal form of their
    index: the key ['' + i] resolves to the item at index [i], and fails
    with [Not a child] when the array is not that long, whether or not the
    call was asked to fail.  The decimal form of a negative number resolves
    to [undefined], also when the call was asked to fail. *)
Theorem resolvePath_index fuel h p pd items observed f :
  nodes h !! p = Some pd -> _isAlive pd = true ->
  (exists subType, type pd = ArrayType subType) ->
  storedValue pd = SArray items observed ->
  (forall i,
     resolvePath fuel h p [natToString i] f =
       match items !! i with
       | Some c => Ok (Some c)
       | None => Fail msg_not_a_child h
       end) /\
  (forall z, z < 0 -> resolvePath fuel h p [numToString z] f = Ok None).
Proof.
  intros Hp Halive [subType Ht] Hs.
  assert (Hchild : forall key,
            getChildNode h p key =
              match parseInt key with
              | Some index =>
                  if index <? Z.of_nat (length items)
                  then Ok (if index <? 0 then None
                           else items !! Z.to_nat index)
                  else Fail msg_not_a_child h
              | None => Fail msg_not_a_child h
              end).
  { intros key. unfold getChildNode, assertAlive.
    rewrite (getNode_lookup _ _ _ Hp). cbn [mbind Result_bind].
    rewrite Halive. cbn [mbind Result_bind].
    unfold type_getChildNode, ArrayType_getChildNode. now rewrite Ht, Hs. }
  split.
  - intros i. unfold resolvePath. cbn [resolvePath_loop].
    destruct (natToString_is_key i) as (-> & -> & ->). cbn [orb].
    rewrite Hchild, parseInt_natToString.
    destruct (Z.ltb_spec (Z.of_nat i) (Z.of_nat (length items))) as [Hi|Hi].
    + destruct (Z.ltb_spec (Z.of_nat i) 0); [lia|].
      rewrite Nat2Z.id. cbn [mbind Result_bind].
      destruct (lookup_lt_is_Some_2 items i) as [c Hc]; [lia|].
      now rewrite Hc.
    + rewrite lookup_ge_None_2 by lia. reflexivity.
  - intros z Hz. unfold resolvePath. cbn [resolvePath_loop].
    assert (Hkey : String.eqb (numToString z) "" = false /\
                   String.eqb (numToString z) ".." = false /\
                   String.eqb (numToString z) "." = false).
    { unfold numToString. destruct (Z.ltb_spec z 0); [|lia].
      repeat split; reflexivity. }
    destruct Hkey as (-> & -> & ->). cbn [orb].
    rewrite Hchild, parseInt_negative by exact Hz.
    destruct (Z.ltb_spec z (Z.of_nat (length items))); [|lia].
    destruct (Z.ltb_spec z 0); [|lia]. reflexivity.
Qed.

Lemma resolvePath_index_witness :
  resolvePath 4 abTree 2%nat ["1"] true = Ok (Some 4%nat) /\
  resolvePath 4 abTree 2%nat ["2"] false = Fail msg_not_a_child abTree /\
  resolvePath 4 abTree 2%nat ["-1"] true = Ok None.
Proof.
  destruct (resolvePath_index 4 abTree 2%nat (nodeOf abTree 2%nat)
              [3; 4]%nat true true) as [Hi _].
  { vm_compute; reflexivity. }
  { reflexivity. }
  { exists (CoreType "string"). reflexivity. }
  { vm_compute; reflexivity. }
  destruct (resolvePath_index 4 abTree 2%nat (nodeOf abTree 2%nat)
              [3; 4]%nat true false) as [Hi' _].
  { vm_compute; reflexivity. }
  { reflexivity. }
  { exists (CoreType "string"). reflexivity. }
  { vm_compute; reflexivity. }
  destruct (resolvePath_index 4 abTree 2%nat (nodeOf abTree 2%nat)
              [3; 4]%nat true true) as [_ Hneg].
  { vm_compute; reflexivity. }
  { reflexivity. }
  { exists (CoreType "string"). reflexivity. }
  { vm_compute; reflexivity. }
  split; [exact (Hi 1%nat)|]. split; [exact (Hi' 2%nat)|].
  exact (Hneg (-1) eq_refl).
Defined.

(** *** The environment of a tree *)

(** [getEnv] reads the environment off the root: every node of a tree gets
    the environment the root was created with, whatever its own
    [_environment], and the call fails when the root has none. *)
Theorem getEnv_of_chain fuel h n l rd :
  ancestors h n l -> (length l < fuel)%nat ->
  nodes h !! rootOfPath n l = Some rd ->
  getEnv fuel h (VNode n) =
    if truthy (_environment rd) then Ok (_environment rd)
    else Fail msg_no_environment h.
Proof.
  intros Ha Hf Hr. unfold getEnv. simpl.
  rewrite (root_of_ancestors _ _ _ Ha) by exact Hf.
  cbn [mbind Result_bind]. rewrite (getNode_lookup _ _ _ Hr).
  cbn [mbind Result_bind]. now destruct (truthy (_environment rd)).
Qed.

Lemma getEnv_of_chain_witness :
  _environment (nodeOf envTree 3%nat) = VUndefined /\
  getEnv 4 envTree (VNode 3%nat) = Ok (VObj [("api", VStr "x")]).
Proof.
  split; [vm_compute; reflexivity|].
  refine (getEnv_of_chain 4 envTree 3%nat [2%nat]
            (nodeOf envTree 2%nat) _ _ _).
  - eapply ancestors_step; [vm_compute; reflexivity | reflexivity |].
    eapply ancestors_root; [vm_compute; reflexivity | reflexivity].
  - simpl; lia.
  - vm_compute; reflexivity.
Defined.

(** *** Reconciliation returns one node for each new value *)

(** A completed call of [reconcileArrayChildren] returns as many nodes as it
    was given new values, whatever the old nodes were. *)
Theorem reconcile_one_node_per_value fuel childType parent h oldNodes
    newValues newPaths result h' :
  reconcileArrayChildren fuel childType parent h oldNodes newValues newPaths
    = Ok (result, h') ->
  length result = length newValues.
Proof.
  intros H. unfold reconcileArrayChildren in H. inv_bind H.
  destruct a as [byId ntk]. inv_bind H. inv_bind H. injection H as <- <-.
  destruct (run_res _ _ _ _ _ _ _ _ _ Ha0) as (added & Hres & Hlen).
  rewrite Hres. exact Hlen.
Qed.

Lemma reconcile_one_node_per_value_witness :
  length (fst (okOr abReplaced ([], abTree))) = 1%nat.
Proof.
  apply (reconcile_one_node_per_value 4 stringChild 2%nat abTree [3; 4]%nat
           [VStr "c"] [0] _ (snd (okOr abReplaced ([], abTree)))).
  vm_compute; reflexivity.
Defined.

(** *** Assigning the value an index already holds *)



(** *** Instantiating an array from a snapshot that does not validate *)

(** [instantiate] of an array descriptor, as [reconcileArrayChildren] calls
    it for a new item of an array of arrays, with a snapshot that fails the
    type check of the descriptor: the type error is thrown from
    [applySnapshot] inside [finalizeNewInstance].  The node had been
    allocated by then: the [finally] block of [createNode] marks it dead,
    its action flag is still up, the counter of node ids has advanced, and
    nothing else of the store is touched. *)
Theorem instantiate_array_invalid_snapshot fuel depth subType h parent sp
    snapshot env :
  isStateTreeNode snapshot = false -> depth <> O ->
  (forall h0, validate h0 (ArrayType subType) snapshot = false) ->
  instantiate (childTypeOf fuel depth (ArrayType subType)) h parent sp env
    snapshot
  = Fail msg_typecheck
      (mkStore
         (<[S (nextNodeId h) :=
              set_isAlive false
                (set_isRunningAction true
                   (newNode (ArrayType subType) parent sp env
                      (SArray [] false)))]> (nodes h))
         (S (nextNodeId h)) (events h)).
Proof.
  intros Hv Hd Hbad. destruct depth as [|depth]; [congruence|].
  cbn [childTypeOf instantiate].
  unfold ArrayType_instantiate. rewrite createNode_new by exact Hv.
  cbv zeta.
  set (node := S (nextNodeId h)).
  set (nd0 := newNode (ArrayType subType) parent sp env (SArray [] false)).
  set (h1 := mkStore (<[node := nd0]> (nodes h)) node (events h)).
  assert (Hn1 : nodes h1 !! node = Some nd0).
  { unfold h1. cbn [nodes]. now rewrite lookup_insert, decide_True. }
  assert (Hps : pseudoAction h1 node
                  (fun h0 =>
                     ArrayType_finalizeNewInstance fuel
                       (childTypeOf fuel depth subType) subType h0 node
                       snapshot)
                = Fail msg_typecheck
                    (setNode node (set_isRunningAction true nd0) h1)).
  { unfold pseudoAction, update. rewrite (getNode_lookup _ _ _ Hn1).
    cbn [mbind Result_bind].
    unfold ArrayType_finalizeNewInstance, ArrayType_applySnapshot, typecheck.
    now rewrite Hbad. }
  rewrite Hps. cbn [mbind Result_bind]. unfold update, getNode.
  rewrite lookup_setNode, decide_True by reflexivity.
  cbn [mbind Result_bind]. f_equal. unfold setNode, h1. cbn [nodes].
  f_equal. now rewrite !insert_insert_eq.
Qed.

Lemma instantiate_array_invalid_snapshot_witness :
  exists hf,
    instantiate (childTypeOf 6 6 stringArray) nestedOpen (Some 2%nat) "2"
      VUndefined (VArr [VNum 1]) = Fail msg_typecheck hf /\
    splice 6 6 nestedOpen 2%nat 2 0 [VArr [VNum 1]] = Fail msg_typecheck hf /\
    _isAlive (nodeOf hf 8%nat) = false /\
    itemsOf hf 2%nat = itemsOf nestedOpen 2%nat.
Proof.
  eexists. split.
  - apply (instantiate_array_invalid_snapshot 6 6 (CoreType "string")
             nestedOpen (Some 2%nat) "2" (VArr [VNum 1]) VUndefined).
    + reflexivity.
    + discriminate.
    + intros h0. reflexivity.
  - split; [|split]; vm_compute; reflexivity.
Defined.

(** *** Arrays in place: removing an item *)

Lemma ancestors_sameAt h1 h2 p l :
  ancestors h1 p l -> sameAt (p :: l) h1 h2 -> ancestors h2 p l.
Proof.
  induction 1 as [n nd Hn Hp|n nd q l Hn Hp Hanc IH]; intros Hs.
  - apply (ancestors_root _ n nd); [|exact Hp].
    rewrite Hs; [exact Hn|left].
  - apply (ancestors_step _ n nd q l); [|exact Hp|].
    + rewrite Hs; [exact Hn|left].
    + apply IH. intros k Hk. apply Hs. now right.
Qed.




Lemma set_subpath_same nd : set_subpath (subpath nd) nd = nd.
Proof. now destruct nd. Qed.

(** [setParent] with the parent the node has only renames the node. *)
Lemma setParent_same_parent fuel h r rd p s :
  nodes h !! r = Some rd -> _parent rd = Some p ->
  exists h',
    setParent fuel h r (Some p) (Some s) = Ok h' /\
    nodes h' = <[r := set_subpath s rd]> (nodes h) /\
    events h' = events h /\ nextNodeId h' = nextNodeId h.
Proof.
  intros Hr Hp. unfold setParent. rewrite (getNode_lookup _ _ _ Hr).
  cbn [mbind Result_bind]. rewrite Hp.
  rewrite (bool_decide_eq_true_2 (Some p = Some p)) by reflexivity.
  cbn [andb].
  destruct (bool_decide (Some (subpath rd) = Some s)) eqn:Hs.
  - apply bool_decide_eq_true in Hs. injection Hs as <-.
    exists h. split; [reflexivity|]. split; [|auto].
    rewrite set_subpath_same. symmetry. now apply insert_id.
  - rewrite (bool_decide_eq_false_2 (p <> p)) by congruence.
    cbn [mbind Result_bind].
    rewrite (bool_decide_eq_false_2 (Some p = None)) by discriminate.
    cbn [andb mbind Result_bind default].
    rewrite (bool_decide_eq_false_2 (Some p <> Some p)) by congruence.
    eexists. split; [reflexivity|]. auto.
Qed.

(** The loop that renames the items behind a splice: each of them gets the
    sub path of its new index, and nothing else changes. *)
Lemma repathRemaining_spec fuel p shift : forall rest h j,
  NoDup rest ->
  (forall r, r ∈ rest ->
     exists rd, nodes h !! r = Some rd /\ _parent rd = Some p) ->
  exists h',
    repathRemaining fuel h p j shift rest = Ok h' /\
    events h' = events h /\ nextNodeId h' = nextNodeId h /\
    (forall k, k ∉ rest -> nodes h' !! k = nodes h !! k) /\
    (forall idx r, rest !! idx = Some r ->
       exists rd, nodes h !! r = Some rd /\
         nodes h' !! r =
           Some (set_subpath (numToString (j + Z.of_nat idx + shift)) rd)).
Proof.
  induction rest as [|r rest IH]; intros h j Hnd Hall.
  - exists h. simpl. repeat split; auto. intros idx r Hr. discriminate.
  - apply NoDup_cons in Hnd as [Hnotin Hnd].
    destruct (Hall r) as (rd & Hr & Hp); [left|].
    destruct (setParent_same_parent fuel h r rd p (numToString (j + shift))
                Hr Hp) as (h1 & Hset & Hn1 & He1 & Hx1).
    destruct (IH h1 (j + 1) Hnd) as (h' & Hrun & He & Hx & Hother & Hren).
    { intros r' Hr'. destruct (Hall r') as (rd' & Hr'' & Hp'); [now right|].
      exists rd'. split; [|exact Hp']. rewrite Hn1.
      rewrite lookup_insert, decide_False by (intros ->; contradiction).
      exact Hr''. }
    exists h'. cbn [repathRemaining]. rewrite Hset. cbn [mbind Result_bind].
    split; [exact Hrun|]. split; [congruence|]. split; [congruence|]. split.
    + intros k Hk. rewrite Hother by (intros Hin; apply Hk; now right).
      rewrite Hn1. rewrite lookup_insert, decide_False; [reflexivity|].
      intros ->. apply Hk. left.
    + intros idx r' Hidx. destruct idx as [|idx]; simpl in Hidx.
      * injection Hidx as <-. exists rd. split; [exact Hr|].
        rewrite Hother by exact Hnotin. rewrite Hn1.
        rewrite lookup_insert, decide_True by reflexivity.
        do 3 f_equal. lia.
      * destruct (Hren idx r' Hidx) as (rd' & Hr1 & Hr2).
        exists rd'. split.
        -- rewrite Hn1 in Hr1.
           rewrite lookup_insert, decide_False in Hr1; [exact Hr1|].
           intros ->. apply Hnotin. eapply list_elem_of_lookup_2; eassumption.
        -- rewrite Hr2. do 3 f_equal. lia.
Qed.




Lemma getChildren_array h p pd subType items observed :
  nodes h !! p = Some pd -> _isAlive pd = true ->
  type pd = ArrayType subType -> storedValue pd = SArray items observed ->
  getChildren h p = Ok items.
Proof.
  intros Hp Ha Ht Hs. unfold getChildren, assertAlive.
  rewrite (getNode_lookup _ _ _ Hp). cbn [mbind Result_bind]. rewrite Ha.
  cbn [mbind Result_bind].
  unfold type_getChildren, ArrayType_getChildren. now rewrite Ht, Hs.
Qed.

Lemma assertWritable_alive fuel h p pd :
  nodes h !! p = Some pd -> assertWritable fuel h p = Ok tt ->
  _isAlive pd = true.
Proof.
  intros Hp Hw. unfold assertWritable, assertAlive in Hw.
  rewrite (getNode_lookup _ _ _ Hp) in Hw. cbn [mbind Result_bind] in Hw.
  destruct (_isAlive pd); [reflexivity|discriminate].
Qed.

Lemma bubble_agree h1 h2 patch l : forall rel n,
  (forall k, k ∈ n :: l ->
     patchSubscribers (nodeOf h2 k) = patchSubscribers (nodeOf h1 k) /\
     subpath (nodeOf h2 k) = subpath (nodeOf h1 k)) ->
  bubble h2 patch rel n l = bubble h1 patch rel n l.
Proof.
  induction l as [|p l IH]; intros rel n Hk; cbn [bubble];
    (destruct (Hk n) as [E1 E2]; [left|]); rewrite E1; [reflexivity|].
  rewrite E2. f_equal. apply IH. intros k Hin. apply Hk. now right.
Qed.


Lemma ancestors_det h n l1 :
  ancestors h n l1 -> forall l2, ancestors h n l2 -> l1 = l2.
Proof.
  induction 1 as [n nd Hn Hp|n nd p l Hn Hp Hanc IH]; intros l2 H2;
    destruct H2 as [n nd2 Hn2 Hp2|n nd2 p2 l2 Hn2 Hp2 Hanc2];
    try reflexivity; try congruence.
  assert (p2 = p) by congruence. subst p2. f_equal. now apply IH.
Qed.

(** No node on the way from an array to its root is an item of the array. *)
Lemma items_off_chain h p l (items : list nodeId) :
  ancestors h p l ->
  (forall c, c ∈ items ->
     exists cd, nodes h !! c = Some cd /\ _parent cd = Some p) ->
  forall k, k ∈ p :: l -> k ∉ items.
Proof.
  intros Ha Hit k Hk Hin. destruct (Hit k Hin) as (cd & Hcd & Hpar).
  assert (Hak : exists lk, ancestors h k lk /\ (length lk <= length l)%nat).
  { apply elem_of_cons in Hk as [->|Hk]; [eauto|].
    apply list_elem_of_lookup in Hk as [j Hj]. exists (drop (S j) l).
    split; [eapply ancestors_suffix; eassumption|].
    rewrite length_drop. lia. }
  destruct Hak as (lk & Hak & Hlen).
  destruct Hak as [k nd0 Hk0 Hp0|k nd0 p0 l0 Hk0 Hp0 Hanc0]; [congruence|].
  assert (p0 = p) by congruence. subst p0.
  rewrite (ancestors_det _ _ _ Hanc0 _ Ha) in Hlen. simpl in Hlen. lia.
Qed.

Lemma placed_items_have_parent h p items :
  itemsWellPlaced h p items ->
  forall c, c ∈ items ->
    exists cd, nodes h !! c = Some cd /\ _parent cd = Some p.
Proof.
  intros [_ Hpl] c Hc. apply list_elem_of_lookup in Hc as [j Hj].
  destruct (Hpl _ _ Hj) as (cd & ? & ? & _). eauto.
Qed.





(** *** Arrays in place: destroying an item *)






(** *** Arrays of primitives *)

(** Instantiating a primitive with a descriptor that keeps values as they
    are allocates one node and changes nothing else. *)
Lemma instantiate_primitive fuel depth t h parent sp v :
  isPlainType t = true -> isPrimitive v = true ->
  exists h',
    instantiate (childTypeOf fuel (S depth) t) h (Some parent) sp VUndefined v
      = Ok (S (nextNodeId h), h') /\
    nodes h' =
      <[S (nextNodeId h) :=
          newNode t (Some parent) sp VUndefined (SPlain v false)]> (nodes h) /\
    nextNodeId h' = S (nextNodeId h) /\ events h' = events h.
Proof.
  intros Ht Hv.
  assert (Hnode : isStateTreeNode v = false) by (now destruct v).
  assert (Hfr : deepFreeze v = v) by (now destruct v).
  assert (Hid : identityInstance v = SPlain v false) by (now destruct v).
  assert (Hgen : exists h',
            createNode fuel t h (Some parent) sp VUndefined v
              identityInstance noop = Ok (S (nextNodeId h), h') /\
            nodes h' =
              <[S (nextNodeId h) :=
                  newNode t (Some parent) sp VUndefined (SPlain v false)]>
                (nodes h) /\
            nextNodeId h' = S (nextNodeId h) /\ events h' = events h).
  { rewrite createNode_new by exact Hnode. cbv zeta. rewrite Hid.
    set (node := S (nextNodeId h)).
    set (nd0 := newNode t (Some parent) sp VUndefined (SPlain v false)).
    set (h1 := mkStore (<[node := nd0]> (nodes h)) node (events h)).
    assert (Hn1 : nodes h1 !! node = Some nd0).
    { unfold h1. cbn [nodes]. now rewrite lookup_insert, decide_True. }
    set (h2 := setNode node (set_isRunningAction true nd0) h1).
    set (h3 := setNode node nd0 h2).
    assert (Hps : pseudoAction h1 node (fun h0 => noop h0 node v) = Ok h3).
    { unfold pseudoAction, update, noop.
      rewrite (getNode_lookup _ _ _ Hn1). cbn [mbind Result_bind].
      fold h2.
      assert (Hn2 : nodes h2 !! node = Some (set_isRunningAction true nd0))
        by (unfold h2; now rewrite lookup_setNode, decide_True).
      now rewrite (getNode_lookup _ _ _ Hn2). }
    assert (Hn3 : nodes h3 !! node = Some nd0).
    { unfold h3. now rewrite lookup_setNode, decide_True. }
    assert (Hhook : forall name, fireHook h3 node name = Ok h3).
    { intros name. unfold fireHook. rewrite (getNode_lookup _ _ _ Hn3).
      cbn [mbind Result_bind]. unfold nd0. cbn [newNode storedValue].
      now destruct v. }
    rewrite Hps. cbn [mbind Result_bind]. rewrite Hhook.
    cbn [mbind Result_bind].
    rewrite (bool_decide_eq_true_2 (Some parent <> None)) by discriminate.
    rewrite Hhook. cbn [mbind Result_bind].
    exists h3. split; [reflexivity|]. split; [|auto].
    unfold h3, h2, h1. cbn [setNode nodes]. apply insert_thrice. }
  cbn [childTypeOf instantiate].
  destruct t; try discriminate;
    unfold Frozen_instantiate, CoreType_instantiate; rewrite ?Hfr;
    exact Hgen.
Qed.

Lemma reconcileValue_primitive fuel childType parent byId st v sp :
  isPrimitive v = true ->
  reconcileValue fuel childType parent byId st v sp =
    ('(n, h1) ← instantiate childType (store st) (Some parent) sp VUndefined
                  v;
     Ok (mkReconcileState (res st ++ [n]) (nodesToBeKilled st) h1)).
Proof. intros Hv. destruct v; try discriminate; reflexivity. Qed.

(** The loop over new values that are all primitives: one fresh node for
    each, in order, under the sub path of its index. *)
Lemma run_primitives fuel depth t parent byId newPaths : forall vs index st,
  isPlainType t = true -> Forall (fun v => isPrimitive v = true) vs ->
  exists st',
    reconcileValues fuel (childTypeOf fuel (S depth) t) parent byId newPaths
      index vs st = Ok st' /\
    res st' = (res st ++ freshIds (store st) (length vs))%list /\
    nodesToBeKilled st' = nodesToBeKilled st /\
    nextNodeId (store st') = (nextNodeId (store st) + length vs)%nat /\
    events (store st') = events (store st) /\
    (forall k, (k <= nextNodeId (store st))%nat ->
       nodes (store st') !! k = nodes (store st) !! k) /\
    (forall j v, vs !! j = Some v ->
       nodes (store st') !! S (nextNodeId (store st) + j) =
         Some (newNode t (Some parent) (subPathAt newPaths (index + j))
                 VUndefined (SPlain v false))).
Proof.
  induction vs as [|v vs IH]; intros index st Ht Hvs.
  - exists st. cbn [reconcileValues length]. unfold freshIds. cbn [seq].
    rewrite app_nil_r, Nat.add_0_r. repeat split; auto.
    intros j v Hj. discriminate.
  - apply Forall_cons in Hvs as [Hv Hvs].
    destruct (instantiate_primitive fuel depth t (store st) parent
                (subPathAt newPaths index) v Ht Hv)
      as (h1 & Hinst & Hn1 & Hx1 & He1).
    set (st1 := mkReconcileState (res st ++ [S (nextNodeId (store st))])
                  (nodesToBeKilled st) h1).
    destruct (IH (S index) st1 Ht Hvs)
      as (st' & Hrun & Hres & Hntk & Hx & He & Hold & Hnew).
    exists st'. cbn [reconcileValues].
    rewrite reconcileValue_primitive by exact Hv. rewrite Hinst.
    cbn [mbind Result_bind]. fold st1.
    split; [exact Hrun|]. split.
    { rewrite Hres. unfold st1, freshIds. cbn [res store length seq].
      rewrite Hx1, <- app_assoc. reflexivity. }
    split; [exact Hntk|]. split.
    { rewrite Hx. unfold st1. cbn [store length]. rewrite Hx1. lia. }
    split; [rewrite He; unfold st1; cbn [store]; exact He1|]. split.
    + intros k Hk. rewrite Hold by (unfold st1; cbn [store]; lia).
      unfold st1. cbn [store]. rewrite Hn1.
      rewrite lookup_insert, decide_False by lia. reflexivity.
    + intros j v' Hj. destruct j as [|j]; simpl in Hj.
      * injection Hj as <-. rewrite !Nat.add_0_r.
        rewrite Hold by (unfold st1; cbn [store]; lia).
        unfold st1. cbn [store]. rewrite Hn1.
        now rewrite lookup_insert, decide_True.
      * specialize (Hnew j v' Hj). unfold st1 in Hnew. cbn [store] in Hnew.
        rewrite Hx1 in Hnew.
        replace (S (nextNodeId (store st) + S j))
          with (S (S (nextNodeId (store st)) + j)) by lia.
        rewrite Hnew. do 3 f_equal. lia.
Qed.

Lemma kill_plain fuel : forall cs h,
  (forall c, c ∈ cs ->
     exists cd, nodes h !! c = Some cd /\
                storedIsStateTreeNode (storedValue cd) = false) ->
  foldResult (die fuel) h cs = Ok h.
Proof.
  induction cs as [|c cs IH]; intros h Hall; [reflexivity|].
  cbn [foldResult]. destruct (Hall c) as (cd & Hcd & Hplain); [left|].
  assert (Hd : die fuel h c = Ok h).
  { unfold die. rewrite (getNode_lookup _ _ _ Hcd).
    cbn [mbind Result_bind]. rewrite Hplain.
    now destruct (_isDetaching cd). }
  rewrite Hd. cbn [mbind Result_bind].
  apply IH. intros c' Hc'. apply Hall. now right.
Qed.

Lemma indexOldNodes_total h : forall old acc,
  (forall c, c ∈ old -> is_Some (nodes h !! c)) ->
  exists r, foldResult (indexOldNode h) acc old = Ok r.
Proof.
  induction old as [|c old IH]; intros acc Hall; [eexists; reflexivity|].
  cbn [foldResult]. destruct (Hall c) as [cd Hcd]; [left|].
  assert (Hi : exists r, indexOldNode h acc c = Ok r).
  { unfold indexOldNode. rewrite (getNode_lookup _ _ _ Hcd).
    cbn [mbind Result_bind]. destruct acc as [byId ntk]. eauto. }
  destruct Hi as [r Hi]. rewrite Hi. cbn [mbind Result_bind].
  apply IH. intros c' Hc'. apply Hall. now right.
Qed.

Lemma reconcile_primitives fuel depth t parent h old vs newPaths :
  isPlainType t = true -> Forall (fun v => isPrimitive v = true) vs ->
  bounded h ->
  (forall c, c ∈ old ->
     exists cd, nodes h !! c = Some cd /\
                storedIsStateTreeNode (storedValue cd) = false) ->
  exists h',
    reconcileArrayChildren fuel (childTypeOf fuel (S depth) t) parent h old
      vs newPaths = Ok (freshIds h (length vs), h') /\
    nextNodeId h' = (nextNodeId h + length vs)%nat /\
    events h' = events h /\
    (forall k, (k <= nextNodeId h)%nat -> nodes h' !! k = nodes h !! k) /\
    (forall j v, vs !! j = Some v ->
       nodes h' !! S (nextNodeId h + j) =
         Some (newNode t (Some parent) (subPathAt newPaths j) VUndefined
                 (SPlain v false))).
Proof.
  intros Ht Hvs Hb Hold. unfold reconcileArrayChildren.
  destruct (indexOldNodes_total h old ([], [])) as [[byId ntk] Hidx].
  { intros c Hc. destruct (Hold c Hc) as (cd & Hcd & _). eauto. }
  rewrite Hidx. cbn [mbind Result_bind].
  destruct (run_primitives fuel depth t parent byId newPaths vs 0%nat
              (mkReconcileState [] ntk h) Ht Hvs)
    as (st' & Hrun & Hres & Hntk & Hx & He & Hkeep & Hnew).
  cbn [store res nodesToBeKilled app] in Hres, Hntk, Hx, He, Hkeep, Hnew.
  rewrite Hrun. cbn [mbind Result_bind]. rewrite Hntk.
  destruct (killed_initially _ _ _ _ Hidx) as (Hu & _ & Hinv).
  rewrite kill_plain.
  - cbn [mbind Result_bind]. rewrite Hres. exists (store st').
    split; [reflexivity|]. auto.
  - intros c Hc. apply nonReconciled_elem_of in Hc; [|exact Hu|].
    + destruct (Hinv _ _ Hc) as (c2 & Hc2 & Ek & _).
      apply natToString_inj in Ek. subst c2.
      destruct (Hold c Hc2) as (cd & Hcd & Hplain).
      exists cd. split; [|exact Hplain]. rewrite Hkeep; [exact Hcd|].
      apply Hb. eauto.
    + intros k x Hk. destruct (Hinv _ _ Hk) as (c2 & _ & -> & E).
      now injection E as <-.
Qed.

Lemma subPathAt_imap {A} (i : nat) (vs : list A) j v :
  vs !! j = Some v ->
  subPathAt (imap (fun j (_ : A) => Z.of_nat i + Z.of_nat j) vs) j
    = natToString (i + j).
Proof.
  intros Hj. unfold subPathAt. rewrite list_lookup_imap, Hj. cbn.
  rewrite <- numToString_of_nat. f_equal. lia.
Qed.

(** A run of patches emitted one after the other by the same node. *)
Lemma fold_emitPatch_bubbles fuel g p l :
  ancestors g p l -> (2 * length l < fuel)%nat ->
  forall ps es,
  foldResult (fun h patch => emitPatch fuel h p patch p) (emitAll es g) ps =
    Ok (emitAll (es ++ flat_map (fun patch => bubble g patch "" p l) ps) g).
Proof.
  intros Ha Hf. induction ps as [|patch ps IH]; intros es.
  - cbn [foldResult flat_map]. now rewrite app_nil_r.
  - cbn [foldResult flat_map].
    rewrite (emitPatch_bubbles g p l patch p l Ha Ha fuel "" es);
      [|lia|symmetry; apply string_app_nil_r].
    cbn [mbind Result_bind]. rewrite IH. now rewrite <- app_assoc.
Qed.

Lemma snapshot_primitive fuel h c v :
  primitiveItem h c v -> snapshot (S fuel) h c = Ok v.
Proof.
  intros (cd & Hcd & Hs & Hv & Ht & Ha & Hl). cbn [snapshot].
  rewrite (getNode_lookup _ _ _ Hcd). cbn [mbind Result_bind].
  rewrite Hl, Ha. cbn [negb]. unfold Type_getSnapshot. rewrite Hs.
  destruct (type cd); try discriminate; cbn [mbind Result_bind];
    now destruct v.
Qed.

Lemma mapResult_snapshot_primitives fuel h : forall items vals,
  Forall2 (primitiveItem h) items vals ->
  mapResult (snapshot (S fuel) h) items = Ok vals.
Proof.
  induction 1 as [|c v items vals Hc Hrest IH]; [reflexivity|].
  cbn [mapResult]. rewrite (snapshot_primitive _ _ _ _ Hc).
  cbn [mbind Result_bind]. now rewrite IH.
Qed.

(** The snapshot of an array of primitives is the frozen list of them. *)
Lemma snapshot_primitiveArray fuel h p pd t items observed vals :
  nodes h !! p = Some pd -> type pd = ArrayType t ->
  storedValue pd = SArray items observed -> _isAlive pd = true ->
  lastSnapshot pd = None ->
  Forall2 (primitiveItem h) items vals ->
  snapshot (S (S fuel)) h p = Ok (VFrozen (VArr vals)).
Proof.
  intros Hp Ht Hs Ha Hl Hvals.
  change (snapshot (S (S fuel)) h p) with
    (nd ← getNode h p;
     match lastSnapshot nd with
     | Some s => Ok s
     | None =>
         if negb (_isAlive nd) then Ok VUndefined
         else
           v ← match type nd with
               | ArrayType _ =>
                   children ← getChildren h p;
                   snaps ← mapResult (snapshot (S fuel) h) children;
                   Ok (VArr snaps)
               | _ => Type_getSnapshot h nd
               end;
           Ok (freeze v)
     end).
  rewrite (getNode_lookup _ _ _ Hp). cbn [mbind Result_bind].
  rewrite Hl, Ha, Ht. cbn [negb].
  rewrite (getChildren_array _ _ _ _ _ _ Hp Ha Ht Hs).
  cbn [mbind Result_bind].
  rewrite (mapResult_snapshot_primitives _ _ _ _ Hvals). reflexivity.
Qed.

Lemma primitiveItem_moved h h' c v cd s :
  nodes h !! c = Some cd -> nodes h' !! c = Some (set_subpath s cd) ->
  primitiveItem h c v -> primitiveItem h' c v.
Proof.
  intros Hc Hc' (cd0 & Hcd0 & Hprops). assert (cd0 = cd) by congruence.
  subst cd0. exists (set_subpath s cd). split; [exact Hc'|exact Hprops].
Qed.

Lemma primitiveItem_same h h' c v :
  nodes h' !! c = nodes h !! c -> primitiveItem h c v -> primitiveItem h' c v.
Proof.
  intros E (cd & Hcd & Hprops). exists cd. split; [|exact Hprops].
  now rewrite E.
Qed.

Lemma clamp_bounds len index deleteCount :
  (clampIndex len index <= len)%nat /\
  (clampIndex len index + clampCount len (clampIndex len index) deleteCount
     <= len)%nat.
Proof.
  unfold clampIndex, clampCount.
  destruct (Z.gtb_spec index (Z.of_nat len));
    [|destruct (Z.ltb_spec index 0)]; lia.
Qed.

Lemma run_primitives_above fuel depth t parent byId newPaths :
  isPlainType t = true ->
  forall vs index st st',
  Forall (fun v => isPrimitive v = true) vs ->
  reconcileValues fuel (childTypeOf fuel (S depth) t) parent byId newPaths
    index vs st = Ok st' ->
  forall x, (nextNodeId (store st) + length vs < x)%nat ->
    nodes (store st') !! x = nodes (store st) !! x.
Proof.
  intros Ht. induction vs as [|v vs IH]; intros index st st' Hvs H x Hx.
  - cbn [reconcileValues] in H. now injection H as <-.
  - apply Forall_cons in Hvs as [Hv Hvs].
    destruct (instantiate_primitive fuel depth t (store st) parent
                (subPathAt newPaths index) v Ht Hv)
      as (h1 & Hinst & Hn1 & Hx1 & He1).
    cbn [reconcileValues] in H.
    rewrite reconcileValue_primitive in H by exact Hv. rewrite Hinst in H.
    cbn [mbind Result_bind] in H.
    rewrite (IH _ _ _ Hvs H) by (cbn [store length] in *; lia).
    cbn [store]. rewrite Hn1.
    rewrite lookup_insert, decide_False by (cbn [length] in Hx; lia).
    reflexivity.
Qed.

Lemma reconcile_primitives_above fuel depth t parent h old vs newPaths r h' :
  isPlainType t = true -> Forall (fun v => isPrimitive v = true) vs ->
  (forall c, c ∈ old ->
     exists cd, nodes h !! c = Some cd /\
                storedIsStateTreeNode (storedValue cd) = false) ->
  bounded h ->
  reconcileArrayChildren fuel (childTypeOf fuel (S depth) t) parent h old
    vs newPaths = Ok (r, h') ->
  forall x, (nextNodeId h + length vs < x)%nat -> nodes h' !! x = None.
Proof.
  intros Ht Hvs Hold Hb H x Hx.
  destruct (reconcile_primitives fuel depth t parent h old vs newPaths Ht Hvs
              Hb Hold) as (h2 & Hrec & _).
  rewrite Hrec in H. injection H as _ <-.
  unfold reconcileArrayChildren in Hrec. inv_bind Hrec.
  destruct a as [byId ntk]. inv_bind Hrec. inv_bind Hrec.
  injection Hrec as _ <-.
  pose proof (run_primitives_above fuel depth t parent byId newPaths Ht vs
                0%nat _ _ Hvs Ha0 x) as Hab.
  cbn [store] in Hab.
  assert (Hkill : a0 = store a).
  { destruct (run_primitives fuel depth t parent byId newPaths vs 0%nat
                (mkReconcileState [] ntk h) Ht Hvs)
      as (st' & Hrun & _ & Hntk & _ & _ & Hkeep & _).
    rewrite Hrun in Ha0. injection Ha0 as <-.
    cbn [store nodesToBeKilled] in Hntk, Hkeep.
    destruct (killed_initially _ _ _ _ Ha) as (Hu & _ & Hinv).
    rewrite kill_plain in Ha1; [now injection Ha1|].
    rewrite Hntk. intros c Hc.
    apply nonReconciled_elem_of in Hc; [|exact Hu|].
    - destruct (Hinv _ _ Hc) as (c2 & Hc2 & Ek & _).
      apply natToString_inj in Ek. subst c2.
      destruct (Hold c Hc2) as (cd & Hcd & Hplain).
      exists cd. split; [|exact Hplain]. rewrite Hkeep; [exact Hcd|].
      apply Hb. eauto.
    - intros k0 x0 Hk0. destruct (Hinv _ _ Hk0) as (c2 & _ & -> & E).
      now injection E as <-. }
  rewrite Hkill, Hab by exact Hx.
  destruct (nodes h !! x) as [xd|] eqn:E; [|reflexivity].
  assert (x <= nextNodeId h)%nat by (apply Hb; eauto). lia.
Qed.

Lemma fold_emitPatch_bubbles_start fuel g p l ps :
  ancestors g p l -> (2 * length l < fuel)%nat ->
  foldResult (fun h patch => emitPatch fuel h p patch p) g ps =
    Ok (emitAll (flat_map (fun patch => bubble g patch "" p l) ps) g).
Proof.
  intros Ha Hf. rewrite <- (emitAll_nil g) at 1.
  now rewrite (fold_emitPatch_bubbles fuel g p l Ha Hf).
Qed.

(** A splice of primitives into an array of primitives, by the numbers the
    observable array clamps its arguments to. *)
Lemma spliceWithArray_primitives fuel depth h p pd t items observed l vals
    index deleteCount vs i k :
  nodes h !! p = Some pd -> type pd = ArrayType t -> isPlainType t = true ->
  storedValue pd = SArray items observed ->
  ancestors h p l -> (2 * length l < fuel)%nat ->
  assertWritable fuel h p = Ok tt ->
  primitiveArray h p items vals -> bounded h ->
  Forall (fun v => isPrimitive v = true) vs ->
  i = clampIndex (length items) index ->
  k = clampCount (length items) i deleteCount ->
  exists h',
    spliceWithArray fuel (childTypeOf fuel (S depth) t) h p index deleteCount
      vs = Ok h' /\
    nodes h' !! p =
      Some (set_storedValue
              (SArray (take i items ++ freshIds h (length vs) ++
                       drop (i + k) items) observed) pd) /\
    primitiveArray h' p
      (take i items ++ freshIds h (length vs) ++ drop (i + k) items)
      (take i vals ++ vs ++ drop (i + k) vals) /\
    bounded h' /\ nextNodeId h' = (nextNodeId h + length vs)%nat /\
    (forall x, x <> p -> x ∉ drop (i + k) items ->
       (x <= nextNodeId h)%nat -> nodes h' !! x = nodes h !! x) /\
    events h' =
      (events h ++
       if observed
       then flat_map (fun patch => bubble h patch "" p l)
              (splicePatches i k vs)
       else [])%list.
Proof.
  intros Hp Ht Hplain Hs Ha Hf Hw [Hwp Hvals] Hb Hvs Ei Ek.
  pose proof Hwp as [Hnd Hplaced].
  destruct (clamp_bounds (length items) index deleteCount) as [Hi Hik].
  rewrite <- Ei in Hi, Hik. rewrite <- Ek in Hik.
  pose proof (assertWritable_alive _ _ _ _ Hp Hw) as Halive.
  pose proof (items_off_chain h p l items Ha
                (placed_items_have_parent _ _ _ Hwp)) as Hdisj.
  assert (Hpn : p ∉ items) by (apply Hdisj; left).
  assert (Hple : (p <= nextNodeId h)%nat) by (apply Hb; eauto).
  assert (Hile : forall c, c ∈ items -> (c <= nextNodeId h)%nat).
  { intros c Hc. apply list_elem_of_lookup in Hc as [j Hj].
    destruct (Hplaced _ _ Hj) as (cd & Hcd & _). apply Hb. eauto. }
  assert (Hprim : forall j c, items !! j = Some c ->
                    exists v, vals !! j = Some v /\ primitiveItem h c v).
  { intros j c Hj. eapply Forall2_lookup_l; eassumption. }
  set (m := length vs).
  set (fresh := freshIds h m).
  set (rest := drop (i + k) items).
  set (items' := (take i items ++ fresh ++ rest)%list).
  (* reconciliation *)
  destruct (reconcile_primitives fuel depth t p h (take k (drop i items)) vs
              (imap (fun j _ => Z.of_nat i + Z.of_nat j) vs) Hplain Hvs Hb)
    as (g1 & Hrec & Hx1 & He1 & Hkeep1 & Hnew1).
  { intros c Hc. apply (subseteq_take k (drop i items)), (subseteq_drop i items) in Hc.
    apply list_elem_of_lookup in Hc as [j Hj].
    destruct (Hprim _ _ Hj) as (v & _ & cd & Hcd & Hsv & _).
    exists cd. split; [exact Hcd|]. now rewrite Hsv. }
  (* the items behind the splice *)
  assert (Hndrest : NoDup rest).
  { eapply sublist_NoDup; [exact Hnd|apply sublist_drop]. }
  destruct (repathRemaining_spec fuel p (Z.of_nat (length vs) - Z.of_nat k)
              rest g1 (Z.of_nat (i + k)) Hndrest)
    as (g2 & Hrep & He2 & Hx2 & Hother2 & Hren2).
  { intros r Hr. apply (subseteq_drop (i + k) items) in Hr.
    destruct (placed_items_have_parent _ _ _ Hwp r Hr) as (rd & Hrd & Hrp).
    exists rd. split; [|exact Hrp]. rewrite Hkeep1; [exact Hrd|].
    now apply Hile. }
  assert (Hfresh_rest : forall x, (nextNodeId h < x)%nat -> x ∉ rest).
  { intros x Hx Hin. apply (subseteq_drop (i + k) items), Hile in Hin. lia. }
  assert (Hp2 : nodes g2 !! p = Some pd).
  { rewrite Hother2; [rewrite Hkeep1; [exact Hp|exact Hple]|].
    intros Hin. apply Hpn. exact (subseteq_drop _ _ _ Hin). }
  set (pd' := set_storedValue (SArray items' observed) pd).
  set (g3 := setNode p pd' g2).
  assert (Hp3 : nodes g3 !! p = Some pd')
    by (unfold g3; now rewrite lookup_setNode, decide_True).
  assert (Hl3 : forall x, x <> p -> nodes g3 !! x = nodes g2 !! x).
  { intros x Hx. unfold g3. now rewrite lookup_setNode, decide_False. }
  assert (Hkeep3 : forall x, x <> p -> x ∉ rest -> (x <= nextNodeId h)%nat ->
                     nodes g3 !! x = nodes h !! x).
  { intros x Hxp Hxr Hx. rewrite Hl3, Hother2, Hkeep1; auto. }
  assert (Hfresh3 : forall j v, vs !! j = Some v ->
            nodes g3 !! S (nextNodeId h + j) =
              Some (newNode t (Some p) (natToString (i + j)) VUndefined
                      (SPlain v false))).
  { intros j v Hj. rewrite Hl3 by lia.
    rewrite Hother2 by (apply Hfresh_rest; lia).
    rewrite (Hnew1 j v Hj). now rewrite (subPathAt_imap i vs j v Hj). }
  assert (Hbehind3 : forall j c, (i + k <= j)%nat -> items !! j = Some c ->
            exists cd, nodes h !! c = Some cd /\
              nodes g3 !! c =
                Some (set_subpath (natToString (j - k + m)) cd)).
  { intros j c Hj Hc.
    assert (Hidx : rest !! (j - (i + k))%nat = Some c).
    { unfold rest. rewrite lookup_drop, <- Hc. f_equal. lia. }
    destruct (Hren2 _ _ Hidx) as (cd & Hcd & Hc2).
    assert (Hcin : c ∈ items)
      by (eapply list_elem_of_lookup_2; eassumption).
    rewrite Hkeep1 in Hcd by (now apply Hile).
    exists cd. split; [exact Hcd|].
    rewrite Hl3 by (intros ->; contradiction). rewrite Hc2.
    do 2 f_equal. rewrite <- numToString_of_nat. f_equal. unfold m. lia. }
  assert (Ha3 : ancestors g3 p l).
  { unfold g3. apply (ancestors_setNode _ _ pd); [exact Hp2|reflexivity|].
    apply (ancestors_sameAt h); [exact Ha|].
    intros x Hx. rewrite Hother2.
    - apply Hkeep1, Hb.
      destruct (ancestors_lookup _ _ _ Ha) as [pd0 Hpd0].
      apply elem_of_cons in Hx as [->|Hx]; [eauto|].
      apply list_elem_of_lookup in Hx as [j Hj].
      destruct (ancestors_lookup _ _ _ (ancestors_suffix _ _ _ Ha _ _ Hj));
        eauto.
    - intros Hin. apply (Hdisj x Hx). exact (subseteq_drop _ _ _ Hin). }
  (* the new array holds primitives *)
  assert (Hfresh2 : Forall2 (primitiveItem g3) fresh vs).
  { apply Forall2_same_length_lookup_2.
    - unfold fresh, freshIds. now rewrite length_seq.
    - intros j c v Hc Hv. unfold fresh, freshIds in Hc.
      apply lookup_seq in Hc as [-> _].
      eexists. split; [exact (Hfresh3 j v Hv)|].
      rewrite Forall_forall in Hvs.
      assert (Hvin : v ∈ vs) by (eapply list_elem_of_lookup_2; eassumption).
      repeat split; cbn [newNode storedValue type _isAlive lastSnapshot];
        auto. }
  assert (Hfront : forall j c, (j < i)%nat -> items !! j = Some c ->
                     nodes g3 !! c = nodes h !! c).
  { intros j c Hj Hc.
    assert (Hcin : c ∈ items)
      by (eapply list_elem_of_lookup_2; eassumption).
    apply Hkeep3; [intros ->; contradiction| |now apply Hile].
    intros Hin. apply list_elem_of_lookup in Hin as [j' Hj'].
    unfold rest in Hj'. rewrite lookup_drop in Hj'.
    pose proof (NoDup_lookup _ _ _ _ Hnd Hc Hj'). lia. }
  assert (Hlenv : length vals = length items)
    by (symmetry; eapply Forall2_length; eassumption).
  assert (Hvals' : Forall2 (primitiveItem g3) items'
                     (take i vals ++ vs ++ drop (i + k) vals)).
  { unfold items'. apply Forall2_app; [|apply Forall2_app].
    - apply Forall2_same_length_lookup_2;
        [rewrite !length_take; lia|].
      intros j c v Hc Hv. apply lookup_take_Some in Hc as [Hc Hj].
      apply lookup_take_Some in Hv as [Hv _].
      destruct (Hprim _ _ Hc) as (v' & Hv' & Hpi).
      assert (v' = v) by congruence. subst v'.
      apply (primitiveItem_same h); [now apply (Hfront j)|exact Hpi].
    - exact Hfresh2.
    - apply Forall2_same_length_lookup_2;
        [unfold rest; rewrite !length_drop; lia|].
      intros j c v Hc Hv. unfold rest in Hc.
      rewrite lookup_drop in Hc. rewrite lookup_drop in Hv.
      destruct (Hprim _ _ Hc) as (v' & Hv' & Hpi).
      assert (v' = v) by congruence. subst v'.
      destruct (Hbehind3 (i + k + j)%nat c) as (cd & Hcd & Hc3);
        [lia|exact Hc|].
      exact (primitiveItem_moved h g3 c v cd _ Hcd Hc3 Hpi). }
  assert (Hlenf : length fresh = m)
    by (unfold fresh, freshIds; now rewrite length_seq).
  assert (Hlent : length (take i items) = i)
    by (rewrite length_take; lia).
  (* the listener *)
  assert (Hfin : exists g',
            (if (bool_decide (k <> O) || bool_decide (fresh <> []))
                && isObserved pd'
             then didChange fuel g3 p (DidSplice i k (length fresh))
             else Ok g3) = Ok g' /\
            nodes g' = nodes g3 /\ nextNodeId g' = nextNodeId g3 /\
            events g' =
              (events g3 ++
               if observed
               then flat_map (fun patch => bubble h patch "" p l)
                      (splicePatches i k vs)
               else [])%list).
  { assert (Hobs : isObserved pd' = observed) by reflexivity.
    rewrite Hobs. destruct observed;
      [|rewrite andb_false_r; exists g3; rewrite app_nil_r; auto].
    rewrite andb_true_r.
    assert (Hbub : forall patch,
              bubble g3 patch "" p l = bubble h patch "" p l).
    { intros patch. apply bubble_agree. intros x Hx. unfold nodeOf.
      destruct (decide (x = p)) as [->|Hne].
      - rewrite Hp3, Hp. auto.
      - rewrite Hkeep3; auto.
        + intros Hin. apply (Hdisj x Hx). exact (subseteq_drop _ _ _ Hin).
        + apply Hb.
          apply elem_of_cons in Hx as [->|Hx]; [contradiction|].
          apply list_elem_of_lookup in Hx as [j Hj].
          destruct (ancestors_lookup _ _ _
                      (ancestors_suffix _ _ _ Ha _ _ Hj)); eauto. }
    destruct (bool_decide (k <> O) || bool_decide (fresh <> [])) eqn:Hc.
    - cbn [didChange]. rewrite emitRemoves_spec.
      rewrite (fold_emitPatch_bubbles_start fuel g3 p l _ Ha3 Hf).
      cbn [mbind Result_bind]. rewrite Hlenf.
      rewrite (emitAdds_spec fuel g3 p pd' t items' true i Hp3 Halive Ht
                 eq_refl vs 0%nat);
        [|reflexivity| |rewrite Nat.add_0_r; unfold items';
                         rewrite !length_app, Hlent, Hlenf; unfold m; lia].
      + rewrite (fold_emitPatch_bubbles fuel g3 p l Ha3 Hf).
        eexists. split; [reflexivity|]. split; [reflexivity|].
        split; [reflexivity|]. cbn [emitAll events]. f_equal.
        unfold splicePatches. rewrite flat_map_app.
        f_equal; [apply flat_map_ext; intros a; apply Hbub|].
        rewrite (flat_map_ext _ _ Hbub). f_equal.
        apply imap_ext. intros j v _. cbn. now rewrite Nat.add_0_r.
      + rewrite Nat.add_0_r. unfold items'.
        rewrite <- Hlent at 1. rewrite drop_app_length.
        fold m. rewrite <- Hlenf. rewrite take_app_length.
        destruct fuel as [|fuel']; [lia|].
        now apply mapResult_snapshot_primitives.
    - apply orb_false_iff in Hc as [Hk0 Hf0].
      apply bool_decide_eq_false in Hk0, Hf0.
      assert (Hk : k = 0%nat)
        by (destruct k; [reflexivity|exfalso; now apply Hk0]).
      assert (Hvs0 : vs = []).
      { destruct vs; [reflexivity|]. exfalso. apply Hf0. discriminate. }
      exists g3. rewrite Hk, Hvs0. unfold splicePatches.
      cbn [seq rev map imap flat_map app]. rewrite app_nil_r. auto. }
  destruct Hfin as (g' & Hfin & Hn' & Hx' & Hev').
  exists g'. split; [|split; [|split; [|split; [|split; [|split]]]]].
  - unfold spliceWithArray, arrayItems.
    rewrite (getNode_lookup _ _ _ Hp). cbn [mbind Result_bind]. rewrite Hs.
    cbn [mbind Result_bind]. rewrite <- Ei, <- Ek.
    unfold willChange. rewrite Hw. cbn [mbind Result_bind].
    rewrite (getChildren_array _ _ _ _ _ _ Hp Halive Ht Hs).
    cbn [mbind Result_bind]. rewrite Hrec. cbn [mbind Result_bind].
    fold rest. rewrite Hrep. cbn [mbind Result_bind].
    rewrite (getNode_lookup _ _ _ Hp2). cbn [mbind Result_bind].
    rewrite Hs. cbn [mbind Result_bind]. unfold update.
    rewrite (getNode_lookup _ _ _ Hp2). cbn [mbind Result_bind].
    assert (Esi : setItems items' pd = pd')
      by (unfold setItems; now rewrite Hs).
    change (take i items ++ freshIds h (length vs) ++ drop (i + k) items)%list
      with items'.
    rewrite Esi. fold g3. rewrite (getNode_lookup _ _ _ Hp3).
    cbn [mbind Result_bind]. exact Hfin.
  - rewrite Hn'. exact Hp3.
  - split; [split|].
    + (* no item twice *)
      unfold items'. apply NoDup_app. split; [|split].
      * eapply sublist_NoDup; [exact Hnd|apply sublist_take].
      * intros x Hx Hin. apply elem_of_app in Hin as [Hin|Hin].
        -- apply (subseteq_take i items), Hile in Hx.
           unfold fresh, freshIds in Hin. apply elem_of_seq in Hin. lia.
        -- apply list_elem_of_lookup in Hx as [j Hj].
           apply lookup_take_Some in Hj as [Hj Hji].
           apply list_elem_of_lookup in Hin as [j' Hj'].
           unfold rest in Hj'. rewrite lookup_drop in Hj'.
           pose proof (NoDup_lookup _ _ _ _ Hnd Hj Hj'). lia.
      * apply NoDup_app. split; [apply NoDup_seq|]. split; [|exact Hndrest].
        intros x Hx. apply Hfresh_rest.
        unfold fresh, freshIds in Hx. apply elem_of_seq in Hx. lia.
    + (* each under its index *)
      intros j c Hj. rewrite Hn'. unfold items' in Hj.
      destruct (decide (j < i)%nat) as [Hlt|Hge].
      * rewrite lookup_app_l in Hj by lia.
        apply lookup_take_Some in Hj as [Hj _].
        rewrite (Hfront j c Hlt Hj). now apply Hplaced.
      * rewrite lookup_app_r in Hj by lia. rewrite Hlent in Hj.
        destruct (decide (j - i < m)%nat) as [Hlt2|Hge2].
        -- rewrite lookup_app_l in Hj by lia.
           unfold fresh, freshIds in Hj. apply lookup_seq in Hj as [-> _].
           destruct (lookup_lt_is_Some_2 vs (j - i)) as [v Hv];
             [fold m; lia|].
           replace (S (nextNodeId h) + (j - i))%nat
             with (S (nextNodeId h + (j - i))) by lia.
           rewrite (Hfresh3 _ _ Hv). eexists. split; [reflexivity|].
           cbn [newNode _parent subpath]. split; [reflexivity|].
           f_equal. lia.
        -- rewrite lookup_app_r in Hj by lia. rewrite Hlenf in Hj.
           unfold rest in Hj. rewrite lookup_drop in Hj.
           destruct (Hbehind3 (i + k + (j - i - m))%nat c) as (cd & Hcd & Hc3);
             [lia|exact Hj|].
           destruct (Hplaced _ _ Hj) as (cd' & Hcd' & Hcpar & _).
           assert (cd' = cd) by congruence. subst cd'.
           eexists. split; [exact Hc3|]. split; [exact Hcpar|].
           cbn [set_subpath subpath]. f_equal. lia.
    + (* the values *)
      eapply Forall2_impl; [exact Hvals'|].
      intros c v Hcv. apply (primitiveItem_same g3); [now rewrite Hn'|].
      exact Hcv.
  - (* ids stay below the counter *)
    intros x [xd Hxd]. rewrite Hx'. unfold g3. cbn [setNode nextNodeId].
    rewrite Hx2, Hx1. rewrite Hn' in Hxd.
    destruct (decide (x <= nextNodeId h + length vs)%nat) as [|Hgt];
      [assumption|exfalso].
    rewrite Hl3 in Hxd by lia.
    rewrite Hother2 in Hxd by (apply Hfresh_rest; lia).
    assert (Hnone : nodes g1 !! x = None); [|congruence].
    eapply (reconcile_primitives_above fuel depth t p h); try eassumption;
      [|lia].
    intros c Hc.
    apply (subseteq_take k (drop i items)), (subseteq_drop i items) in Hc.
    apply list_elem_of_lookup in Hc as [j Hj].
    destruct (Hprim _ _ Hj) as (v & _ & cd & Hcd & Hsv & _).
    exists cd. split; [exact Hcd|]. now rewrite Hsv.
  - rewrite Hx'. unfold g3. cbn [setNode nextNodeId]. now rewrite Hx2, Hx1.
  - intros x Hxp Hxr Hx. rewrite Hn'. now apply Hkeep3.
  - rewrite Hev'. unfold g3. cbn [setNode events]. now rewrite He2, He1.
Qed.





Lemma bounded_setNode h p pd pd' :
  nodes h !! p = Some pd -> bounded h -> bounded (setNode p pd' h).
Proof.
  intros Hp Hb k Hk. cbn in *.
  destruct (decide (k = p)) as [->|Hne].
  - apply Hb. now rewrite Hp.
  - rewrite lookup_insert_ne in Hk by congruence. now apply Hb.
Qed.

Lemma validate_primitive h h' t v :
  isPrimitive v = true -> validate h' t v = validate h t v.
Proof. destruct v; try discriminate; intros _; destruct t; reflexivity. Qed.

Lemma validate_primitives h h' t vs :
  Forall (fun v => isPrimitive v = true) vs ->
  validate h' (ArrayType t) (VArr vs) = validate h (ArrayType t) (VArr vs).
Proof.
  intros Hvs. cbn. induction Hvs as [|v vs Hv _ IH]; [reflexivity|].
  cbn [forallb]. now rewrite IH, (validate_primitive h h' t v Hv).
Qed.

Lemma clamp_whole len :
  clampIndex len 0 = 0%nat /\ clampCount len 0 (Z.of_nat len) = len.
Proof.
  unfold clampIndex, clampCount. split.
  - destruct (0 >? Z.of_nat len) eqn:E; [lia|reflexivity].
  - lia.
Qed.

Lemma primitiveArray_same h h' p items vals :
  (forall c, c ∈ items -> nodes h' !! c = nodes h !! c) ->
  primitiveArray h p items vals -> primitiveArray h' p items vals.
Proof.
  intros Hsame [[Hnd Hw] Hv]. split; [split; [exact Hnd|]|].
  - intros j c Hj.
    rewrite (Hsame c) by (eapply list_elem_of_lookup_2; eauto). eauto.
  - clear Hnd Hw. induction Hv as [|c v items vals Hc Hv IH]; constructor.
    + apply (primitiveItem_same h h' c v); [apply Hsame; left|exact Hc].
    + apply IH. intros c' Hc'. apply Hsame. now right.
Qed.

(** Applying a list of primitives as the snapshot of an array of
    primitives: every item is replaced by a fresh node. *)
Lemma ArrayType_applySnapshot_primitives fuel depth h p pd t items observed l
    vals vs :
  nodes h !! p = Some pd -> type pd = ArrayType t -> isPlainType t = true ->
  storedValue pd = SArray items observed -> _isAlive pd = true ->
  ancestors h p l -> (2 * length l < fuel)%nat ->
  primitiveArray h p items vals -> bounded h ->
  Forall (fun v => isPrimitive v = true) vs ->
  validate h (ArrayType t) (VArr vs) = true ->
  exists h',
    ArrayType_applySnapshot fuel (childTypeOf fuel (S depth) t) t h p
      (VArr vs) = Ok h' /\
    nodes h' !! p =
      Some (set_storedValue (SArray (freshIds h (length vs)) observed) pd) /\
    primitiveArray h' p (freshIds h (length vs)) vs /\
    bounded h' /\ nextNodeId h' = (nextNodeId h + length vs)%nat /\
    (forall x, x <> p -> (x <= nextNodeId h)%nat ->
       nodes h' !! x = nodes h !! x) /\
    events h' =
      (events h ++
       if observed
       then flat_map (fun patch => bubble h patch "" p l)
              (splicePatches 0 (length items) vs)
       else [])%list.
Proof.
  intros Hp Ht Hplain Hs Halive Ha Hf Hpa Hb Hvs Hval.
  set (pd1 := set_isRunningAction true pd).
  set (h1 := setNode p pd1 h).
  assert (Hp1 : nodes h1 !! p = Some pd1) by apply lookup_insert_eq.
  assert (Hother : forall x, x <> p -> nodes h1 !! x = nodes h !! x).
  { intros x Hx. cbn. now rewrite lookup_insert_ne by congruence. }
  assert (Ha1 : ancestors h1 p l)
    by (apply (ancestors_setNode h p pd pd1 p l Hp eq_refl Ha)).
  assert (Hoff : forall k, k ∈ p :: l -> k ∉ items).
  { apply (items_off_chain h p l items Ha). intros c Hc.
    apply list_elem_of_lookup in Hc as [j Hj].
    destruct Hpa as [[_ Hw] _]. destruct (Hw j c Hj) as (cd & ? & ? & _).
    eauto. }
  assert (Hitems : forall c, c ∈ items -> nodes h1 !! c = nodes h !! c).
  { intros c Hc. apply Hother. intros ->. apply (Hoff p); [left|exact Hc]. }
  assert (Hpa1 : primitiveArray h1 p items vals)
    by (apply (primitiveArray_same h h1 p items vals Hitems Hpa)).
  assert (Hw1 : assertWritable fuel h1 p = Ok tt).
  { unfold assertWritable, assertAlive.
    rewrite (getNode_lookup _ _ _ Hp1). cbn [mbind Result_bind].
    change (_isAlive pd1) with (_isAlive pd). rewrite Halive.
    rewrite (isRunningAction_self fuel h1 p pd1 Hp1 eq_refl) by lia.
    reflexivity. }
  destruct (clamp_whole (length items)) as [Ei Ek].
  destruct (spliceWithArray_primitives fuel depth h1 p pd1 t items observed l
              vals 0 (Z.of_nat (length items)) vs 0 (length items) Hp1 Ht
              Hplain Hs Ha1 Hf Hw1 Hpa1
              (bounded_setNode h p pd pd1 Hp Hb) Hvs (eq_sym Ei)
              (eq_sym Ek))
    as (h2 & Hsp & Hp2 & Hpa2 & Hb2 & Hn2 & Hfr2 & He2).
  rewrite (take_0 items) in Hp2, Hpa2. rewrite (take_0 vals) in Hpa2.
  cbn [app Nat.add] in Hp2, Hpa2, Hfr2.
  rewrite drop_all in Hp2, Hpa2, Hfr2.
  rewrite (drop_ge vals) in Hpa2
    by (destruct Hpa as [_ Hv]; rewrite <- (Forall2_length _ _ _ Hv); lia).
  rewrite (app_nil_r (freshIds h1 (length vs))) in Hp2, Hpa2.
  rewrite (app_nil_r vs) in Hpa2.
  change (freshIds h1 (length vs)) with (freshIds h (length vs)) in *.
  change (nextNodeId h1) with (nextNodeId h) in *.
  change (events h1) with (events h) in He2.
  set (pd2 := set_storedValue (SArray (freshIds h (length vs)) observed) pd1)
    in *.
  set (h3 := setNode p (set_isRunningAction (_isRunningAction pd) pd2) h2).
  exists h3.
  assert (Hfresh : forall c, c ∈ freshIds h (length vs) -> c <> p).
  { intros c Hc ->. apply elem_of_seq in Hc.
    assert (p <= nextNodeId h)%nat by (apply Hb; now rewrite Hp). lia. }
  split; [|split; [|split; [|split; [|split; [|split]]]]].
  - unfold ArrayType_applySnapshot, typecheck. rewrite Hval.
    cbn [mbind Result_bind]. unfold pseudoAction.
    rewrite (getNode_lookup _ _ _ Hp). cbn [mbind Result_bind].
    assert (Hu : update p (set_isRunningAction true) h = Ok h1)
      by (unfold update; now rewrite (getNode_lookup _ _ _ Hp)).
    rewrite Hu. cbn [mbind Result_bind].
    unfold replace, arrayItems. rewrite (getNode_lookup _ _ _ Hp1).
    cbn [mbind Result_bind]. change (storedValue pd1) with (storedValue pd).
    rewrite Hs. cbn [mbind Result_bind]. rewrite Hsp.
    cbn [mbind Result_bind]. unfold update.
    rewrite (getNode_lookup _ _ _ Hp2). reflexivity.
  - apply lookup_insert_eq.
  - apply (primitiveArray_same h2 h3 p _ _); [|exact Hpa2].
    intros c Hc. unfold h3. rewrite lookup_setNode.
    rewrite decide_False by (intros E; apply (Hfresh c Hc); congruence).
    reflexivity.
  - apply (bounded_setNode h2 p _ _ Hp2 Hb2).
  - exact Hn2.
  - intros x Hx Hle. unfold h3. rewrite lookup_setNode.
    rewrite decide_False by congruence.
    rewrite Hfr2 by (auto; apply not_elem_of_nil). now apply Hother.
  - change (events h3) with (events h2). rewrite He2. f_equal.
    destruct observed; [|reflexivity].
    apply flat_map_ext. intros patch. apply bubble_agree.
    intros k Hk. unfold nodeOf.
    destruct (decide (k = p)) as [->|Hne].
    + rewrite Hp1, Hp. split; reflexivity.
    + rewrite (Hother k Hne). split; reflexivity.
Qed.





(** What [create] does for an array descriptor and a list of primitives. *)
Lemma create_primitives fuel depth h t vs env :
  bounded h -> isPlainType t = true -> (1 < fuel)%nat ->
  Forall (fun v => isPrimitive v = true) vs ->
  validate h (ArrayType t) (VArr vs) = true ->
  exists h',
    create fuel (S (S depth)) (ArrayType t) h (VArr vs) env
      = Ok (S (nextNodeId h), h') /\
    nodes h' !! S (nextNodeId h) =
      Some (newNode (ArrayType t) None "" env
              (SArray (seq (S (S (nextNodeId h))) (length vs)) true)) /\
    primitiveArray h' (S (nextNodeId h))
      (seq (S (S (nextNodeId h))) (length vs)) vs /\
    getSnapshot fuel h' (VNode (S (nextNodeId h))) = Ok (VFrozen (VArr vs)) /\
    (forall x, (x <= nextNodeId h)%nat -> nodes h' !! x = nodes h !! x) /\
    nextNodeId h' = (S (nextNodeId h) + length vs)%nat /\
    events h' = (events h ++ [EHook (S (nextNodeId h)) "afterCreate"])%list.
Proof.
  intros Hb Hplain Hf Hvs Hval.
  set (n := S (nextNodeId h)).
  set (nd0 := newNode (ArrayType t) None "" env (SArray [] false)).
  set (h1 := mkStore (<[n := nd0]> (nodes h)) n (events h)).
  set (nd1 := set_isRunningAction true nd0).
  set (h1a := setNode n nd1 h1).
  assert (Hfreshn : nodes h !! n = None).
  { destruct (nodes h !! n) eqn:E; [|reflexivity].
    assert (n <= nextNodeId h)%nat by (apply Hb; now rewrite E).
    unfold n in *. lia. }
  assert (Hn1 : nodes h1 !! n = Some nd0) by apply lookup_insert_eq.
  assert (Hn1a : nodes h1a !! n = Some nd1) by apply lookup_insert_eq.
  assert (Hold : forall x, x <> n -> nodes h1a !! x = nodes h !! x).
  { intros x Hx. cbn. now rewrite !lookup_insert_ne by congruence. }
  assert (Hb1a : bounded h1a).
  { intros k Hk. change (nextNodeId h1a) with n.
    destruct (decide (k = n)) as [->|Hne]; [lia|].
    rewrite (Hold k Hne) in Hk. apply Hb in Hk. unfold n. lia. }
  assert (Hpa0 : primitiveArray h1a n [] []).
  { split; [split; [constructor|]|constructor]. intros i c Hi. discriminate. }
  destruct (ArrayType_applySnapshot_primitives fuel depth h1a n nd1 t [] false
              [] [] vs Hn1a eq_refl Hplain eq_refl eq_refl
              (ancestors_root h1a n nd1 Hn1a eq_refl) ltac:(simpl; lia)
              Hpa0 Hb1a Hvs
              ltac:(now rewrite (validate_primitives h h1a t vs Hvs)))
    as (h2 & Happ & Hn2 & Hpa2 & Hb2 & Hnx2 & Hfr2 & He2).
  change (freshIds h1a (length vs)) with (seq (S n) (length vs)) in *.
  change (nextNodeId h1a) with n in *.
  change (events h1a) with (events h) in He2. rewrite app_nil_r in He2.
  set (fresh := seq (S n) (length vs)) in *.
  set (nd3 := newNode (ArrayType t) None "" env (SArray fresh true)).
  set (h3 := setNode n (set_isRunningAction true nd3) h2).
  set (h4 := setNode n nd3 h3).
  set (h5 := emit (EHook n "afterCreate") h4).
  assert (Hn3 : nodes h3 !! n = Some (set_isRunningAction true nd3))
    by apply lookup_insert_eq.
  assert (Hn4 : nodes h4 !! n = Some nd3) by apply lookup_insert_eq.
  assert (Hkeep : forall x, x <> n -> nodes h5 !! x = nodes h2 !! x).
  { intros x Hx. cbn. now rewrite !lookup_insert_ne by congruence. }
  assert (Hpa5 : primitiveArray h5 n fresh vs).
  { apply (primitiveArray_same h2 h5 n fresh vs); [|exact Hpa2].
    intros c Hc. apply Hkeep. apply elem_of_seq in Hc. lia. }
  exists h5.
  split; [|split; [exact Hn4|split; [exact Hpa5|split; [|split;
    [|split]]]]].
  - assert (Ecreate :
              create fuel (S (S depth)) (ArrayType t) h (VArr vs) env
              = ArrayType_instantiate fuel t (childTypeOf fuel (S depth) t) h
                  None "" env (VArr vs))
      by (unfold create, typecheck; rewrite Hval; reflexivity).
    rewrite Ecreate. unfold ArrayType_instantiate.
    rewrite createNode_new by reflexivity.
    cbv zeta. fold n. fold nd0. fold h1.
    assert (Hps : pseudoAction h1 n
                    (fun h0 => ArrayType_finalizeNewInstance fuel
                                 (childTypeOf fuel (S depth) t) t h0 n
                                 (VArr vs)) = Ok h4).
    { unfold pseudoAction. rewrite (getNode_lookup _ _ _ Hn1).
      cbn [mbind Result_bind].
      assert (Hu : update n (set_isRunningAction true) h1 = Ok h1a)
        by (unfold update; now rewrite (getNode_lookup _ _ _ Hn1)).
      rewrite Hu. cbn [mbind Result_bind].
      unfold ArrayType_finalizeNewInstance. rewrite Happ.
      cbn [mbind Result_bind]. unfold observe.
      rewrite (getNode_lookup _ _ _ Hn2). cbn [mbind Result_bind].
      cbn [storedValue set_storedValue]. cbn [mbind Result_bind].
      unfold update.
      match goal with
      | |- context [getNode ?g n] =>
          assert (Hg : nodes g !! n = Some (set_isRunningAction true nd3))
            by apply lookup_insert_eq;
          rewrite (getNode_lookup _ _ _ Hg)
      end.
      cbn [mbind Result_bind]. reflexivity. }
    rewrite Hps. cbn [mbind Result_bind].
    unfold fireHook. rewrite (getNode_lookup _ _ _ Hn4).
    cbn [mbind Result_bind]. reflexivity.
  - destruct fuel as [|[|fuel]]; try lia.
    unfold getSnapshot. cbn [getStateTreeNode mbind Result_bind].
    eapply (snapshot_primitiveArray fuel h5 n); [exact Hn4|reflexivity|
      reflexivity|reflexivity|reflexivity|now destruct Hpa5].
  - intros x Hx. assert (x <> n) by (unfold n; lia).
    rewrite (Hkeep x) by assumption. rewrite Hfr2 by (auto; unfold n; lia).
    now apply Hold.
  - exact Hnx2.
  - change (events h5) with (events h2 ++ [EHook n "afterCreate"])%list.
    now rewrite He2.
Qed.

(** Creating an array of primitives and reading its snapshot back.  For a
    list of primitives that is valid for the descriptor, [create] succeeds
    and allocates the next id for the array and the ids after it for the
    items, in order; the array is a live protected root with the given
    environment, observed, outside of any action; [getSnapshot] of it is the
    list that was given, frozen; no node that existed is changed; and only
    the [afterCreate] hook of the array is dispatched: creation emits no
    patch. *)
Theorem create_then_getSnapshot fuel depth h t vs env :
  bounded h -> isPlainType t = true -> (1 < fuel)%nat ->
  Forall (fun v => isPrimitive v = true) vs ->
  validate h (ArrayType t) (VArr vs) = true ->
  exists h',
    create fuel (S (S depth)) (ArrayType t) h (VArr vs) env
      = Ok (S (nextNodeId h), h') /\
    nodes h' !! S (nextNodeId h) =
      Some (newNode (ArrayType t) None "" env
              (SArray (seq (S (S (nextNodeId h))) (length vs)) true)) /\
    primitiveArray h' (S (nextNodeId h))
      (seq (S (S (nextNodeId h))) (length vs)) vs /\
    getSnapshot fuel h' (VNode (S (nextNodeId h))) = Ok (VFrozen (VArr vs)) /\
    (forall x, (x <= nextNodeId h)%nat -> nodes h' !! x = nodes h !! x) /\
    nextNodeId h' = (S (nextNodeId h) + length vs)%nat /\
    events h' = (events h ++ [EHook (S (nextNodeId h)) "afterCreate"])%list.
Proof. exact (create_primitives fuel depth h t vs env). Qed.

Lemma emptyStore_bounded : bounded emptyStore.
Proof. intros k [nd Hk]. cbn in Hk. rewrite lookup_empty in Hk. discriminate. Qed.

Lemma create_then_getSnapshot_witness :
  exists h',
    create 4 4 stringArray emptyStore (VArr [VStr "a"; VStr "b"]) VUndefined
      = Ok (2%nat, h') /\
    getSnapshot 4 h' (VNode 2%nat) = Ok (VFrozen (VArr [VStr "a"; VStr "b"])) /\
    events h' = [EHook 2%nat "afterCreate"].
Proof.
  destruct (create_then_getSnapshot 4 2 emptyStore (CoreType "string")
              [VStr "a"; VStr "b"] VUndefined)
    as (h' & Hc & _ & _ & Hsnap & _ & _ & He).
  - exact emptyStore_bounded.
  - reflexivity.
  - lia.
  - repeat constructor.
  - reflexivity.
  - exists h'. split; [exact Hc|]. split; [exact Hsnap|exact He].
Defined.

Lemma getNode_fail h n m hf :
  getNode h n = Fail m hf -> String.eqb m msg_resolve = false.
Proof.
  unfold getNode. destruct (nodes h !! n); [discriminate|].
  intros E. injection E as <- _. reflexivity.
Qed.

Lemma get_parent_fail h n m hf :
  get_parent h n = Fail m hf -> String.eqb m msg_resolve = false.
Proof.
  unfold get_parent. destruct (getNode h n) eqn:E; cbn; try discriminate.
  intros E'. injection E' as <- <-. exact (getNode_fail _ _ _ _ E).
Qed.

Lemma root_fail fuel : forall h n m hf,
  root fuel h n = Fail m hf -> String.eqb m msg_resolve = false.
Proof.
  induction fuel as [|fuel IH]; intros h n m hf; [discriminate|].
  cbn [root]. destruct (get_parent h n) as [[p|]|m' hf'|] eqn:E;
    cbn [mbind Result_bind]; try discriminate.
  - apply IH.
  - intros E'. injection E' as <- <-. exact (get_parent_fail _ _ _ _ E).
Qed.

Lemma getChildNode_fail h n key m hf :
  getChildNode h n key = Fail m hf -> String.eqb m msg_resolve = false.
Proof.
  unfold getChildNode, assertAlive.
  destruct (getNode h n) as [nd|m' hf'|] eqn:E; cbn [mbind Result_bind];
    try discriminate.
  - destruct (_isAlive nd); cbn [mbind Result_bind].
    + cbn [mbind Result_bind].
      unfold type_getChildNode, ArrayType_getChildNode, Type_getChildNode.
      destruct (type nd); try (intros E'; injection E' as <- _; reflexivity).
      destruct (storedValue nd);
        try (intros E'; injection E' as <- _; reflexivity).
      destruct (parseInt key);
        [|intros E'; injection E' as <- _; reflexivity].
      destruct (_ <? _); [discriminate|].
      intros E'; injection E' as <- _; reflexivity.
    + intros E'; injection E' as <- _; reflexivity.
  - intros E'. injection E' as <- <-. exact (getNode_fail _ _ _ _ E).
Qed.

Lemma orUndefined_fail m hf :
  String.eqb m msg_resolve = false ->
  orUndefined (Fail m hf) = Fail m hf.
Proof. unfold orUndefined. now intros ->. Qed.

Lemma resolvePath_loop_lenient fuel h pathParts : forall current,
  resolvePath_loop fuel h current pathParts false =
  orUndefined (resolvePath_loop fuel h current pathParts true).
Proof.
  induction pathParts as [|part rest IH]; intros current; [reflexivity|].
  cbn [resolvePath_loop].
  destruct (String.eqb part "") eqn:E1.
  - destruct current as [c|]; [|reflexivity].
    destruct (root fuel h c) as [r|m hf|] eqn:Er; cbn [mbind Result_bind].
    + apply IH.
    + symmetry. apply orUndefined_fail. exact (root_fail _ _ _ _ _ Er).
    + reflexivity.
  - destruct (String.eqb part "..") eqn:E2.
    + destruct current as [c|]; [|reflexivity].
      destruct (get_parent h c) as [[p|]|m hf|] eqn:Ep;
        cbn [mbind Result_bind].
      * apply IH.
      * reflexivity.
      * symmetry. apply orUndefined_fail.
        exact (get_parent_fail _ _ _ _ Ep).
      * reflexivity.
    + destruct (String.eqb part "." || false) eqn:E3; [apply IH|].
      destruct current as [c|]; [|reflexivity].
      destruct (getChildNode h c part) as [child|m hf|] eqn:Ec;
        cbn [mbind Result_bind].
      * apply IH.
      * symmetry. apply orUndefined_fail.
        exact (getChildNode_fail _ _ _ _ _ Ec).
      * reflexivity.
Qed.

(** [failIfResolveFails] only turns one failure into [undefined].  For every
    node and every list of path parts, [resolvePath] told not to fail returns
    what it returns when told to fail, except that where the latter throws
    "could not resolve" (a step left the tree) the former returns
    [undefined]; every other error, such as a part that is no child of a
    node, is thrown in both modes. *)
Theorem resolvePath_lenient fuel h n pathParts :
  resolvePath fuel h n pathParts false =
  orUndefined (resolvePath fuel h n pathParts true).
Proof. apply resolvePath_loop_lenient. Qed.

Lemma create_frozen fuel depth t h vs env :
  create fuel (S depth) (ArrayType t) h (VFrozen (VArr vs)) env =
  create fuel (S depth) (ArrayType t) h (VArr vs) env.
Proof. reflexivity. Qed.

Lemma primitiveItems_primitive h items vals :
  Forall2 (primitiveItem h) items vals ->
  Forall (fun v => isPrimitive v = true) vals.
Proof.
  induction 1 as [|c v items vals (cd & _ & _ & Hv & _) _ IH];
    constructor; assumption.
Qed.

(** A clone has the snapshot of its source and shares nothing with it.  For
    a live array of primitives anywhere in a tree, [clone] succeeds; the
    clone is a new protected root around fresh item nodes, its snapshot is
    the snapshot of the source, its environment is that of the root of the
    source when [keepEnvironment] is [true], none when it is [false] and
    [keepEnvironment] itself otherwise, and every node that existed,
    the source among them, is left as it was. *)
Theorem clone_primitives fuel depth h p pd t items observed l vals rd keep :
  nodes h !! p = Some pd -> type pd = ArrayType t -> isPlainType t = true ->
  storedValue pd = SArray items observed -> _isAlive pd = true ->
  lastSnapshot pd = None ->
  ancestors h p l -> (length l < fuel)%nat -> (1 < fuel)%nat ->
  nodes h !! rootOfPath p l = Some rd ->
  primitiveArray h p items vals -> bounded h ->
  validate h (ArrayType t) (VArr vals) = true ->
  exists h',
    clone fuel (S (S depth)) h (VNode p) keep = Ok (S (nextNodeId h), h') /\
    getSnapshot fuel h' (VNode (S (nextNodeId h))) =
      getSnapshot fuel h (VNode p) /\
    nodes h' !! S (nextNodeId h) =
      Some (newNode (ArrayType t) None ""
              (clonedEnvironment keep (_environment rd))
              (SArray (seq (S (S (nextNodeId h))) (length vals)) true)) /\
    (forall x, (x <= nextNodeId h)%nat -> nodes h' !! x = nodes h !! x).
Proof.
  intros Hp Ht Hplain Hs Halive Hl Ha Hf Hf2 Hrd Hpa Hb Hval.
  assert (Hvs : Forall (fun v => isPrimitive v = true) vals)
    by (destruct Hpa as [_ Hv]; exact (primitiveItems_primitive _ _ _ Hv)).
  destruct (create_primitives fuel depth h t vals
              (clonedEnvironment keep (_environment rd)) Hb Hplain Hf2 Hvs
              Hval)
    as (h' & Hc & Hn & _ & Hsnap & Hold & _ & _).
  assert (Hsrc : snapshot fuel h p = Ok (VFrozen (VArr vals))).
  { destruct fuel as [|[|fuel]]; try lia.
    apply (snapshot_primitiveArray fuel h p pd t items observed); auto.
    now destruct Hpa. }
  exists h'. split; [|split; [|split; [exact Hn|exact Hold]]].
  - unfold clone. cbn [getStateTreeNode mbind Result_bind].
    rewrite (getNode_lookup _ _ _ Hp). cbn [mbind Result_bind].
    rewrite Hsrc. cbn [mbind Result_bind]. rewrite Ht.
    assert (He : match keep with
                 | VBool true =>
                     r ← root fuel h p; rd0 ← getNode h r;
                     Ok (_environment rd0)
                 | VBool false => Ok VUndefined
                 | other => Ok other
                 end = Ok (clonedEnvironment keep (_environment rd))).
    { destruct keep as [| |[|]| | | | | |]; try reflexivity.
      rewrite (root_of_ancestors h p l Ha fuel Hf).
      cbn [mbind Result_bind]. rewrite (getNode_lookup _ _ _ Hrd).
      reflexivity. }
    rewrite He. cbn [mbind Result_bind]. rewrite create_frozen. exact Hc.
  - rewrite Hsnap. unfold getSnapshot.
    cbn [getStateTreeNode mbind Result_bind]. now rewrite Hsrc.
Qed.

Lemma envTree_primitives : primitiveArray envTree 2%nat [3%nat] [VStr "a"].
Proof.
  split; [split|].
  - apply (bool_decide_unpack _). vm_compute. exact I.
  - intros i c Hi. exists (nodeOf envTree c).
    destruct i as [|i]; simpl in Hi; try discriminate;
      injection Hi as <-; (split; [vm_compute; reflexivity|]);
      split; reflexivity.
  - repeat constructor;
      (eexists; split; [vm_compute; reflexivity|]); repeat split.
Qed.

Lemma envTree_bounded : bounded envTree.
Proof. apply idsBounded_bounded. vm_compute. reflexivity. Qed.

Lemma clone_primitives_witness :
  exists h',
    clone 4 4 envTree (VNode 2%nat) (VBool true) = Ok (4%nat, h') /\
    getSnapshot 4 h' (VNode 4%nat) = getSnapshot 4 envTree (VNode 2%nat) /\
    getEnv 4 h' (VNode 4%nat) = getEnv 4 envTree (VNode 2%nat).
Proof.
  destruct (clone_primitives 4 2 envTree 2%nat (nodeOf envTree 2%nat)
              (CoreType "string") [3%nat] true [] [VStr "a"]
              (nodeOf envTree 2%nat) (VBool true))
    as (h' & Hc & Hsnap & Hn & _).
  - vm_compute; reflexivity.
  - reflexivity.
  - reflexivity.
  - vm_compute; reflexivity.
  - reflexivity.
  - reflexivity.
  - eapply ancestors_root; [vm_compute; reflexivity | reflexivity].
  - simpl; lia.
  - lia.
  - vm_compute; reflexivity.
  - exact envTree_primitives.
  - exact envTree_bounded.
  - reflexivity.
  - exists h'. split; [exact Hc|]. split; [exact Hsnap|].
    unfold getEnv. cbn [getStateTreeNode mbind Result_bind].
    change (S (nextNodeId envTree)) with 4%nat in Hn.
    assert (Hr : root 4 h' 4%nat = Ok 4%nat).
    { cbn [root]. rewrite (parent_lookup _ _ _ Hn). reflexivity. }
    rewrite Hr. cbn [mbind Result_bind]. rewrite (getNode_lookup _ _ _ Hn).
    vm_compute. reflexivity.
Defined.

(** *** A throw inside a pseudo action *)

(** [pseudoAction] has no [finally].  [applySnapshot] on a live array, with
    a snapshot that passes the type check and whose first item is the live
    value of a node that is a child elsewhere, throws from inside the
    pseudo action: the error is the one of [createNode] for a value that is
    already part of a tree, and the store it leaves is the store of before
    with the action flag of the array raised.  From then on the array
    passes the mutation gate, whether or not its tree is protected and
    although no action is running. *)
Theorem pseudoAction_throw_leaves_unlocked fuel depth h p pd t items observed
    c cd q rest :
  nodes h !! p = Some pd -> type pd = ArrayType t ->
  storedValue pd = SArray items observed -> _isAlive pd = true ->
  (forall x, x ∈ items -> is_Some (nodes h !! x)) ->
  nodes h !! c = Some cd -> _isAlive cd = true -> _parent cd = Some q ->
  q <> p -> c <> p ->
  validate h (ArrayType t) (VArr (VNode c :: rest)) = true ->
  fuel <> O ->
  Node_applySnapshot fuel (S depth) h p (VArr (VNode c :: rest))
    = Fail msg_already_part (setNode p (set_isRunningAction true pd) h) /\
  assertWritable fuel (setNode p (set_isRunningAction true pd) h) p = Ok tt.
Proof.
  intros Hp Ht Hs Halive Hitems Hc Hca Hcp Hq Hcne Hval Hf.
  set (pd1 := set_isRunningAction true pd).
  set (h1 := setNode p pd1 h).
  assert (Hp1 : nodes h1 !! p = Some pd1) by apply lookup_insert_eq.
  assert (Hc1 : nodes h1 !! c = Some cd).
  { unfold h1. rewrite lookup_setNode. now rewrite decide_False. }
  assert (Hw1 : assertWritable fuel h1 p = Ok tt).
  { unfold assertWritable, assertAlive.
    rewrite (getNode_lookup _ _ _ Hp1). cbn [mbind Result_bind].
    change (_isAlive pd1) with (_isAlive pd). rewrite Halive.
    now rewrite (isRunningAction_self fuel h1 p pd1 Hp1 eq_refl Hf). }
  split; [|exact Hw1].
  assert (Hitems1 : forall x, x ∈ take (length items) items ->
                      is_Some (nodes h1 !! x)).
  { intros x Hx. apply subseteq_take in Hx. unfold h1.
    rewrite lookup_setNode. destruct (decide (p = x)); [eauto|].
    now apply Hitems. }
  destruct (indexOldNodes_total h1 (take (length items) items) ([], [])
              Hitems1) as [[byId ntk] Hidx].
  assert (Hstep : reconcileValue fuel (childTypeOf fuel (S depth) t) p byId
                    (mkReconcileState [] ntk h1) (VNode c)
                    (subPathAt (imap (fun i _ => Z.of_nat 0 + Z.of_nat i)
                                  (VNode c :: rest)) 0)
                  = Fail msg_already_part h1).
  { unfold reconcileValue. cbn [store]. unfold assertAlive.
    rewrite (getNode_lookup _ _ _ Hc1). cbn [mbind Result_bind].
    rewrite Hca. cbn [mbind Result_bind].
    rewrite (parent_lookup _ _ _ Hc1). cbn [mbind Result_bind].
    rewrite Hcp. rewrite bool_decide_eq_false_2 by congruence.
    now rewrite (instantiate_rejects_non_root fuel depth t h1 c cd q
                   (Some p) _ VUndefined Hc1 Hcp). }
  unfold Node_applySnapshot, applySnapshotWith, nodeType.
  rewrite (getNode_lookup _ _ _ Hp). cbn [mbind Result_bind]. rewrite Ht.
  unfold ArrayType_applySnapshot, typecheck. rewrite Hval.
  cbn [mbind Result_bind]. unfold pseudoAction.
  rewrite (getNode_lookup _ _ _ Hp). cbn [mbind Result_bind].
  assert (Hu : update p (set_isRunningAction true) h = Ok h1)
    by (unfold update; now rewrite (getNode_lookup _ _ _ Hp)).
  rewrite Hu. cbn [mbind Result_bind].
  assert (Hrep : replace fuel (childTypeOf fuel (S depth) t) h1 p
                   (VNode c :: rest) = Fail msg_already_part h1).
  { unfold replace, arrayItems. rewrite (getNode_lookup _ _ _ Hp1).
    cbn [mbind Result_bind]. change (storedValue pd1) with (storedValue pd).
    rewrite Hs. cbn [mbind Result_bind].
    unfold spliceWithArray, arrayItems.
    rewrite (getNode_lookup _ _ _ Hp1). cbn [mbind Result_bind].
    change (storedValue pd1) with (storedValue pd). rewrite Hs.
    cbn [mbind Result_bind].
    destruct (clamp_whole (length items)) as [Ei Ek]. rewrite Ei, Ek.
    unfold willChange. rewrite Hw1. cbn [mbind Result_bind].
    rewrite (getChildren_array h1 p pd1 t items observed Hp1 Halive Ht Hs).
    cbn [mbind Result_bind]. rewrite drop_0.
    unfold reconcileArrayChildren. rewrite Hidx. cbn [mbind Result_bind].
    cbn [reconcileValues]. rewrite Hstep. reflexivity. }
  now rewrite Hrep.
Qed.

Lemma pseudoAction_throw_leaves_unlocked_witness :
  isProtected 4 twoTrees 8%nat = Ok true /\
  assertWritable 4 twoTrees 8%nat = Fail msg_protected twoTrees /\
  exists hf,
    Node_applySnapshot 4 4 twoTrees 8%nat (VArr [VNode 3%nat])
      = Fail msg_already_part hf /\
    isProtected 4 hf 8%nat = Ok true /\
    assertWritable 4 hf 8%nat = Ok tt.
Proof.
  split; [vm_compute; reflexivity|]. split; [vm_compute; reflexivity|].
  destruct (pseudoAction_throw_leaves_unlocked 4 3 twoTrees 8%nat
              (nodeOf twoTrees 8%nat) stringArray [9%nat] true 3%nat
              (nodeOf twoTrees 3%nat) 2%nat []) as [Hfail Hgate].
  - vm_compute; reflexivity.
  - reflexivity.
  - vm_compute; reflexivity.
  - reflexivity.
  - intros x Hx. apply list_elem_of_singleton in Hx. subst x.
    vm_compute. eauto.
  - vm_compute; reflexivity.
  - reflexivity.
  - reflexivity.
  - discriminate.
  - discriminate.
  - vm_compute; reflexivity.
  - discriminate.
  - eexists. split; [exact Hfail|]. split; [vm_compute; reflexivity|].
    exact Hgate.
Defined.
